(** * DeFiHackLabs Incident Explorer: the update scripts, embedded and verified

    The development follows the four Python scripts of the repository:

    - [.github/workflow/scripts/normalize_attack.py]   (module [NormalizeAttack])
    - [scripts/update_data.py]                         (module [UpdateData])
    - [.github/workflows/scripts/parse_diff_and_update.py] (module [ParseDiff])
    - [scripts/build_rootcause_from_md.py]             (module [BuildRootcause])

    Conventions of the embedding.

    - A Python [str] is a Rocq [string]; the text is ASCII (code points below
      128): [lower], [upper], [title], [strip] and the classes [\s], [\d],
      [\w] are the ASCII restrictions of Python's.
    - A Python [float] is a primitive binary64 [float].
    - A value read by [json.load] is a [json]; a JSON object keeps the order
      of its keys, as a Python [dict] does, so that two stores are written as
      the same bytes by [json.dump] exactly when they are equal values.
    - Regular expressions are terms of [Re.regex], run by a backtracking
      matcher with Python's priorities (leftmost start, greedy or lazy
      repetition, alternatives left to right).
    - A call that can raise returns a [res]. *)

From Stdlib Require Import String Ascii List ZArith Lia Bool Arith.
From Stdlib Require Import Floats Uint63 Permutation DecimalString Sorted.
Import ListNotations.

Local Open Scope string_scope.
Local Open Scope list_scope.

(** ** Python's string methods *)

Module Py.

Definition code (c : ascii) : nat := nat_of_ascii c.

Definition between (lo hi : nat) (c : ascii) : bool :=
  (lo <=? code c)%nat && (code c <=? hi)%nat.

Definition is_digit (c : ascii) : bool := between 48 57 c.
Definition is_upper (c : ascii) : bool := between 65 90 c.
Definition is_lower (c : ascii) : bool := between 97 122 c.
Definition is_alpha (c : ascii) : bool := is_upper c || is_lower c.
(** [\w] *)
Definition is_word (c : ascii) : bool :=
  is_alpha c || is_digit c || Ascii.eqb c "_".
(** [str.isspace], and [\s]: tab, LF, VT, FF, CR, FS, GS, RS, US, space. *)
Definition is_space (c : ascii) : bool :=
  between 9 13 c || between 28 32 c.

Definition lower_c (c : ascii) : ascii :=
  if is_upper c then ascii_of_nat (code c + 32) else c.
Definition upper_c (c : ascii) : ascii :=
  if is_lower c then ascii_of_nat (code c - 32) else c.

Fixpoint map_s (f : ascii -> ascii) (s : string) : string :=
  match s with
  | EmptyString => EmptyString
  | String a r => String (f a) (map_s f r)
  end.

Definition lower : string -> string := map_s lower_c.
Definition upper : string -> string := map_s upper_c.

Fixpoint mem_char (c : ascii) (cs : string) : bool :=
  match cs with
  | EmptyString => false
  | String a r => Ascii.eqb a c || mem_char c r
  end.

Fixpoint drop (n : nat) (s : string) : string :=
  match n, s with
  | S k, String _ r => drop k r
  | _, _ => s
  end.

Fixpoint take (n : nat) (s : string) : string :=
  match n, s with
  | S k, String a r => String a (take k r)
  | _, _ => EmptyString
  end.

Fixpoint rev_s (acc s : string) : string :=
  match s with
  | EmptyString => acc
  | String a r => rev_s (String a acc) r
  end.

(** [s.lstrip(cs)]: drop leading characters that satisfy [p]. *)
Fixpoint lstrip_by (p : ascii -> bool) (s : string) : string :=
  match s with
  | String a r => if p a then lstrip_by p r else s
  | EmptyString => EmptyString
  end.

(** [s.rstrip(cs)]: a character goes when it satisfies [p] and nothing
    is kept after it. *)
Fixpoint rstrip_by (p : ascii -> bool) (s : string) : string :=
  match s with
  | EmptyString => EmptyString
  | String a r =>
      let r' := rstrip_by p r in
      match r' with
      | EmptyString => if p a then EmptyString else String a EmptyString
      | _ => String a r'
      end
  end.

Definition rstrip : string -> string := rstrip_by is_space.
Definition strip (s : string) : string := rstrip (lstrip_by is_space s).
Definition lstrip_chars (cs s : string) : string :=
  lstrip_by (fun c => mem_char c cs) s.

Definition startswith (s p : string) : bool := String.prefix p s.

Definition endswith (s p : string) : bool :=
  String.prefix (rev_s "" p) (rev_s "" s).

(** [sub in s] *)
Fixpoint contains (sub s : string) : bool :=
  String.prefix sub s ||
  match s with
  | EmptyString => false
  | String _ r => contains sub r
  end.

(** [s.replace(old, new)] for a non-empty [old]: occurrences are taken
    left to right and do not overlap; [skip] counts the characters of the
    occurrence just replaced that are still to be passed over. *)
Fixpoint replace_from (old new : string) (skip : nat) (s : string) : string :=
  match s with
  | EmptyString => EmptyString
  | String a r =>
      match skip with
      | S k => replace_from old new k r
      | O =>
          if String.prefix old s
          then new ++ replace_from old new (String.length old - 1) r
          else String a (replace_from old new 0 r)
      end
  end.

Definition replace (old new s : string) : string := replace_from old new 0 s.

(** [s.title()]: a cased character is upper-cased when the character before
    it is not cased, lower-cased otherwise. *)
Fixpoint title_from (prev_cased : bool) (s : string) : string :=
  match s with
  | EmptyString => EmptyString
  | String a r =>
      if is_alpha a
      then String (if prev_cased then lower_c a else upper_c a) (title_from true r)
      else String a (title_from false r)
  end.

Definition title : string -> string := title_from false.

(** [s.capitalize()] *)
Definition capitalize (s : string) : string :=
  match s with
  | EmptyString => EmptyString
  | String a r => String (upper_c a) (lower r)
  end.

Definition is_empty (s : string) : bool :=
  match s with EmptyString => true | _ => false end.

(** [all(c.isdigit() for c in s)] *)
Fixpoint all_digits (s : string) : bool :=
  match s with
  | EmptyString => true
  | String a r => is_digit a && all_digits r
  end.

(** The double quote, which a Rocq string literal cannot hold undoubled. *)
Definition dquote : string := String (ascii_of_nat 34) EmptyString.
Definition LF : ascii := ascii_of_nat 10.
Definition CR : ascii := ascii_of_nat 13.
Definition nl : string := String LF EmptyString.

End Py.

(** ** Python's [re]: a backtracking matcher *)

Module Re.

Inductive regex : Type :=
| Eps                                   (* matches the empty string *)
| Chr (c : ascii)                       (* a literal character *)
| Cls (p : ascii -> bool)               (* a character class *)
| Cat (r1 r2 : regex)                   (* r1 r2 *)
| Alt (r1 r2 : regex)                   (* r1|r2 *)
| Star (greedy : bool) (r : regex)      (* r* and r*? *)
| Grp (i : nat) (r : regex)             (* capturing group number i *)
| Bol                                   (* ^ without MULTILINE *)
| Eol.                                  (* $ without MULTILINE *)

Declare Scope re_scope.
Delimit Scope re_scope with re.
Bind Scope re_scope with regex.
Infix ";;" := Cat (at level 61, right associativity) : re_scope.
Infix "<|>" := Alt (at level 65, right associativity) : re_scope.

(** A literal word. *)
Fixpoint lit (w : string) : regex :=
  match w with
  | EmptyString => Eps
  | String a r => Cat (Chr a) (lit r)
  end.

(** [.]: any character but a line feed. *)
Definition Dot : regex := Cls (fun c => negb (Ascii.eqb c Py.LF)).
Definition ws : regex := Cls Py.is_space.
Definition digit : regex := Cls Py.is_digit.
Definition word : regex := Cls Py.is_word.
Definition oneof (cs : string) : regex := Cls (fun c => Py.mem_char c cs).

Definition star (r : regex) : regex := Star true r.
Definition plus (r : regex) : regex := Cat r (Star true r).
(** [r?] prefers to take [r]. *)
Definition opt (r : regex) : regex := Alt r Eps.

(** [r{n}] *)
Fixpoint times (n : nat) (r : regex) : regex :=
  match n with
  | O => Eps
  | S k => Cat r (times k r)
  end.

(** [r{0,n}], greedy. *)
Fixpoint upto (n : nat) (r : regex) : regex :=
  match n with
  | O => Eps
  | S k => Alt (Cat r (upto k r)) Eps
  end.

(** [r{m,n}] with [n = m + extra], greedy. *)
Definition range (m extra : nat) (r : regex) : regex :=
  Cat (times m r) (upto extra r).

(** The span of each group that took part in the match, as offsets into
    the subject. *)
Definition caps : Type := list (nat * (nat * nat)).

Fixpoint cap_get (i : nat) (c : caps) : option (nat * nat) :=
  match c with
  | [] => None
  | (j, sp) :: r => if Nat.eqb i j then Some sp else cap_get i r
  end.

Section Matcher.

(** [re.IGNORECASE]. Every class of the patterns below is closed under
    change of case, so the flag bears on literal characters only. *)
Variable ic : bool.
Variable R : Type.

Definition chr_ok (a b : ascii) : bool :=
  if ic then Ascii.eqb (Py.lower_c a) (Py.lower_c b) else Ascii.eqb a b.

(** The rounds of a repetition of [step]: at most [fuel] of them. A
    round counts only if it consumed a character, as in CPython; a greedy
    repetition tries a further round before it hands over to [k], a lazy
    one hands over first. *)
Fixpoint loop (greedy : bool)
         (step : (nat -> string -> caps -> option R) ->
                 nat -> string -> caps -> option R)
         (k : nat -> string -> caps -> option R)
         (fuel : nat) (pos : nat) (s : string) (c : caps) {struct fuel} : option R :=
  let more :=
    match fuel with
    | O => None
    | S fuel' =>
        step (fun pos' s' c' =>
                if (pos <? pos')%nat then loop greedy step k fuel' pos' s' c' else None)
             pos s c
    end in
  if greedy
  then match more with Some x => Some x | None => k pos s c end
  else match k pos s c with Some x => Some x | None => more end.

(** [run r k pos s c]: match [r] at offset [pos], where [s] is what is
    left of the subject, then hand over to [k]; [None] makes the caller
    backtrack. *)
Fixpoint run (r : regex) (k : nat -> string -> caps -> option R)
         (pos : nat) (s : string) (c : caps) {struct r} : option R :=
  match r with
  | Eps => k pos s c
  | Chr a =>
      match s with
      | String b s' => if chr_ok a b then k (S pos) s' c else None
      | EmptyString => None
      end
  | Cls p =>
      match s with
      | String b s' => if p b then k (S pos) s' c else None
      | EmptyString => None
      end
  | Cat r1 r2 => run r1 (fun pos' s' c' => run r2 k pos' s' c') pos s c
  | Alt r1 r2 =>
      match run r1 k pos s c with
      | Some x => Some x
      | None => run r2 k pos s c
      end
  | Star greedy r1 => loop greedy (run r1) k (S (String.length s)) pos s c
  | Grp i r1 =>
      run r1 (fun pos' s' c' => k pos' s' ((i, (pos, pos')) :: c')) pos s c
  | Bol => if (pos =? 0)%nat then k pos s c else None
  | Eol =>
      match s with
      | EmptyString => k pos s c
      | String b EmptyString => if Ascii.eqb b Py.LF then k pos s c else None
      | _ => None
      end
  end.

End Matcher.

(** A match object: the subject, the span of the match and of its groups. *)
Record mobj : Type := MObj {
  subject : string;
  m_start : nat;
  m_end : nat;
  m_caps : caps
}.

(** [m.group(i)], [None] when the group took no part in the match. *)
Definition group (m : mobj) (i : nat) : option string :=
  match cap_get i (m_caps m) with
  | Some (b, e) => Some (Py.take (e - b) (Py.drop b (subject m)))
  | None => None
  end.

(** [m.group(i) or ""] *)
Definition group_or_empty (m : mobj) (i : nat) : string :=
  match group m i with Some g => g | None => "" end.

(** The match of [r] that starts at offset [pos] of [whole]; [s] is
    [whole] from [pos] on. *)
Definition match_at (ic : bool) (r : regex) (whole : string)
           (pos : nat) (s : string) : option mobj :=
  run ic mobj r (fun e _ c => Some (MObj whole pos e c)) pos s [].

(** [re.match(r, s)] *)
Definition re_match (ic : bool) (r : regex) (s : string) : option mobj :=
  match_at ic r s 0 s.

(** [re.search(r, s)]: the first offset at which a match starts. *)
Fixpoint search_from (ic : bool) (r : regex) (whole : string)
         (pos : nat) (s : string) : option mobj :=
  match match_at ic r whole pos s with
  | Some m => Some m
  | None =>
      match s with
      | EmptyString => None
      | String _ s' => search_from ic r whole (S pos) s'
      end
  end.

Definition re_search (ic : bool) (r : regex) (s : string) : option mobj :=
  search_from ic r s 0 s.

Definition found (o : option mobj) : bool :=
  match o with Some _ => true | None => false end.

(** [re.sub(r, "", s)] for a pattern that matches no empty string: every
    match, left to right, is cut out. [skip] counts the characters of the
    current match still to be dropped. *)
Fixpoint sub_from (ic : bool) (r : regex) (whole : string)
         (pos skip : nat) (s : string) : string :=
  match s with
  | EmptyString => EmptyString
  | String a s' =>
      match skip with
      | S k => sub_from ic r whole (S pos) k s'
      | O =>
          match match_at ic r whole pos s with
          | Some m =>
              if (pos <? m_end m)%nat
              then sub_from ic r whole (S pos) (m_end m - pos - 1) s'
              else String a (sub_from ic r whole (S pos) 0 s')
          | None => String a (sub_from ic r whole (S pos) 0 s')
          end
      end
  end.

Definition re_sub_empty (ic : bool) (r : regex) (s : string) : string :=
  sub_from ic r s 0 0 s.

(** *** The shape of a pattern *)

(** The numbers of the groups of a pattern. *)
Fixpoint groups (r : regex) : list nat :=
  match r with
  | Cat r1 r2 | Alt r1 r2 => groups r1 ++ groups r2
  | Star _ r1 => groups r1
  | Grp i r1 => i :: groups r1
  | _ => []
  end.

(** A pattern that matches at every offset of every subject: its parts
    are repetitions from zero on, or have an empty alternative. *)
Fixpoint never_fails (r : regex) : bool :=
  match r with
  | Eps | Star _ _ => true
  | Cat r1 r2 => never_fails r1 && never_fails r2
  | Alt r1 r2 => never_fails r1 || never_fails r2
  | Grp _ r1 => never_fails r1
  | _ => false
  end.

End Re.

(** ** normalize_attack.py *)

Module NormalizeAttack.
Import Re.

(** A pattern of the table: literal characters and [.*]. *)
Fixpoint pat (p : string) : regex :=
  match p with
  | EmptyString => Eps
  | String a r =>
      match Ascii.eqb a ".", r with
      | true, String b r' =>
          if Ascii.eqb b "*" then Cat (star Dot) (pat r') else Cat Dot (pat r)
      | true, EmptyString => Cat Dot Eps
      | false, _ => Cat (Chr a) (pat r)
      end
  end.

(** The dict literal, in the order it is written (a dict iterates in
    insertion order, and no key is written twice). *)
Definition ATTACK_TYPE_MAPPING : list (string * string) :=
  [ ("access.*control", "Access Control");
    ("unauthorized", "Access Control");
    ("unprotected", "Access Control");
    ("privilege", "Access Control");
    ("admin", "Access Control");
    ("ownership", "Access Control");
    ("permission", "Access Control");
    ("auth", "Access Control");
    ("lack.*of.*access", "Access Control");
    ("insufficient.*access", "Access Control");
    ("incorrect.*access", "Access Control");
    ("improper.*access", "Access Control");
    ("business.*logic", "Logic Flaw");
    ("logic.*flaw", "Logic Flaw");
    ("calculation", "Logic Flaw");
    ("logic.*error", "Logic Flaw");
    ("business.*rule", "Logic Flaw");
    ("bad.*logic", "Logic Flaw");
    ("business.*loigc", "Logic Flaw");
    ("bussiness.*logic", "Logic Flaw");
    ("incorrect.*logic", "Logic Flaw");
    ("improper.*logic", "Logic Flaw");
    ("rounding", "Precision");
    ("precision", "Precision");
    ("insufficient.*validation", "Incorrect Validation");
    ("validation", "Incorrect Validation");
    ("improper.*validation", "Incorrect Validation");
    ("flash.*loan", "Flash Loan Attack");
    ("flashloan", "Flash Loan Attack");
    ("flash.*swap", "Flash Loan Attack");
    ("loan.*attack", "Flash Loan Attack");
    ("price.*manipulation", "Price Manipulation");
    ("oracle.*manipulation", "Price Manipulation");
    ("price.*oracle", "Price Manipulation");
    ("manipulation", "Price Manipulation");
    ("oracle.*attack", "Price Manipulation");
    ("price.*feed", "Price Manipulation");
    ("bad.*oracle", "Price Manipulation");
    ("pool.*manipulation", "Price Manipulation");
    ("pool.*imbalance", "Price Manipulation");
    ("pair.*manipulate", "Price Manipulation");
    ("reentrancy", "Reentrancy Attack");
    ("re-entrancy", "Reentrancy Attack");
    ("reentrant", "Reentrancy Attack");
    ("read-only.*reentrancy", "Reentrancy Attack");
    ("cross.*contract.*reentrancy", "Reentrancy Attack");
    ("overflow", "Overflow");
    ("underflow", "Overflow");
    ("integer.*overflow", "Overflow");
    ("integer.*underflow", "Overflow");
    ("slippage", "Slippage Protection");
    ("storage.*collision", "Storage Collision");
    ("signature", "Signature Verification");
    ("verification", "Signature Verification");
    ("arbitrary.*calldata", "Arbitrary Calldata");
    ("arbitrary.*call", "Arbitrary Calldata");
    ("arbitrary.*yul", "Arbitrary Yul Calldata");
    ("weak.*random.*mint", "Weak Random Mint");
    ("arbitrary.*address", "Arbitrary Address Spoofing Attack");
    ("k-verification", "K-Verification");
    ("no.*slippage", "Slippage Protection");
    ("lack.*slippage", "Slippage Protection");
    ("phishing", "Social Engineering");
    ("social", "Social Engineering");
    ("scam", "Social Engineering");
    ("fraud", "Social Engineering");
    ("impersonation", "Social Engineering");
    ("rugpull", "Social Engineering");
    ("bug", "Implementation Bug");
    ("error", "Implementation Bug");
    ("incorrect", "Implementation Bug");
    ("wrong", "Implementation Bug");
    ("implementation.*flaw", "Implementation Bug");
    ("coding.*error", "Implementation Bug");
    ("design", "Protocol Design");
    ("architecture", "Protocol Design");
    ("specification", "Protocol Design");
    ("design.*flaw", "Protocol Design");
    ("front.*run", "Front-running Attack");
    ("frontrun", "Front-running Attack");
    ("mev", "Front-running Attack");
    ("governance", "Governance Attack");
    ("dao.*attack", "Governance Attack");
    ("voting", "Governance Attack");
    ("malicious.*proposal", "Governance Attack");
    ("sandwich", "Sandwich Attack");
    ("bridge", "Bridge Attack");
    ("cross.*chain", "Bridge Attack");
    ("inflation.*attack", "Inflation Attack");
    ("compoundv2.*inflation", "Inflation Attack");
    ("precision.*loss", "Precision Loss");
    ("loss.*of.*precision", "Precision Loss");
    ("self.*liquidation", "Self-Liquidation");
    ("swap.*metapool", "Swap Metapool Attack");
    ("private.*key", "Private Key Compromised");
    ("key.*compromised", "Private Key Compromised");
    ("token.*incompatible", "Token Incompatible");
    ("incompatible.*token", "Token Incompatible");
    ("protocol.*token.*incompatible", "Protocol Token Incompatible");
    ("deflationary.*token", "Deflationary Token Incompatible");
    ("weak.*rng", "Weak RNG");
    ("bad.*randomness", "Weak RNG");
    ("predicting.*random", "Weak RNG");
    ("fake.*market", "Fake Market") ].

(** [re.search(pattern, attack_type)] is truthy. *)
Definition hits (pattern attack_type : string) : bool :=
  found (re_search false (pat pattern) attack_type).

(** [^(attack|exploit|hack):?\s+] *)
Definition prefix_re : regex :=
  (Bol ;; Grp 1 (lit "attack" <|> lit "exploit" <|> lit "hack")
       ;; opt (Chr ":") ;; plus ws)%re.

(** The phrase as the table sees it: lower-cased, stripped, the prefix cut. *)
Definition prepare (attack_type : string) : string :=
  re_sub_empty false prefix_re (Py.strip (Py.lower attack_type)).

(** The [for] loop over [ATTACK_TYPE_MAPPING.items()]. *)
Fixpoint first_label (table : list (string * string)) (attack_type : string)
  : option string :=
  match table with
  | [] => None
  | (pattern, label) :: rest =>
      if hits pattern attack_type then Some label
      else first_label rest attack_type
  end.

Definition normalize_attack_type (attack_type : string) : string :=
  if Py.is_empty attack_type then "Unknown"
  else
    let attack_type := prepare attack_type in
    match first_label ATTACK_TYPE_MAPPING attack_type with
    | Some label => label
    | None => Py.title attack_type
    end.

End NormalizeAttack.

(** ** Values of [json.load], dicts, exceptions *)

#[warnings="-register-all"]
Inductive json : Type :=
| JNull
| JBool (b : bool)
| JInt (z : Z)
| JFloat (f : float)
| JStr (s : string)
| JArr (l : list json)
| JObj (kv : list (string * json)).

(** A Python [dict] with string keys, in insertion order. *)
Definition dict : Type := list (string * json).

(** The exceptions the scripts can meet. [Unmodelled] marks a run that
    leaves what this embedding describes (a float whose text is not plain
    digits, a dict key that is not a string, ...). *)
Inductive exn : Type :=
| KeyError | TypeError | ValueError | AttributeError | JSONDecodeError
| Unmodelled.

Inductive res (A : Type) : Type :=
| Ok (a : A)
| Raise (e : exn).
Arguments Ok {A} a.
Arguments Raise {A} e.

Definition bind {A B : Type} (m : res A) (f : A -> res B) : res B :=
  match m with
  | Ok a => f a
  | Raise e => Raise e
  end.

Notation "'do' x <- m ; f" := (bind m (fun x => f))
  (at level 10, x pattern, m at level 100, f at level 200).

(** What a path holds when a script comes to read it as JSON. *)
Inductive file : Type :=
| Missing                (* os.path.exists is false *)
| Unparseable            (* json.load raises *)
| Holds (j : json).      (* json.load returns j *)

Module Dict.

Fixpoint get (k : string) (d : dict) : option json :=
  match d with
  | [] => None
  | (k', v) :: r => if String.eqb k k' then Some v else get k r
  end.

(** [d.get(k, default)] *)
Definition get_or (k : string) (default : json) (d : dict) : json :=
  match get k d with Some v => v | None => default end.

(** [k in d] *)
Definition has (k : string) (d : dict) : bool :=
  match get k d with Some _ => true | None => false end.

(** [d[k] = v]: in place when the key is there, at the end otherwise. *)
Fixpoint set (k : string) (v : json) (d : dict) : dict :=
  match d with
  | [] => [(k, v)]
  | (k', v') :: r =>
      if String.eqb k k' then (k', v) :: r else (k', v') :: set k v r
  end.

(** [del d[k]] *)
Fixpoint remove (k : string) (d : dict) : dict :=
  match d with
  | [] => []
  | (k', v') :: r =>
      if String.eqb k k' then r else (k', v') :: remove k r
  end.

Definition keys (d : dict) : list string := map fst d.

End Dict.

(** [bool(v)] *)
Definition truthy (v : json) : bool :=
  match v with
  | JNull => false
  | JBool b => b
  | JInt z => negb (Z.eqb z 0)
  | JFloat f => negb (PrimFloat.eqb f 0)
  | JStr s => negb (Py.is_empty s)
  | JArr l => match l with [] => false | _ => true end
  | JObj kv => match kv with [] => false | _ => true end
  end.

(** [x or y] *)
Definition por (x y : json) : json := if truthy x then x else y.

(** The float a value carries, 0.0 for any other value. *)
Definition float_in (v : json) : float :=
  match v with JFloat f => f | _ => 0%float end.

(** ** update_data.py *)

Module UpdateData.
Import Re.

Definition GITHUB_BASE : string :=
  "https://github.com/SunWeb3Sec/DeFiHackLabs/blob/main/".

(** *** Floats *)

(** The float nearest to an integer (of less than 63 bits). *)
Definition float_of_Z (z : Z) : float :=
  if (0 <=? z)%Z then PrimFloat.of_uint63 (Uint63.of_Z z)
  else PrimFloat.opp (PrimFloat.of_uint63 (Uint63.of_Z (- z))).

(** The digits of [s] read as a number. *)
Fixpoint digits_value (acc : Z) (s : string) : Z :=
  match s with
  | EmptyString => acc
  | String a r => digits_value (10 * acc + (Z.of_nat (Py.code a) - 48))%Z r
  end.

Fixpoint index_of (c : ascii) (s : string) : option nat :=
  match s with
  | EmptyString => None
  | String a r =>
      if Ascii.eqb a c then Some 0
      else match index_of c r with Some i => Some (S i) | None => None end
  end.

(** [float(s)] for a text of digits and dots: a value when there is at
    most one dot and some digit, [None] (ValueError) otherwise. The
    quotient of the digits by the power of ten is the correctly rounded
    value as long as the digits stay below 2^53 and the power below
    10^23, which is the case for every amount of the statements below. *)
Definition py_float (s : string) : option float :=
  match index_of "." s with
  | None =>
      if Py.all_digits s && negb (Py.is_empty s)
      then Some (float_of_Z (digits_value 0 s)) else None
  | Some i =>
      let ip := Py.take i s in
      let fp := Py.drop (S i) s in
      if Py.all_digits ip && Py.all_digits fp
         && negb (Py.is_empty ip && Py.is_empty fp)
      then Some (PrimFloat.div (float_of_Z (digits_value 0 (ip ++ fp)))
                               (float_of_Z (10 ^ Z.of_nat (String.length fp))))
      else None
  end.

(** *** Helpers *)

(** [digits[:6] if len(digits) >= 6 else None], [digits] the digits of
    the argument. *)
Fixpoint only_digits (s : string) : string :=
  match s with
  | EmptyString => EmptyString
  | String a r => if Py.is_digit a then String a (only_digits r) else only_digits r
  end.

Definition _norm_start_ym (s : option string) : option string :=
  match s with
  | None => None
  | Some s =>
      if Py.is_empty s then None
      else
        let digits := only_digits s in
        if (6 <=? String.length digits)%nat then Some (Py.take 6 digits) else None
  end.

Definition _normalize_currency (token : string) : string :=
  let t := Py.strip (Py.replace "$" "USD" (Py.replace "US$" "USD" (Py.upper token))) in
  if existsb (String.eqb t) ["USD$"; "US D"; "US"; "U S D"] then "USD" else t.

(** The loss pattern, in three parts:
    [(?:Total\s+)?Lo(?:ss|st)\s*[:\-]\s*~?\s*\$?\s*], the label; *)
Definition loss_label : regex :=
  (opt (lit "Total" ;; plus ws) ;; lit "Lo" ;; (lit "ss" <|> lit "st")
   ;; star ws ;; oneof ":-" ;; star ws ;; opt (Chr "~") ;; star ws
   ;; opt (Chr "$") ;; star ws)%re.

(** [([0-9][0-9,\.]*?)], the number, a lazy repetition; *)
Definition loss_number : regex :=
  Grp 1 (digit ;; Star false (Cls (fun c => Py.is_digit c || Py.mem_char c ",."))).

(** [\s*([KMBkmb]?)\s*([A-Za-z$]{0,n})?], the suffix and the currency,
    with [n = 6] in [_parse_loss_and_currency] (and 10 where the README
    is read). *)
Definition loss_unit (n : nat) : regex :=
  (star ws ;; Grp 2 (opt (oneof "KMBkmb")) ;; star ws
   ;; opt (Grp 3 (upto n (Cls (fun c => Py.is_alpha c || Ascii.eqb c "$")))))%re.

Definition loss_re (n : nat) : regex :=
  (loss_label ;; loss_number ;; loss_unit n)%re.

(** The multiplier picked by the suffix. *)
Definition mult_of (suf : string) : float :=
  if String.eqb suf "K" then 1000%float
  else if String.eqb suf "M" then 1000000%float
  else if String.eqb suf "B" then 1000000000%float
  else 1%float.

Definition _parse_loss_and_currency (text : string) : float * string :=
  if Py.is_empty text then (0%float, "USD")
  else
    match re_search true (loss_re 6) text with
    | None => (0%float, "USD")
    | Some m =>
        let num_s := Py.replace "," "" (group_or_empty m 1) in
        let suf := Py.upper (group_or_empty m 2) in
        let g3 := group_or_empty m 3 in
        let cur := _normalize_currency (if Py.is_empty g3 then "USD" else g3) in
        let base := match py_float num_s with Some b => b | None => 0%float end in
        (PrimFloat.mul base (mult_of suf), if Py.is_empty cur then "USD" else cur)
    end.

(** [@Type\s*[:\-]\s*([^\n\r]+)] *)
Definition type_re : regex :=
  (lit "@Type" ;; star ws ;; oneof ":-" ;; star ws
   ;; Grp 1 (plus (Cls (fun c => negb (Ascii.eqb c Py.LF || Ascii.eqb c Py.CR)))))%re.

Definition _parse_type (text : string) : string :=
  if Py.is_empty text then ""
  else
    match re_search true type_re text with
    | Some m => Py.strip (group_or_empty m 1)
    | None => ""
    end.

(** [createSelectFork\(\s*\"([a-zA-Z0-9_\-]+)\"] *)
Definition fork_re : regex :=
  (lit "createSelectFork(" ;; star ws ;; lit Py.dquote
   ;; Grp 1 (plus (Cls (fun c => Py.is_word c || Ascii.eqb c "-")))
   ;; lit Py.dquote)%re.

Definition chain_mapping : list (string * string) :=
  [ ("mainnet", "Ethereum"); ("eth_mainnet", "Ethereum"); ("ethereum", "Ethereum");
    ("bsc", "BSC"); ("bnb", "BSC");
    ("arbitrum", "Arbitrum"); ("arb", "Arbitrum");
    ("base", "Base");
    ("polygon", "Polygon"); ("matic", "Polygon");
    ("optimism", "Optimism"); ("op", "Optimism");
    ("fantom", "Fantom");
    ("avalanche", "Avalanche"); ("avax", "Avalanche");
    ("scroll", "Scroll"); ("blast", "Blast"); ("linea", "Linea") ].

Fixpoint assoc (k : string) (l : list (string * string)) : option string :=
  match l with
  | [] => None
  | (k', v) :: r => if String.eqb k k' then Some v else assoc k r
  end.

Definition _parse_chain (text : string) : string :=
  if Py.is_empty text then "Unknown"
  else
    match re_search false fork_re text with
    | None => "Unknown"
    | Some m =>
        let net := Py.lower (group_or_empty m 1) in
        match assoc net chain_mapping with
        | Some label => label
        | None => Py.capitalize net
        end
    end.

Definition _pretty_default_name (filename : string) : string :=
  Py.replace "_" " " (Py.replace "_exp.sol" "" filename).

(** *** Helpers of the README analysis *)

(** [re.split(r"[-.]", s)]: the parts between the characters of a class;
    [cur] is the part so far, reversed. *)
Fixpoint split_by (p : ascii -> bool) (cur : string) (s : string) : list string :=
  match s with
  | EmptyString => [Py.rev_s "" cur]
  | String a r =>
      if p a then Py.rev_s "" cur :: split_by p "" r
      else split_by p (String a cur) r
  end.

(** [p.isdigit()] *)
Definition isdigit (p : string) : bool := Py.all_digits p && negb (Py.is_empty p).

(** [_norm_date], the local function of the README analysis. *)
Definition _norm_date (date_raw : string) : option string :=
  if Py.is_empty date_raw then None
  else if Py.contains "-" date_raw || Py.contains "." date_raw
  then
    match split_by (fun c => Py.mem_char c "-.") "" date_raw with
    | [p0; p1; p2] =>
        if isdigit p0 && isdigit p1 && isdigit p2
        then Some (p0 ++ p1 ++ p2)%string else None
    | _ => None
    end
  else if (String.length date_raw =? 8)%nat && isdigit date_raw then Some date_raw
  else None.

(** The heading-style loss line: blanks, one or more [#], blanks, [Lost], a
    colon or none, blanks, then the number (a digit and, greedily,
    digits, commas and dots), and two optional parts: blanks and a
    suffix of [KMBkmb]; blanks and one to ten of [A-Za-z$]. *)
Definition heading_loss_re : regex :=
  (Bol ;; star ws ;; plus (Chr "#") ;; star ws ;; lit "Lost" ;; opt (Chr ":") ;; plus ws
   ;; Grp 1 (digit ;; star (Cls (fun c => Py.is_digit c || Py.mem_char c ",.")))
   ;; opt (star ws ;; Grp 2 (oneof "KMBkmb"))
   ;; opt (plus ws ;; Grp 3 (range 1 9 (Cls (fun c => Py.is_alpha c || Ascii.eqb c "$")))))%re.

(** The loss of one line of the README, as the two loops over the lines
    read it: the label pattern first, the heading pattern when the label
    pattern finds nothing; [None] when neither matches ([continue]). *)
Definition readme_loss_line (ln : string) : option (float * string) :=
  let m_loss :=
    match re_search true (loss_re 10) ln with
    | Some m => Some m
    | None => re_search true heading_loss_re ln
    end in
  match m_loss with
  | None => None
  | Some m =>
      let g1 := group_or_empty m 1 in
      let num_s := Py.replace "," "" (if Py.is_empty g1 then "0" else g1) in
      let base := match py_float num_s with Some b => b | None => 0%float end in
      let suf := Py.upper (group_or_empty m 2) in
      let g3 := group_or_empty m 3 in
      Some (PrimFloat.mul base (mult_of suf),
            _normalize_currency (if Py.is_empty g3 then "USD" else g3))
  end.

(** *** The files and the corpus *)

(** What a run finds: the source tree as [os.walk(SRC_REPO)] lists it
    (each directory with its file names), the text [open(path).read()]
    returns ([None] when it raises), and the three JSON files. *)
Record world : Type := World {
  walk : list (string * list string);
  read_text : string -> option string;
  overrides_file : file;
  incidents_file : file;
  rootcause_file : file
}.

(** [os.path.join(a, b)] *)
Definition path_join (a b : string) : string :=
  if Py.startswith b "/" then b
  else if Py.is_empty a then b
  else if Py.endswith a "/" then a ++ b
  else a ++ "/" ++ b.

(** [os.path.dirname(p)]: up to the last slash, without it (a leading
    run of slashes is kept). *)
Definition dirname (p : string) : string :=
  let head := Py.rev_s "" (Py.lstrip_by (fun c => negb (Ascii.eqb c "/")) (Py.rev_s "" p)) in
  let cut := Py.rstrip_by (fun c => Ascii.eqb c "/") head in
  if Py.is_empty cut then head else cut.

Definition backslash : string := String (ascii_of_nat 92) EmptyString.

Section Library.

(** [str(v)] for a value that is not a string: Python's own printing
    of numbers, lists and dicts, which the scripts only pass on. *)
Variable py_str : json -> string.

Definition str_of (v : json) : string :=
  match v with
  | JStr s => s
  | _ => py_str v
  end.

(** The loop of [_load_overrides] over a list. *)
Fixpoint overrides_of_list (raw : list json) (out : dict) : dict :=
  match raw with
  | [] => out
  | item :: rest =>
      match item with
      | JObj d =>
          let key := por (Dict.get_or "contract" JNull d) (Dict.get_or "Contract" JNull d) in
          if truthy key
          then overrides_of_list rest (Dict.set (str_of key) item out)
          else overrides_of_list rest out
      | _ => overrides_of_list rest out
      end
  end.

Definition _load_overrides (w : world) : dict :=
  match overrides_file w with
  | Missing => []
  | Unparseable => []
  | Holds (JArr raw) => overrides_of_list raw []
  | Holds (JObj raw) => raw
  | Holds _ => []
  end.

(** *** update_incidents *)

(** The local variables of one artifact before the overrides. *)
Record fields : Type := Fields {
  rel : string;
  date : string;
  name : string;
  type_ : string;
  lost : float;
  loss_type : string;
  chain : string
}.

(** The [rd_*_final] variables the README analysis leaves. *)
Record readme : Type := Readme {
  rd_date_final : option string;
  rd_type_final : option string;
  rd_name_final : option string;
  rd_contract_final : option string;
  rd_lost_final : option float;
  rd_loss_type_final : option string
}.

(** The analysis of the README text (section scoring, anchors and
    windows): from the file name, the path, the name, the year and
    month of the folder and the text to the [rd_*_final] variables. *)
Variable readme_analysis :
  string -> string -> string -> option (string * string) -> string -> readme.

Definition nonempty (o : option string) : option string :=
  match o with
  | Some s => if Py.is_empty s then None else Some s
  | None => None
  end.

(** "Apply README-derived fields with priority" *)
Definition apply_readme (f : string) (folder : option (string * string))
           (rd : readme) (v : fields) : fields :=
  let name' := match nonempty (rd_name_final rd) with Some x => x | None => name v end in
  let date' := match nonempty (rd_date_final rd) with Some x => x | None => date v end in
  let type' := match nonempty (rd_type_final rd) with Some x => x | None => type_ v end in
  let lost' := match rd_lost_final rd with Some x => x | None => lost v end in
  let loss_type' :=
    match nonempty (rd_loss_type_final rd) with Some x => x | None => loss_type v end in
  let rel' :=
    match nonempty (rd_contract_final rd) with
    | None => rel v
    | Some c =>
        let cpath := Py.lstrip_chars "./" (Py.replace backslash "/" c) in
        if Py.startswith cpath "src/test/" then cpath
        else
          match folder with
          | Some (folder_y, folder_m) =>
              if Py.endswith (Py.lower cpath) "_exp.sol" && negb (Py.contains "/" cpath)
              then ("src/test/" ++ folder_y ++ "-" ++ folder_m ++ "/" ++ cpath)%string
              else rel v
          | None => rel v
          end
    end in
  Fields rel' date' name' type' lost' loss_type' (chain v).

(** The first README of the folder that reads as a non-empty text. *)
Fixpoint first_readme (w : world) (candidates : list string) : option string :=
  match candidates with
  | [] => None
  | p :: rest =>
      match read_text w p with
      | Some t => if Py.is_empty t then first_readme w rest else Some t
      | None => first_readme w rest
      end
  end.

(** [(\d{4})-(\d{2})] *)
Definition ym_re : regex :=
  (Grp 1 (times 4 digit) ;; Chr "-" ;; Grp 2 (times 2 digit))%re.

Definition folder_of (root : string) : option (string * string) :=
  match re_search false ym_re root with
  | Some m => Some (group_or_empty m 1, group_or_empty m 2)
  | None => None
  end.

(** The body of the [try]: the artifact's own text, then its README. *)
Definition parse_artifact (w : world) (root f : string) : fields :=
  let rel0 := Py.replace "source/" "" (Py.replace backslash "/" (path_join root f)) in
  let folder := folder_of root in
  let date0 :=
    match folder with
    | Some (y, m) => (y ++ m ++ "01")%string
    | None => "00000000"
    end in
  let v0 := Fields rel0 date0 (Py.replace "_exp.sol" "" f) "" 0%float "USD" "Unknown" in
  match read_text w (path_join "source" rel0) with
  | None => v0
  | Some text =>
      let '(lost1, loss_type1) := _parse_loss_and_currency text in
      let v1 := Fields rel0 date0 (name v0) (_parse_type text) lost1 loss_type1
                       (_parse_chain text) in
      let dir := path_join "source" (dirname rel0) in
      match first_readme w [ path_join dir "README.md"; path_join dir "Readme.md";
                             path_join dir "readme.md"; path_join dir "README.MD" ] with
      | None => v1
      | Some readme_text =>
          apply_readme f folder
            (readme_analysis f rel0 (name v0) folder readme_text) v1
      end
  end.

(** The variables after "Apply overrides if any": any JSON value now. *)
Record cand : Type := Cand {
  c_rel : string;
  c_date : json;
  c_name : json;
  c_type : json;
  c_lost : json;
  c_loss_type : json;
  c_chain : json
}.

Definition apply_overrides (overrides : dict) (v : fields) : res cand :=
  let plain := Cand (rel v) (JStr (date v)) (JStr (name v)) (JStr (type_ v))
                    (JFloat (lost v)) (JStr (loss_type v)) (JStr (chain v)) in
  match Dict.get (rel v) overrides with
  | None => Ok plain
  | Some ov =>
      if truthy ov then
        match ov with
        | JObj o =>
            Ok (Cand (rel v)
                     (Dict.get_or "date" (c_date plain) o)
                     (Dict.get_or "name" (c_name plain) o)
                     (Dict.get_or "type" (c_type plain) o)
                     (Dict.get_or "Lost" (c_lost plain) o)
                     (Dict.get_or "lossType"
                        (Dict.get_or "loss_type" (c_loss_type plain) o) o)
                     (Dict.get_or "chain" (c_chain plain) o))
        | _ => Raise AttributeError
        end
      else Ok plain
  end.

Definition digits_and_dots (s : string) : bool :=
  Py.all_digits (Py.replace "." "" s).

(** [float(v)] *)
Definition to_float (v : json) : res float :=
  match v with
  | JFloat f => Ok f
  | JInt z =>
      if (Z.abs z <? 2 ^ 53)%Z then Ok (float_of_Z z) else Raise Unmodelled
  | JBool b => Ok (if b then 1%float else 0%float)
  | JStr s =>
      if digits_and_dots s
      then match py_float s with Some f => Ok f | None => Raise ValueError end
      else Raise Unmodelled
  | JNull | JArr _ | JObj _ => Raise TypeError
  end.

(** [isinstance(lost, (int, float)) and lost != 0.0] *)
Definition nonzero_number (v : json) : bool :=
  match v with
  | JInt z => negb (Z.eqb z 0)
  | JFloat f => negb (PrimFloat.eqb f 0)
  | JBool b => b
  | _ => false
  end.

Definition set_if (cond : bool) (k : string) (v : json) (d : dict) : dict :=
  if cond then Dict.set k v d else d.

(** "If already exists in JSON, update it": the merge onto [item]. *)
Definition merge_item (c : cand) (item : dict) : res dict :=
  let item := set_if (truthy (c_date c)) "date" (c_date c) item in
  let item := set_if (truthy (c_name c)) "name" (c_name c) item in
  let item := set_if (truthy (c_type c)) "type" (c_type c) item in
  do item <-
    (if nonzero_number (c_lost c)
     then do x <- to_float (c_lost c); Ok (Dict.set "Lost" (JFloat x) item)
     else Ok item);
  let item := set_if (truthy (c_loss_type c)) "lossType" (c_loss_type c) item in
  Ok (set_if (truthy (c_chain c)) "chain" (c_chain c) item).

(** "Fresh entry" *)
Definition new_item (f : string) (c : cand) : res dict :=
  do x <- to_float (c_lost c);
  let item :=
    [ ("date", c_date c);
      ("name", if truthy (c_name c) then c_name c else JStr (_pretty_default_name f));
      ("type", c_type c);
      ("Lost", JFloat x);
      ("lossType", c_loss_type c);
      ("Contract", JStr (c_rel c)) ] in
  Ok (set_if (truthy (c_chain c)) "chain" (c_chain c) item).

(** [x.get("Contract") == rel] for a truthy value. *)
Definition has_contract (rel : string) (x : dict) : bool :=
  match Dict.get "Contract" x with
  | Some (JStr c) => String.eqb c rel && negb (Py.is_empty c)
  | _ => false
  end.

(** The index [existing_by_contract[rel]] stands for: the last item of
    the loaded list whose contract is [rel]. *)
Fixpoint last_index (rel : string) (l : list dict) (i : nat) : option nat :=
  match l with
  | [] => None
  | x :: r =>
      match last_index rel r (S i) with
      | Some j => Some j
      | None => if has_contract rel x then Some i else None
      end
  end.

Fixpoint update_at (i : nat) (f : dict -> res dict) (l : list dict)
  : res (list dict) :=
  match l, i with
  | [], _ => Ok []
  | x :: r, O => do y <- f x; Ok (y :: r)
  | x :: r, S k => do r' <- update_at k f r; Ok (x :: r')
  end.

(** The loading loop: every item must answer [.get], and a truthy
    contract must be hashable. *)
Fixpoint check_items (l : list json) : res (list dict) :=
  match l with
  | [] => Ok []
  | JObj d :: r =>
      do _ <- (match Dict.get "Contract" d with
               | Some (JArr (_ :: _)) | Some (JObj (_ :: _)) => Raise TypeError
               | _ => Ok tt
               end);
      do r' <- check_items r; Ok (d :: r')
  | _ :: _ => Raise AttributeError
  end.

Definition load_incidents (w : world) : res (list dict) :=
  match incidents_file w with
  | Missing => Ok []
  | Unparseable => Raise JSONDecodeError
  | Holds (JArr l) => check_items l
  | Holds _ => Raise Unmodelled
  end.

Definition endswith_exp (f : string) : bool := Py.endswith f "_exp.sol".

(** The filter on [start_ym]: [true] when the artifact is skipped. *)
Definition skipped (start_ym : option string) (folder : option (string * string)) : bool :=
  match start_ym, folder with
  | Some s, Some (y, m) => String.ltb (y ++ m)%string s
  | Some _, None => true
  | None, _ => false
  end.

(** From "Apply overrides if any" to the end of the loop body, for the
    variables [v] the parsing left: [loaded] is the list as it was read,
    [incidents] the list as the loop has it now. *)
Definition record_artifact (overrides : dict) (loaded : list dict) (f : string)
           (v : fields) (incidents : list dict) : res (list dict) :=
  do c <- apply_overrides overrides v;
  match last_index (c_rel c) loaded 0 with
  | Some i => update_at i (merge_item c) incidents
  | None => do item <- new_item f c; Ok (incidents ++ [item])
  end.

(** One artifact. *)
Definition step (w : world) (overrides : dict) (start_ym : option string)
           (loaded : list dict) (root f : string) (incidents : list dict)
  : res (list dict) :=
  if negb (endswith_exp f) then Ok incidents
  else if skipped start_ym (folder_of root) then Ok incidents
  else record_artifact overrides loaded f (parse_artifact w root f) incidents.

Fixpoint steps_files (w : world) (overrides : dict) (start_ym : option string)
         (loaded : list dict) (root : string) (files : list string)
         (incidents : list dict) : res (list dict) :=
  match files with
  | [] => Ok incidents
  | f :: rest =>
      do incidents' <- step w overrides start_ym loaded root f incidents;
      steps_files w overrides start_ym loaded root rest incidents'
  end.

Fixpoint steps_walk (w : world) (overrides : dict) (start_ym : option string)
         (loaded : list dict) (dirs : list (string * list string))
         (incidents : list dict) : res (list dict) :=
  match dirs with
  | [] => Ok incidents
  | (root, files) :: rest =>
      do incidents' <- steps_files w overrides start_ym loaded root files incidents;
      steps_walk w overrides start_ym loaded rest incidents'
  end.

(** *** [incidents.sort(key=lambda x: x["date"], reverse=True)] *)

(** [a < b] on sort keys: strings by code point, integers by value;
    other pairings raise or are not described here. *)
Definition key_lt (a b : json) : res bool :=
  match a, b with
  | JStr x, JStr y => Ok (String.ltb x y)
  | JInt x, JInt y => Ok (Z.ltb x y)
  | JStr _, JInt _ | JInt _, JStr _ => Raise TypeError
  | JNull, _ | _, JNull | JObj _, _ | _, JObj _ => Raise TypeError
  | _, _ => Raise Unmodelled
  end.

(** [x] goes in front of the first item whose key is not above its
    own: the order is descending and items of equal key keep their
    order (the sort is stable). *)
Fixpoint insert_desc (x : json * dict) (sorted : list (json * dict))
  : res (list (json * dict)) :=
  match sorted with
  | [] => Ok [x]
  | y :: r =>
      do above <- key_lt (fst x) (fst y);
      if above then do r' <- insert_desc x r; Ok (y :: r')
      else Ok (x :: sorted)
  end.

Fixpoint sort_keyed (l : list (json * dict)) : res (list (json * dict)) :=
  match l with
  | [] => Ok []
  | x :: r => do r' <- sort_keyed r; insert_desc x r'
  end.

(** The keys are taken from every item first. *)
Fixpoint with_keys (l : list dict) : res (list (json * dict)) :=
  match l with
  | [] => Ok []
  | x :: r =>
      match Dict.get "date" x with
      | Some k => do r' <- with_keys r; Ok ((k, x) :: r')
      | None => Raise KeyError
      end
  end.

Definition sort_by_date (l : list dict) : res (list dict) :=
  do keyed <- with_keys l;
  do sorted <- sort_keyed keyed;
  Ok (map snd sorted).

Definition update_incidents (start_ym : option string) (preserve_order : bool)
           (w : world) : res (world * list dict) :=
  let overrides := _load_overrides w in
  let start_ym := _norm_start_ym start_ym in
  do loaded <- load_incidents w;
  do incidents <- steps_walk w overrides start_ym loaded (walk w) loaded;
  do incidents <- (if preserve_order then Ok incidents else sort_by_date incidents);
  Ok (World (walk w) (read_text w) (overrides_file w)
            (Holds (JArr (map JObj incidents))) (rootcause_file w),
      incidents).

(** *** update_rootcause *)

(** [_find_key_by_contract] *)
Fixpoint _find_key_by_contract (url : string) (data : dict) : option string :=
  match data with
  | [] => None
  | (k, v) :: r =>
      match v with
      | JObj d =>
          match Dict.get "Contract" d with
          | Some (JStr c) =>
              if String.eqb c url then Some k else _find_key_by_contract url r
          | _ => _find_key_by_contract url r
          end
      | _ => _find_key_by_contract url r
      end
  end.

(** [len(v)] *)
Definition py_len (v : json) : res nat :=
  match v with
  | JStr s => Ok (String.length s)
  | JArr l => Ok (List.length l)
  | JObj kv => Ok (List.length kv)
  | _ => Raise TypeError
  end.

(** [f"{d[:4]}-{d[4:6]}-{d[6:]}"] *)
Definition hyphenate (d : string) : string :=
  Py.take 4 d ++ "-" ++ Py.take 2 (Py.drop 4 d) ++ "-" ++ Py.drop 6 d.

(** The date of a new or overridden entry: hyphenated when the value
    has length 8, [otherwise] if not. *)
Definition date_of (v : json) (otherwise : res (option string)) : res (option string) :=
  do n <- py_len v;
  if (n =? 8)%nat
  then match v with
       | JStr d => Ok (Some (hyphenate d))
       | _ => Raise Unmodelled
       end
  else otherwise.

(** The dict literal of a new entry. *)
Definition new_entry (inc : dict) (contract_url : string) : res dict :=
  do d <- date_of (Dict.get_or "date" (JStr "") inc) (Ok (Some ""));
  Ok [ ("type", Dict.get_or "type" (JStr "") inc);
       ("date", JStr (match d with Some x => x | None => "" end));
       ("rootCause", JStr "");
       ("images", JArr []);
       ("Lost", JStr (str_of (Dict.get_or "Lost" (JInt 0) inc) ++ " "
                      ++ str_of (Dict.get_or "lossType" (JStr "USD") inc)));
       ("Contract", JStr contract_url) ].

(** [entry[k] = v] *)
Definition entry_set (k : string) (v : json) (entry : json) : res json :=
  match entry with
  | JObj e => Ok (JObj (Dict.set k v e))
  | _ => Raise TypeError
  end.

(** [for u in links if isinstance(u, str)], one line ["- u"] each. *)
Fixpoint ref_lines (links : list json) : list string :=
  match links with
  | [] => []
  | JStr u :: r => ("- " ++ u)%string :: ref_lines r
  | _ :: r => ref_lines r
  end.

(** ["\n".join(lines)] *)
Fixpoint join_lines (lines : list string) : string :=
  match lines with
  | [] => ""
  | [x] => x
  | x :: r => x ++ Py.nl ++ join_lines r
  end.

(** [if ov.get("type"): entry["type"] = ov["type"]] *)
Definition override_type (o : dict) (entry : json) : res json :=
  let t := Dict.get_or "type" JNull o in
  if truthy t then entry_set "type" t entry else Ok entry.

(** [if ov.get("date") and len(ov["date"]) == 8: entry["date"] = ...] *)
Definition override_date (o : dict) (entry : json) : res json :=
  let d := Dict.get_or "date" JNull o in
  if truthy d
  then do h <- date_of d (Ok None);
       match h with
       | Some x => entry_set "date" (JStr x) entry
       | None => Ok entry
       end
  else Ok entry.

(** The lines of the link block, [refs], from [links]. *)
Definition refs_of (links : json) : res string :=
  do us <- match links with
           | JStr u => Ok [JStr u]
           | JArr l => Ok l
           | JObj kv => Ok (map (fun p => JStr (fst p)) kv)
           | _ => Raise TypeError
           end;
  Ok (join_lines (ref_lines us)).

Definition link_block (refs : string) : string :=
  "Link reference(s):" ++ Py.nl ++ refs.

(** "Append link references into rootCause for visibility" *)
Definition override_links (o : dict) (entry : json) : res json :=
  let links := por (Dict.get_or "links" JNull o) (Dict.get_or "references" JNull o) in
  if truthy links then
    do refs <- refs_of links;
    if Py.is_empty refs then Ok entry
    else
      match entry with
      | JObj e =>
          let rc := Dict.get_or "rootCause" JNull e in
          if truthy rc then
            match rc with
            | JStr t =>
                Ok (JObj (Dict.set "rootCause"
                            (JStr (Py.rstrip t ++ Py.nl ++ Py.nl ++ link_block refs)) e))
            | _ => Raise AttributeError
            end
          else Ok (JObj (Dict.set "rootCause" (JStr (link_block refs)) e))
      | _ => Raise AttributeError
      end
  else Ok entry.

(** "Apply overrides to rootcause entry if present", for a truthy [ov]. *)
Definition override_entry (ov : json) (entry : json) : res json :=
  match ov with
  | JObj o =>
      do entry <- override_type o entry;
      do entry <- override_date o entry;
      override_links o entry
  | _ => Raise AttributeError
  end.

(** "If override changed the display name, migrate any existing entry
    with the same contract link": the dict after, and whether it moved. *)
Definition migrate (name contract_url : string) (data : dict) : dict * bool :=
  match _find_key_by_contract contract_url data with
  | Some existing_key =>
      if negb (Py.is_empty existing_key) && negb (String.eqb existing_key name)
      then (Dict.set name (Dict.get_or existing_key JNull data)
                     (Dict.remove existing_key data), true)
      else (data, false)
  | None => (data, false)
  end.

(** The body of the loop over the incidents: the data and the [added]
    flag before and after. *)
Definition rootcause_step (overrides : dict) (inc : dict) (st : dict * bool)
  : res (dict * bool) :=
  let '(data, added) := st in
  do name <- match Dict.get "name" inc with
             | Some (JStr n) => Ok n
             | Some _ => Raise Unmodelled
             | None => Raise KeyError
             end;
  do contract <- match Dict.get "Contract" inc with
                 | Some c => Ok c
                 | None => Raise KeyError
                 end;
  let contract_url := (GITHUB_BASE ++ str_of contract)%string in
  let '(data, moved) := migrate name contract_url data in
  let added := added || moved in
  do st <- (if Dict.has name data then Ok (data, added)
            else do e <- new_entry inc contract_url;
                 Ok (Dict.set name (JObj e) data, true));
  let '(data, added) := st in
  do ov <- match contract with
           | JStr c => Ok (Dict.get_or c JNull overrides)
           | JArr _ | JObj _ => Raise TypeError
           | _ => Ok JNull
           end;
  if truthy ov
  then do entry <- override_entry ov (Dict.get_or name JNull data);
       Ok (Dict.set name entry data, added)
  else Ok (data, added).

Fixpoint rootcause_loop (overrides : dict) (incidents : list dict)
         (st : dict * bool) : res (dict * bool) :=
  match incidents with
  | [] => Ok st
  | inc :: rest =>
      do st' <- rootcause_step overrides inc st;
      rootcause_loop overrides rest st'
  end.

Definition load_rootcause (w : world) : res dict :=
  match rootcause_file w with
  | Missing => Ok []
  | Unparseable => Raise JSONDecodeError
  | Holds (JObj d) => Ok d
  | Holds _ => Raise Unmodelled
  end.

(** The world after the run and the value returned, [added]. *)
Definition update_rootcause (incidents : list dict) (w : world)
  : res (world * bool) :=
  let overrides := _load_overrides w in
  do data <- load_rootcause w;
  do st <- rootcause_loop overrides incidents (data, false);
  let '(data, added) := st in
  Ok (if added
      then World (walk w) (read_text w) (overrides_file w) (incidents_file w)
                 (Holds (JObj data))
      else w,
      added).

(** [main], with the two arguments of the command line. *)
Definition main (start_ym : option string) (preserve_order : bool) (w : world)
  : res world :=
  do r <- update_incidents start_ym preserve_order w;
  let '(w1, incidents) := r in
  do r2 <- update_rootcause incidents w1;
  Ok (fst r2).

End Library.

End UpdateData.

(** ** parse_diff_and_update.py *)

Module ParseDiff.
Import Re.

(** The characters [str.splitlines] breaks at: LF, VT, FF, CR, FS, GS, RS. *)
Definition is_linebreak (c : ascii) : bool :=
  Py.between 10 13 c || Py.between 28 30 c.

(** [s.splitlines()]; CR LF is one break. [cur] is the line so far,
    reversed. *)
Fixpoint splitlines_from (cur : string) (s : string) : list string :=
  match s with
  | EmptyString => if Py.is_empty cur then [] else [Py.rev_s "" cur]
  | String a r =>
      if is_linebreak a then
        Py.rev_s "" cur ::
          match r with
          | String b r' =>
              if Ascii.eqb a Py.CR && Ascii.eqb b Py.LF
              then splitlines_from "" r'
              else splitlines_from "" r
          | EmptyString => splitlines_from "" r
          end
      else splitlines_from (String a cur) r
  end.

Definition splitlines (s : string) : list string := splitlines_from "" s.

(** The added lines of the diff, without the [+] and stripped. *)
Definition added_lines (diff_output : string) : list string :=
  map (fun line => Py.strip (Py.drop 1 line))
      (filter (fun line => Py.startswith line "+" && negb (Py.startswith line "+++"))
              (splitlines diff_output)).

(** [^\d{8}\s+\w+] *)
Definition head_re : regex := (Bol ;; times 8 digit ;; plus ws ;; plus word)%re.

(** The grouping loop: [block] is the open block, in order. *)
Fixpoint group_blocks (lines : list string) (block : list string)
  : list (list string) :=
  match lines with
  | [] => match block with [] => [] | _ => [block] end
  | line :: rest =>
      if found (re_match false head_re line)
         && match block with [] => false | _ => true end
      then block :: group_blocks rest [line]
      else group_blocks rest (block ++ [line])
  end.

(** [^(\d{8})\s+(\w+)\s*-\s*(.+)$] *)
Definition date_re : regex :=
  (Bol ;; Grp 1 (times 8 digit) ;; plus ws ;; Grp 2 (plus word) ;; star ws
   ;; Chr "-" ;; star ws ;; Grp 3 (plus Dot) ;; Eol)%re.

(** [Lost:\s*([\d,.]+)\s*([A-Z]{2,5})] *)
Definition lost_re : regex :=
  (lit "Lost:" ;; star ws
   ;; Grp 1 (plus (Cls (fun c => Py.is_digit c || Py.mem_char c ",.")))
   ;; star ws ;; Grp 2 (range 2 3 (Cls Py.is_upper)))%re.

(** [(src/[^\s]+\.sol)] *)
Definition path_re : regex :=
  (Grp 1 (lit "src/" ;; plus (Cls (fun c => negb (Py.is_space c))) ;; lit ".sol"))%re.

(** [" ".join(block)] *)
Fixpoint join_spaces (block : list string) : string :=
  match block with
  | [] => ""
  | [x] => x
  | x :: r => x ++ " " ++ join_spaces r
  end.

(** The body of the loop over the blocks: the incident of a block, or
    [None] when the block is passed over ([continue], or an exception
    caught by the [except]). *)
Definition parse_block (block : list string) : option dict :=
  if (List.length block <? 3)%nat then None
  else
    match block with
    | [] => None
    | date_line :: _ =>
        match find (fun l => Py.startswith (Py.lower l) "lost:") block with
        | None => None
        | Some lost_line =>
            let contract_line :=
              match find (fun l => Py.endswith l ".sol") block with
              | Some l => l
              | None => ""
              end in
            match re_match false date_re date_line with
            | None => None
            | Some dm =>
                let raw_type := Py.strip (group_or_empty dm 3) in
                let attack_type := NormalizeAttack.normalize_attack_type raw_type in
                match re_match false lost_re lost_line with
                | None => None
                | Some lm =>
                    match UpdateData.py_float (Py.replace "," "" (group_or_empty lm 1)) with
                    | None => None
                    | Some lost =>
                        let contract_path :=
                          match re_search false path_re (join_spaces block) with
                          | Some pm => group_or_empty pm 1
                          | None => Py.strip contract_line
                          end in
                        Some [ ("date", JStr (group_or_empty dm 1));
                               ("name", JStr (group_or_empty dm 2));
                               ("type", JStr attack_type);
                               ("Lost", JFloat lost);
                               ("lossType", JStr (group_or_empty lm 2));
                               ("Contract", JStr contract_path) ]
                    end
                end
            end
        end
    end.

(** *** [json.dumps(v, sort_keys=True)] as a key

    Two values are written as the same text exactly when they are equal
    once the keys of every object are put in order. *)

Fixpoint insert_key (p : string * json) (sorted : list (string * json))
  : list (string * json) :=
  match sorted with
  | [] => [p]
  | q :: r => if String.leb (fst p) (fst q) then p :: sorted else q :: insert_key p r
  end.

Fixpoint sort_keys (j : json) : json :=
  match j with
  | JArr l => JArr (map sort_keys l)
  | JObj kv =>
      JObj (fold_right insert_key []
              (map (fun p : string * json => (fst p, sort_keys (snd p))) kv))
  | _ => j
  end.

Fixpoint json_eqb (a b : json) : bool :=
  match a, b with
  | JNull, JNull => true
  | JBool x, JBool y => Bool.eqb x y
  | JInt x, JInt y => Z.eqb x y
  | JFloat x, JFloat y => PrimFloat.Leibniz.eqb x y
  | JStr x, JStr y => String.eqb x y
  | JArr l1, JArr l2 =>
      (fix go (l1 l2 : list json) : bool :=
         match l1, l2 with
         | [], [] => true
         | x :: r1, y :: r2 => json_eqb x y && go r1 r2
         | _, _ => false
         end) l1 l2
  | JObj d1, JObj d2 =>
      (fix go (d1 d2 : list (string * json)) : bool :=
         match d1, d2 with
         | [], [] => true
         | (k1, x) :: r1, (k2, y) :: r2 => String.eqb k1 k2 && json_eqb x y && go r1 r2
         | _, _ => false
         end) d1 d2
  | _, _ => false
  end.

(** [json.dumps(a, sort_keys=True) == json.dumps(b, sort_keys=True)] *)
Definition same_dump (a b : json) : bool := json_eqb (sort_keys a) (sort_keys b).

(** [key in existing_set] *)
Definition known (existing : list json) (incident : dict) : bool :=
  existsb (same_dump (JObj incident)) existing.

(** The loop over the blocks: the list, and the count of new entries.
    [existing] is the list as it was loaded: the set is built once. *)
Fixpoint add_blocks (existing : list json) (blocks : list (list string))
         (incidents : list json) (new_entries : nat) : list json * nat :=
  match blocks with
  | [] => (incidents, new_entries)
  | block :: rest =>
      match parse_block block with
      | Some incident =>
          if known existing incident
          then add_blocks existing rest incidents new_entries
          else add_blocks existing rest (incidents ++ [JObj incident]) (S new_entries)
      | None => add_blocks existing rest incidents new_entries
      end
  end.

(** The script from the diff on: what [incidents.json] holds after. *)
Definition run (diff_output : string) (incidents_file : file) : res file :=
  let blocks := group_blocks (added_lines diff_output) [] in
  do incidents <- match incidents_file with
                  | Missing => Ok []
                  | Unparseable => Raise JSONDecodeError
                  | Holds (JArr l) => Ok l
                  | Holds _ => Raise Unmodelled
                  end;
  let '(incidents', new_entries) := add_blocks incidents blocks incidents 0 in
  Ok (match new_entries with
      | O => incidents_file
      | S _ => Holds (JArr incidents')
      end).

End ParseDiff.

(** ** build_rootcause_from_md.py: the merge with the stored file *)

Module BuildRootcause.

(** [^\d{4}-\d{2}-\d{2}$] for [sep] a hyphen, [^\d{4}\.\d{2}\.\d{2}$] for a dot. *)
Definition date_re (sep : ascii) : Re.regex :=
  Re.Cat Re.Bol
    (Re.Cat (Re.times 4 Re.digit)
       (Re.Cat (Re.Chr sep)
          (Re.Cat (Re.times 2 Re.digit)
             (Re.Cat (Re.Chr sep)
                (Re.Cat (Re.times 2 Re.digit) Re.Eol))))).

(** [s.split(sep)] for a separator of one character; [cur] is the part so
    far, reversed. *)
Fixpoint split_from (sep : ascii) (cur : string) (s : string) : list string :=
  match s with
  | EmptyString => [Py.rev_s "" cur]
  | String a r =>
      if Ascii.eqb a sep then Py.rev_s "" cur :: split_from sep "" r
      else split_from sep (String a cur) r
  end.

Definition split (sep : ascii) (s : string) : list string := split_from sep "" s.

(** [_format_date]; [None] stands for the IndexError of [parts[i]]. *)
Definition _format_date (date_str : string) : option string :=
  if Py.is_empty date_str then Some ""
  else
    let s := Py.strip date_str in
    if (String.length s =? 8)%nat && Py.all_digits s
    then Some (Py.take 4 s ++ "-" ++ Py.take 2 (Py.drop 4 s) ++ "-"
               ++ Py.take 2 (Py.drop 6 s))%string
    else if Re.found (Re.re_match false (date_re "-") s) then Some s
    else if Re.found (Re.re_match false (date_re ".") s)
    then match split "." s with
         | p0 :: p1 :: p2 :: _ => Some (p0 ++ "-" ++ p1 ++ "-" ++ p2)%string
         | _ => None
         end
    else Some s.

(** The loop over the five scalar fields. *)
Fixpoint merge_fields (fields : list string) (v out : dict) : dict :=
  match fields with
  | [] => out
  | field :: rest =>
      let out' :=
        match Dict.get field v with
        | Some (JStr nv) =>
            if negb (Py.is_empty nv) && negb (Py.is_empty (Py.strip nv))
            then Dict.set field (JStr nv) out else out
        | Some JNull | None => out
        | Some nv => Dict.set field nv out
        end in
      merge_fields rest v out'
  end.

(** [list(dict.fromkeys(a + b))]: the first occurrence of each value. *)
Fixpoint unique_from (seen : list json) (l : list json) : list json :=
  match l with
  | [] => []
  | x :: r =>
      if existsb (ParseDiff.json_eqb x) seen then unique_from seen r
      else x :: unique_from (x :: seen) r
  end.

(** [prev.get("images") or []] read as a list. *)
Definition images_of (d : dict) : res (list json) :=
  match Dict.get "images" d with
  | Some (JArr l) => Ok l
  | Some v => if truthy v then Raise Unmodelled else Ok []
  | None => Ok []
  end.

(** The body of the loop over [new_data.items()]. *)
Definition merge_entry (k : string) (v : json) (merged : dict) : res dict :=
  match v with
  | JObj nv =>
      do prev <- match Dict.get k merged with
                 | Some (JObj p) => Ok p
                 | None => Ok []
                 | Some _ => Raise Unmodelled
                 end;
      let out := merge_fields ["type"; "date"; "rootCause"; "Lost"; "POC"] nv prev in
      do out <- (if Dict.has "images" nv
                 then do a <- images_of prev;
                      do b <- images_of nv;
                      Ok (Dict.set "images" (JArr (unique_from [] (a ++ b))) out)
                 else Ok out);
      Ok (Dict.set k (JObj out) merged)
  | _ => Raise AttributeError
  end.

Fixpoint merge_all (new_data : dict) (merged : dict) : res dict :=
  match new_data with
  | [] => Ok merged
  | (k, v) :: rest => do merged' <- merge_entry k v merged; merge_all rest merged'
  end.

(** [merge_existing]: a stored file that cannot be read counts as empty. *)
Definition merge_existing (new_data : dict) (out_file : file) : res dict :=
  match out_file with
  | Missing => Ok new_data
  | Unparseable => merge_all new_data []
  | Holds (JObj existing) => merge_all new_data existing
  | Holds _ => Raise Unmodelled
  end.

End BuildRootcause.

(** ** Scenarios: concrete phrases, files and worlds *)

Module Scenarios.
Import UpdateData.

(** The integer a float is, if it is one. *)
Definition float_to_Z (f : float) : option Z :=
  match Prim2SF f with
  | S754_zero _ => Some 0%Z
  | S754_finite s m e =>
      let magnitude :=
        if (0 <=? e)%Z then Some (Z.pos m * 2 ^ e)%Z
        else if (Z.pos m mod 2 ^ (- e) =? 0)%Z then Some (Z.pos m / 2 ^ (- e))%Z
        else None in
      match magnitude with
      | Some z => Some (if s then (- z)%Z else z)
      | None => None
      end
  | _ => None
  end.

(** Python's [str] on the values the scenarios print: [None], the
    booleans, the integers and the floats that are whole numbers below
    10^16. It stands for the library function in the runs below; no run
    prints any other value. *)
Definition py_str (v : json) : string :=
  match v with
  | JNull => "None"
  | JBool b => if b then "True" else "False"
  | JInt z => NilZero.string_of_int (Z.to_int z)
  | JFloat f =>
      match float_to_Z f with
      | Some z =>
          if (Z.abs z <? 10 ^ 16)%Z
          then NilZero.string_of_int (Z.to_int z) ++ ".0" else ""
      | None => ""
      end
  | JStr x => x
  | JArr _ | JObj _ => ""
  end.

(** A README analysis that finds nothing; no scenario below has a README. *)
Definition no_readme (f rel name : string) (folder : option (string * string))
           (readme_text : string) : readme :=
  Readme None None None None None None.

(** The artifact of the end-to-end scenario, line by line. *)
Definition foo_text : string :=
  "@Type: Price Manipulation" ++ Py.nl ++
  "Total Lost: 1.2M USD" ++ Py.nl ++
  "createSelectFork(" ++ Py.dquote ++ "arbitrum" ++ Py.dquote ++ ")" ++ Py.nl.

(** A source tree with that artifact alone under [2025-07], no README
    beside it, and none of the three JSON files. *)
Definition foo_world : world :=
  World [("source/src/test/2025-07", ["foo_exp.sol"])]
        (fun path =>
           if String.eqb path "source/src/test/2025-07/foo_exp.sol"
           then Some foo_text else None)
        Missing Missing Missing.

(** The record the run writes for it. *)
Definition foo_record : dict :=
  [ ("date", JStr "20250701"); ("name", JStr "foo");
    ("type", JStr "Price Manipulation"); ("Lost", JFloat 1);
    ("lossType", JStr "USD");
    ("Contract", JStr "src/test/2025-07/foo_exp.sol");
    ("chain", JStr "Arbitrum") ].

(** The patterns of the table that come before the reentrancy ones. *)
Definition before_reentrancy : list (string * string) :=
  firstn 41 NormalizeAttack.ATTACK_TYPE_MAPPING.

(** No pattern of [table] is found in [attack_type]. *)
Definition no_hit (table : list (string * string)) (attack_type : string) : bool :=
  forallb (fun pl => negb (NormalizeAttack.hits (fst pl) attack_type)) table.




(** The contract link an entry of the root-cause data carries, if any. *)
Definition contract_of (v : json) : option string :=
  match v with
  | JObj d =>
      match Dict.get "Contract" d with
      | Some (JStr c) => Some c
      | _ => None
      end
  | _ => None
  end.

(** The keys of the root-cause data, each with the link of its entry. *)
Definition links (data : dict) : list (string * option string) :=
  map (fun p => (fst p, contract_of (snd p))) data.

(** Nothing to create and nothing to move for [inc]: its name is a key
    of the data, and its contract link is under that key, under the empty
    key, or nowhere. *)
Definition settled (py_str : json -> string) (data : dict) (inc : dict) : bool :=
  match Dict.get "name" inc, Dict.get "Contract" inc with
  | Some (JStr name), Some contract =>
      Dict.has name data &&
      match _find_key_by_contract (GITHUB_BASE ++ str_of py_str contract) data with
      | Some k => Py.is_empty k || String.eqb k name
      | None => true
      end
  | _, _ => false
  end.

(** A root-cause file that has the entry of [foo] already, and an
    override for [foo] with a type and a link. *)
Definition foo_url : string :=
  GITHUB_BASE ++ "src/test/2025-07/foo_exp.sol".

Definition foo_entry : dict :=
  [ ("type", JStr "Price Manipulation"); ("date", JStr "2025-07-01");
    ("rootCause", JStr "The pool price was read in the same block.");
    ("images", JArr []); ("Lost", JStr "1.0 USD");
    ("Contract", JStr foo_url) ].

Definition foo_override : json :=
  JObj [ ("src/test/2025-07/foo_exp.sol",
          JObj [ ("type", JStr "Oracle"); ("links", JArr [JStr "https://example.org/post"]) ]) ].

Definition foo_known_world : world :=
  World [] (fun _ => None) (Holds foo_override)
        (Holds (JArr [JObj foo_record])) (Holds (JObj [("foo", JObj foo_entry)])).

(** The contract paths a catalog carries: the truthy string values under
    "Contract", which is what [existing_contracts] collects. *)
Definition contract_path (x : dict) : list string :=
  match Dict.get "Contract" x with
  | Some (JStr c) => if Py.is_empty c then [] else [c]
  | _ => []
  end.

Definition contracts (l : list dict) : list string := flat_map contract_path l.

(** The directories of the walk, file by file. *)
Definition walked (dirs : list (string * list string)) : list (string * string) :=
  flat_map (fun d => map (pair (fst d)) (snd d)) dirs.

(** The loop of update_incidents over the files of the walk. *)
Fixpoint steps (readme_analysis : string -> string -> string ->
                                  option (string * string) -> string -> readme)
         (w : world) (overrides : dict) (start_ym : option string)
         (loaded : list dict) (arts : list (string * string))
         (incidents : list dict) : res (list dict) :=
  match arts with
  | [] => Ok incidents
  | a :: rest =>
      do incidents' <- step readme_analysis w overrides start_ym loaded
                            (fst a) (snd a) incidents;
      steps readme_analysis w overrides start_ym loaded rest incidents'
  end.

(** A diff of the changelog that adds the entry of [foo]. *)
Definition foo_diff : string :=
  "+++ b/README.md" ++ Py.nl ++
  "+20250701 foo - Price Manipulation" ++ Py.nl ++
  "+Lost: 1200000 USD" ++ Py.nl ++
  "+forge test --contracts ./src/test/2025-07/foo_exp.sol -vvv" ++ Py.nl.

Definition foo_from_diff : dict :=
  [ ("date", JStr "20250701"); ("name", JStr "foo");
    ("type", JStr "Price Manipulation"); ("Lost", JFloat 1200000);
    ("lossType", JStr "USD");
    ("Contract", JStr "src/test/2025-07/foo_exp.sol") ].

(** The entry [v] carries the contract link [url]. *)
Definition carries (url : string) (v : json) : bool :=
  match contract_of v with
  | Some c => String.eqb c url
  | None => false
  end.

(** The entries of the root-cause data with the contract link [url]. *)
Definition entries_with (url : string) (data : dict) : dict :=
  filter (fun p => carries url (snd p)) data.









(** A project attacked twice. The catalog has the June incident under
    the name "A", with its root-cause entry; a July artifact of the same
    file name appears, and an override renames the June incident. *)
Definition june_path : string := "src/test/2025-06/A_exp.sol".
Definition july_path : string := "src/test/2025-07/A_exp.sol".

Definition june_record : dict :=
  [ ("date", JStr "20250610"); ("name", JStr "A"); ("type", JStr "Reentrancy");
    ("Lost", JFloat 5000); ("lossType", JStr "USD");
    ("Contract", JStr june_path); ("chain", JStr "Ethereum") ].

Definition june_entry : dict :=
  [ ("type", JStr "Reentrancy"); ("date", JStr "2025-06-10");
    ("rootCause", JStr "The callback re-entered withdraw.");
    ("images", JArr []); ("Lost", JStr "5000.0 USD");
    ("Contract", JStr (GITHUB_BASE ++ june_path)) ].

Definition twice_world : world :=
  World [ ("source/src/test/2025-06", ["A_exp.sol"]);
          ("source/src/test/2025-07", ["A_exp.sol"]) ]
        (fun path =>
           if String.eqb path "source/src/test/2025-06/A_exp.sol"
              || String.eqb path "source/src/test/2025-07/A_exp.sol"
           then Some "contract A {}" else None)
        (Holds (JObj [ (june_path, JObj [ ("name", JStr "A (June)") ]) ]))
        (Holds (JArr [JObj june_record]))
        (Holds (JObj [ ("A", JObj june_entry) ])).

(** A source tree in which the month folder has a subfolder named
    [source]. The two artifacts get one contract path, since
    [.replace("source/", "")] removes every occurrence, and both are read
    from the file of the first. No JSON file is there yet. *)
Definition twin_world : world :=
  World [ ("source/src/test/2025-07", ["foo_exp.sol"]);
          ("source/src/test/2025-07/source", ["foo_exp.sol"]) ]
        (fun path =>
           if String.eqb path "source/src/test/2025-07/foo_exp.sol"
           then Some foo_text else None)
        Missing Missing Missing.










(** The root-cause data of a world, [] when the file holds none. *)
Definition rootcause_data (w : world) : dict :=
  match rootcause_file w with
  | Holds (JObj d) => d
  | _ => []
  end.

End Scenarios.

(** ** Shapes: the predicates the statements below are written with *)

Module Shapes.

(** [all(p(c) for c in s)] *)
Fixpoint all_chars (p : ascii -> bool) (s : string) : bool :=
  match s with
  | EmptyString => true
  | String a r => p a && all_chars p r
  end.

(** The text is ASCII: every code point is below 128. *)
Definition ascii_only (s : string) : bool :=
  all_chars (fun c => (Py.code c <? 128)%nat) s.

(** The characters a pattern can consume. *)
Fixpoint allows (ic : bool) (r : Re.regex) (a : ascii) : bool :=
  match r with
  | Re.Chr c => Re.chr_ok ic c a
  | Re.Cls p => p a
  | Re.Cat r1 r2 | Re.Alt r1 r2 => allows ic r1 a || allows ic r2 a
  | Re.Star _ r1 | Re.Grp _ r1 => allows ic r1 a
  | _ => false
  end.

(** The last character of [p] is a dot. *)
Fixpoint last_dot (p : string) : bool :=
  match p with
  | EmptyString => false
  | String a EmptyString => Ascii.eqb a "."
  | String _ r => last_dot r
  end.

(** [c == c.lower()] *)
Definition low (a : ascii) : bool := Ascii.eqb (Py.lower_c a) a.

(** [c == c.upper()] *)
Definition up (a : ascii) : bool := Ascii.eqb (Py.upper_c a) a.

(** The date of eight digits written with [sep] after the year and after
    the month. *)
Definition spelled (sep : ascii) (a1 a2 a3 a4 b1 b2 c1 c2 : ascii) (tail : string)
  : string :=
  String a1 (String a2 (String a3 (String a4 (String sep
    (String b1 (String b2 (String sep (String c1 (String c2 tail))))))))).

Definition digits (l : list ascii) : bool := forallb Py.is_digit l.

(** The text has no blank. *)
Definition no_blank (s : string) : bool :=
  all_chars (fun c => negb (Py.is_space c)) s.

(** A hyphen or a dot, the class of [re.split(r"[-.]", ...)]. *)
Definition is_sep (c : ascii) : bool := Py.mem_char c "-.".

(** The parts written one after the other. *)
Definition join (parts : list string) : string := fold_right String.append "" parts.

(** The line opens an entry of the changelog: [re.match(r"^\d{8}\s+\w+", line)]. *)
Definition is_head (line : string) : bool :=
  Re.found (Re.re_match false ParseDiff.head_re line).

(** A block that starts with a head line. *)
Definition headed (block : list string) : bool :=
  match block with
  | line :: _ => is_head line
  | [] => false
  end.

(** [merged.get(k, {})] *)
Definition stored (k : string) (merged : dict) : dict :=
  match Dict.get k merged with
  | Some (JObj p) => p
  | _ => []
  end.

(** [d.get("images") or []] *)
Definition images (d : dict) : list json :=
  match Dict.get "images" d with
  | Some (JArr l) => l
  | _ => []
  end.

(** Every value of the list is a text: on texts [dict.fromkeys] tells
    two values apart exactly when they differ. *)
Definition texts (l : list json) : bool :=
  forallb (fun x => match x with JStr _ => true | _ => false end) l.

(** What the merge leaves in a scalar field: the new value when it is a
    string that is not blank, or a value that is neither a string nor
    None; the stored value otherwise. *)
Definition merged_field (new_value old_value : option json) : option json :=
  match new_value with
  | Some (JStr x) => if Py.is_empty (Py.strip x) then old_value else Some (JStr x)
  | Some JNull | None => old_value
  | Some v => Some v
  end.


Import UpdateData.

(** The key under which [_load_overrides] files an item of the list form,
    if it files it. *)
Definition override_key (py_str : json -> string) (item : json) : option string :=
  match item with
  | JObj d =>
      let key := por (Dict.get_or "contract" JNull d) (Dict.get_or "Contract" JNull d) in
      if truthy key then Some (str_of py_str key) else None
  | _ => None
  end.

Definition names (py_str : json -> string) (k : string) (item : json) : bool :=
  match override_key py_str item with
  | Some k' => String.eqb k k'
  | None => false
  end.

(** The date of [x] is not below the date of [y]. *)
Definition not_below (x y : dict) : Prop :=
  exists a b,
    Dict.get "date" x = Some a /\ Dict.get "date" y = Some b /\ key_lt a b = Ok false.

(** The same on the pairs of a sort key and its record. *)
Definition key_not_below (x y : json * dict) : Prop :=
  key_lt (fst x) (fst y) = Ok false.

(** [contract_url] of an incident. *)
Definition link_of (py_str : json -> string) (inc : dict) : string :=
  (GITHUB_BASE ++ str_of py_str (Dict.get_or "Contract" JNull inc))%string.

(** The incident has another name than [k] and another link than the
    entry [v]. *)
Definition apart (py_str : json -> string) (k : string) (v : json) (inc : dict) : bool :=
  negb (ParseDiff.json_eqb (Dict.get_or "name" JNull inc) (JStr k))
  && negb (Scenarios.carries (link_of py_str inc) v).

(** No entry of the data carries the link of the incident. *)
Definition unlinked (py_str : json -> string) (data : dict) (inc : dict) : bool :=
  match Scenarios.entries_with (link_of py_str inc) data with
  | [] => true
  | _ => false
  end.

(** The name of the incident is a key of the data. *)
Definition has_entry (data : dict) (inc : dict) : bool :=
  match Dict.get "name" inc with
  | Some (JStr n) => Dict.has n data
  | _ => false
  end.

End Shapes.

(** * Facts *)

(** ** Floats and values *)

Lemma float_neq (a b : float) :
  PrimFloat.Leibniz.eqb a a = true -> PrimFloat.Leibniz.eqb a b = false -> a <> b.
Proof. intros R H E. subst b. congruence. Qed.

Ltac floats_differ := apply float_neq; vm_compute; reflexivity.

Lemma JFloat_neq (a b : float) : a <> b -> JFloat a <> JFloat b.
Proof. intros N E. apply N. exact (f_equal float_in E). Qed.

(** ** The matcher and its continuation *)

Section Engine.

Variable ic : bool.
Variable R : Type.

(** A match of [r] followed by [k] is a call of [k] on captures that
    differ from the given ones on the groups of [r] only. *)
Lemma run_keeps (r : Re.regex) :
  forall k pos s c x,
    Re.run ic R r k pos s c = Some x ->
    exists pos' s' c',
      k pos' s' c' = Some x /\
      forall i, ~ In i (Re.groups r) -> Re.cap_get i c' = Re.cap_get i c.
Proof.
  induction r as [| a | p | r1 IH1 r2 IH2 | r1 IH1 r2 IH2 | g r1 IH1 | j r1 IH1 | |];
    intros k pos s c x H; cbn [Re.run Re.groups] in *.
  - now exists pos, s, c.
  - destruct s as [|b s']; [discriminate|].
    destruct (Re.chr_ok ic a b); [|discriminate]. now exists (S pos), s', c.
  - destruct s as [|b s']; [discriminate|].
    destruct (p b); [|discriminate]. now exists (S pos), s', c.
  - apply IH1 in H as (p1 & s1 & c1 & H & K1).
    apply IH2 in H as (p2 & s2 & c2 & H & K2).
    exists p2, s2, c2. split; [assumption|].
    intros i N. rewrite K2, K1; [reflexivity| |]; intro I; apply N, in_app_iff; auto.
  - destruct (Re.run ic R r1 k pos s c) as [y|] eqn:E.
    + injection H as ->. apply IH1 in E as (p1 & s1 & c1 & H & K1).
      exists p1, s1, c1. split; [assumption|].
      intros i N. apply K1. intro I. apply N, in_app_iff. auto.
    + apply IH2 in H as (p1 & s1 & c1 & H & K1).
      exists p1, s1, c1. split; [assumption|].
      intros i N. apply K1. intro I. apply N, in_app_iff. auto.
  - revert H. generalize (S (String.length s)) as fuel. intro fuel. revert pos s c.
    induction fuel as [|fuel IHf]; intros pos s c H; cbn [Re.loop] in H.
    + exists pos, s, c. split; [|reflexivity]. revert H.
      destruct g; [trivial|]. destruct (k pos s c); trivial.
    + assert (Cases : k pos s c = Some x \/
                exists p1 s1 c1,
                  (if (pos <? p1)%nat
                   then Re.loop R g (Re.run ic R r1) k fuel p1 s1 c1
                   else None) = Some x /\
                  forall i, ~ In i (Re.groups r1) -> Re.cap_get i c1 = Re.cap_get i c).
      { revert H. cbv zeta. destruct g.
        - match goal with
          | |- match ?m with _ => _ end = _ -> _ => destruct m as [z|] eqn:M
          end; intro H; [right|left; assumption].
          injection H as ->. now apply IH1 in M.
        - destruct (k pos s c) as [z|]; intro H; [left; assumption|right].
          now apply IH1 in H. }
      clear H. destruct Cases as [K|(p1 & s1 & c1 & M & K1)].
      * now exists pos, s, c.
      * destruct (pos <? p1)%nat; [|discriminate].
        apply IHf in M as (p2 & s2 & c2 & M & K2).
        exists p2, s2, c2. split; [assumption|].
        intros i N. now rewrite K2, K1.
  - apply IH1 in H as (p1 & s1 & c1 & H & K1).
    exists p1, s1, ((j, (pos, p1)) :: c1). split; [assumption|].
    intros i N. cbn [Re.cap_get].
    destruct (Nat.eqb_spec i j) as [->|D]; [exfalso; apply N; now left|].
    apply K1. intro I. apply N. now right.
  - destruct (pos =? 0)%nat; [|discriminate]. now exists pos, s, c.
  - destruct s as [|b [|? ?]]; try discriminate.
    + now exists pos, "", c.
    + destruct (Ascii.eqb b Py.LF); [|discriminate]. now exists pos, (String b ""), c.
Qed.

(** A pattern that never fails hands over to its continuation. *)
Lemma run_total (r : Re.regex) :
  Re.never_fails r = true ->
  forall k, (forall pos s c, k pos s c <> None) ->
  forall pos s c, Re.run ic R r k pos s c <> None.
Proof.
  induction r as [| a | p | r1 IH1 r2 IH2 | r1 IH1 r2 IH2 | g r1 IH1 | j r1 IH1 | |];
    intros NF k T pos s c; cbn [Re.run Re.never_fails] in *; try discriminate.
  - apply T.
  - apply andb_true_iff in NF as [N1 N2]. apply IH1; [assumption|].
    intros pos' s' c'. now apply IH2.
  - destruct (Re.run ic R r1 k pos s c) eqn:E; [discriminate|].
    apply orb_true_iff in NF as [N1|N2].
    + exfalso. now apply (IH1 N1 k T pos s c).
    + now apply IH2.
  - cbn [Re.loop]. cbv zeta. destruct g.
    + match goal with
      | |- match ?m with _ => _ end <> _ => destruct m
      end; [discriminate|apply T].
    + specialize (T pos s c). destruct (k pos s c); [discriminate|congruence].
  - apply IH1; [assumption|]. intros pos' s' c'. apply T.
Qed.

End Engine.

(** ** The compact-number parser *)

Section LossPattern.

Import Re UpdateData.

Lemma groups_upto (n : nat) (p : ascii -> bool) : groups (upto n (Cls p)) = [].
Proof. induction n as [|n IH]; [reflexivity|]. cbn. now rewrite IH. Qed.

Lemma loss_unit_groups (n : nat) : ~ In 1 (groups (loss_unit n)).
Proof.
  unfold loss_unit. cbn [groups star opt oneof ws app]. rewrite groups_upto.
  cbn. intros [E|[E|[]]]; discriminate.
Qed.

Lemma loss_unit_never_fails (n : nat) : never_fails (loss_unit n) = true.
Proof.
  unfold loss_unit. cbn [never_fails star opt oneof ws andb orb].
  now rewrite orb_true_r.
Qed.

(** Whatever follows the first digit, the number group ends after it: the
    lazy repetition hands over first, and what comes next never fails. *)
Lemma loss_number_one_digit (n : nat) (whole : string) (pos0 : nat) :
  forall pos s c m,
    run true mobj (loss_number ;; loss_unit n)
        (fun e _ c' => Some (MObj whole pos0 e c')) pos s c = Some m ->
    cap_get 1 (m_caps m) = Some (pos, S pos).
Proof.
  intros pos s c m H. unfold loss_number, digit in H. cbn [run] in H.
  destruct s as [|b s']; [discriminate|].
  destruct (Py.is_digit b); [|discriminate].
  cbn [loop] in H. cbv zeta in H.
  destruct (run true mobj (loss_unit n)
              (fun e _ c' => Some (MObj whole pos0 e c'))
              (S pos) s' ((1, (pos, S pos)) :: c)) as [y|] eqn:E.
  - apply run_keeps in E as (p1 & s1 & c1 & K & Keep).
    injection K as <-. injection H as <-. cbn [m_caps].
    rewrite (Keep 1 (loss_unit_groups n)). reflexivity.
  - exfalso. revert E. apply run_total; [apply loss_unit_never_fails|].
    discriminate.
Qed.

Lemma loss_match_one_digit (n : nat) (whole : string) (pos : nat) (s : string) (m : mobj) :
  match_at true (loss_re n) whole pos s = Some m ->
  exists p, cap_get 1 (m_caps m) = Some (p, S p).
Proof.
  unfold match_at, loss_re. cbn [run]. intro H.
  apply run_keeps in H as (p1 & s1 & c1 & H & _).
  exists p1. now apply (loss_number_one_digit n whole pos p1 s1 c1).
Qed.

Lemma loss_search_one_digit (n : nat) (whole : string) (s : string) :
  forall pos m,
    search_from true (loss_re n) whole pos s = Some m ->
    exists p, cap_get 1 (m_caps m) = Some (p, S p).
Proof.
  induction s as [|a s IH]; intros pos m H; cbn [search_from] in H.
  - destruct (match_at true (loss_re n) whole pos "") as [y|] eqn:E; [|discriminate].
    injection H as ->. now apply loss_match_one_digit in E.
  - destruct (match_at true (loss_re n) whole pos (String a s)) as [y|] eqn:E.
    + injection H as ->. now apply loss_match_one_digit in E.
    + now apply IH in H.
Qed.

Lemma take_one (s : string) : Py.take 1 s = "" \/ exists a, Py.take 1 s = String a "".
Proof. destruct s as [|a s]; [now left|right]. now exists a. Qed.

Lemma float_of_char (a : ascii) :
  In (match py_float (Py.replace "," "" (String a "")) with
      | Some b => b
      | None => 0%float
      end)
     [0; 1; 2; 3; 4; 5; 6; 7; 8; 9]%float.
Proof.
  destruct a as [[] [] [] [] [] [] [] []]; vm_compute; tauto.
Qed.

Lemma mult_of_cases (suf : string) :
  In (mult_of suf) [1; 1000; 1000000; 1000000000]%float.
Proof.
  unfold mult_of.
  destruct (String.eqb suf "K"); [cbn; tauto|].
  destruct (String.eqb suf "M"); [cbn; tauto|].
  destruct (String.eqb suf "B"); cbn; tauto.
Qed.

Lemma parse_loss_amounts (text : string) :
  exists d k,
    In d [0; 1; 2; 3; 4; 5; 6; 7; 8; 9]%float /\
    In k [1; 1000; 1000000; 1000000000]%float /\
    fst (_parse_loss_and_currency text) = PrimFloat.mul d k.
Proof.
  unfold _parse_loss_and_currency.
  destruct (Py.is_empty text).
  { exists 0%float, 1%float. cbn. tauto. }
  destruct (re_search true (loss_re 6) text) as [m|] eqn:E.
  2: { exists 0%float, 1%float. cbn. tauto. }
  apply loss_search_one_digit in E as [p E].
  cbn [fst]. eexists _, _. split; [|split; [apply mult_of_cases|reflexivity]].
  unfold group_or_empty at 1, group. rewrite E.
  replace (S p - p) with 1 by lia.
  destruct (take_one (Py.drop p (subject m))) as [->|[a ->]].
  - vm_compute. tauto.
  - apply float_of_char.
Qed.

End LossPattern.

(** C2. On a loss line that carries 6.8k USDC the parser returns 6.0 and
    USD, not 6800.0 and USDC, and on one that carries 1.7M US$ it returns
    1.0 and USD, not 1700000.0; the bare phrases, with no loss label, and
    a text without a loss line give 0.0 and USD. The number group of the
    pattern is lazy and everything after it is optional, so the group
    stops after its first digit: on no text at all does the parser return
    6800.0 or 1700000.0. *)
Theorem parse_loss_stops_at_first_digit :
  UpdateData._parse_loss_and_currency "Total Lost: 6.8k USDC" = (6%float, "USD") /\
  UpdateData._parse_loss_and_currency "Total Lost: ~1.7M US$" = (1%float, "USD") /\
  UpdateData._parse_loss_and_currency "6.8k USDC" = (0%float, "USD") /\
  UpdateData._parse_loss_and_currency "1.7M US$" = (0%float, "USD") /\
  UpdateData._parse_loss_and_currency "not a number" = (0%float, "USD") /\
  6%float <> 6800%float /\ 1%float <> 1700000%float /\
  (forall text,
     fst (UpdateData._parse_loss_and_currency text) <> 6800%float /\
     fst (UpdateData._parse_loss_and_currency text) <> 1700000%float).
Proof.
  repeat match goal with |- _ /\ _ => split end;
    try (vm_compute; reflexivity); try floats_differ.
  intro text.
  destruct (parse_loss_amounts text) as (d & k & D & K & ->).
  cbn [In] in D, K.
  repeat match goal with H : _ \/ _ |- _ => destruct H as [H|H] end;
    try contradiction; subst d k; split; floats_differ.
Qed.

(** ** The end-to-end scenario *)

(** C1. For the artifact src/test/2025-07/foo_exp.sol with the three lines
    of the scenario and no README, update_incidents writes the record of
    the claim except for the loss: Lost is 1.0, not 1200000.0. *)
Theorem end_to_end_foo_record :
  forall py_str readme_analysis,
    exists w',
      UpdateData.update_incidents py_str readme_analysis None false Scenarios.foo_world
      = Ok (w', [Scenarios.foo_record]) /\
      UpdateData.incidents_file w' = Holds (JArr [JObj Scenarios.foo_record]) /\
      Dict.get "Lost" Scenarios.foo_record = Some (JFloat 1) /\
      JFloat 1 <> JFloat 1200000.
Proof.
  intros py_str readme_analysis. eexists. split; [vm_compute; reflexivity|].
  split; [reflexivity|]. split; [reflexivity|].
  apply JFloat_neq. floats_differ.
Qed.

(** ** The matcher on literal words *)

Section LiteralWords.

Variable R : Type.

Lemma run_lit (w s : string) (k : nat -> string -> Re.caps -> option R)
      (pos : nat) (c : Re.caps) :
  String.prefix w s = true ->
  Re.run false R (Re.lit w) k pos s c
  = k (pos + String.length w) (Py.drop (String.length w) s) c.
Proof.
  revert s pos. induction w as [|a w IH]; intros s pos H; simpl.
  - now rewrite Nat.add_0_r.
  - destruct s as [|b s]; simpl in H; [discriminate|].
    destruct (ascii_dec a b) as [->|]; [|discriminate].
    unfold Re.chr_ok. rewrite Ascii.eqb_refl.
    rewrite IH by assumption. now rewrite Nat.add_succ_r.
Qed.

End LiteralWords.

Lemma search_lit (w whole s : string) (pos : nat) :
  Py.contains w s = true ->
  Re.found (Re.search_from false (Re.lit w) whole pos s) = true.
Proof.
  revert pos. induction s as [|a s IH]; intros pos H.
  - simpl in H. rewrite orb_false_r in H.
    simpl. unfold Re.match_at. now rewrite run_lit.
  - cbn [Py.contains] in H. cbn [Re.search_from].
    destruct (String.prefix w (String a s)) eqn:P.
    + unfold Re.match_at. now rewrite run_lit.
    + simpl in H. destruct (Re.match_at false (Re.lit w) whole pos (String a s)).
      * reflexivity.
      * now apply IH.
Qed.

(** ** The attack-type normalizer *)

Lemma first_label_skip (l1 l2 : list (string * string)) (t : string) :
  Scenarios.no_hit l1 t = true ->
  NormalizeAttack.first_label (l1 ++ l2) t = NormalizeAttack.first_label l2 t.
Proof.
  induction l1 as [|[p l] l1 IH]; simpl; intro H; [reflexivity|].
  apply andb_true_iff in H as [H1 H2]. apply negb_true_iff in H1.
  rewrite H1. now apply IH.
Qed.

Lemma first_label_none (l : list (string * string)) (t : string) :
  Scenarios.no_hit l t = true -> NormalizeAttack.first_label l t = None.
Proof.
  intro H. rewrite <- (app_nil_r l). now rewrite first_label_skip.
Qed.

(** C3, as amended. For every phrase: the empty phrase gives "Unknown";
    a phrase that, once lower-cased, trimmed and cut of its prefix,
    contains "reentrancy" and is matched by none of the 41 patterns that
    come before the reentrancy ones in the table gives "Reentrancy Attack";
    a phrase matched by no pattern of the table gives the title-cased form
    of the lower-cased, trimmed and cut phrase. *)
Theorem normalize_attack_type_by_table (phrase : string) :
  (phrase = "" -> NormalizeAttack.normalize_attack_type phrase = "Unknown") /\
  (phrase <> "" ->
   Py.contains "reentrancy" (NormalizeAttack.prepare phrase) = true ->
   Scenarios.no_hit Scenarios.before_reentrancy (NormalizeAttack.prepare phrase) = true ->
   NormalizeAttack.normalize_attack_type phrase = "Reentrancy Attack") /\
  (phrase <> "" ->
   Scenarios.no_hit NormalizeAttack.ATTACK_TYPE_MAPPING (NormalizeAttack.prepare phrase) = true ->
   NormalizeAttack.normalize_attack_type phrase
   = Py.title (NormalizeAttack.prepare phrase)).
Proof.
  split; [|split].
  - intros ->. reflexivity.
  - intros N C H. unfold NormalizeAttack.normalize_attack_type.
    destruct phrase; [congruence|]. cbn [Py.is_empty].
    change NormalizeAttack.ATTACK_TYPE_MAPPING
      with (Scenarios.before_reentrancy
              ++ skipn 41 NormalizeAttack.ATTACK_TYPE_MAPPING).
    rewrite first_label_skip by assumption.
    cbn [skipn NormalizeAttack.ATTACK_TYPE_MAPPING NormalizeAttack.first_label].
    unfold NormalizeAttack.hits, Re.re_search.
    change (NormalizeAttack.pat "reentrancy") with (Re.lit "reentrancy").
    now rewrite search_lit.
  - intros N H. unfold NormalizeAttack.normalize_attack_type.
    destruct phrase; [congruence|]. cbn [Py.is_empty].
    now rewrite first_label_none.
Qed.

Lemma normalize_attack_type_by_table_witness :
  NormalizeAttack.normalize_attack_type "Exploit: read-only REENTRANCY in vault"
  = "Reentrancy Attack" /\
  NormalizeAttack.normalize_attack_type "Weird New Class" = "Weird New Class".
Proof.
  split.
  - apply (proj1 (proj2 (normalize_attack_type_by_table
                           "Exploit: read-only REENTRANCY in vault"))).
    + discriminate.
    + vm_compute; reflexivity.
    + vm_compute; reflexivity.
  - apply (proj2 (proj2 (normalize_attack_type_by_table "Weird New Class"))).
    + discriminate.
    + vm_compute; reflexivity.
Defined.

(** The claim C3 fails as stated: "Weird New Bug Class" is matched by the
    pattern "bug" and becomes "Implementation Bug", not its title-cased
    self; and a phrase with "reentrancy" that an earlier pattern matches
    takes the earlier label. *)
Lemma normalize_attack_type_first_match_wins :
  NormalizeAttack.normalize_attack_type "Weird New Bug Class" = "Implementation Bug" /\
  NormalizeAttack.normalize_attack_type "Weird New Bug Class"
  <> Py.title "Weird New Bug Class" /\
  Py.contains "reentrancy" (Py.lower "Reentrancy via price manipulation") = true /\
  NormalizeAttack.normalize_attack_type "Reentrancy via price manipulation"
  = "Price Manipulation" /\
  NormalizeAttack.normalize_attack_type "Reentrancy via price manipulation"
  <> "Reentrancy Attack".
Proof.
  repeat split; try (vm_compute; reflexivity); vm_compute; discriminate.
Qed.

(** ** Dicts *)

Lemma get_set (k k' : string) (v : json) (d : dict) :
  Dict.get k (Dict.set k' v d)
  = if String.eqb k k' then Some v else Dict.get k d.
Proof.
  induction d as [|[k0 v0] d IH]; simpl; [reflexivity|].
  destruct (String.eqb k' k0) eqn:E; simpl.
  - apply String.eqb_eq in E. subst k0. now destruct (String.eqb k k').
  - rewrite IH. destruct (String.eqb k k0) eqn:E0; [|reflexivity].
    apply String.eqb_eq in E0. subst k0.
    now rewrite String.eqb_sym, E.
Qed.

Lemma get_set_same (k : string) (v : json) (d : dict) :
  Dict.get k (Dict.set k v d) = Some v.
Proof. now rewrite get_set, String.eqb_refl. Qed.

Lemma get_set_other (k k' : string) (v : json) (d : dict) :
  k <> k' -> Dict.get k (Dict.set k' v d) = Dict.get k d.
Proof. intro N. rewrite get_set. now apply String.eqb_neq in N as ->. Qed.

Lemma get_set_if (k k' : string) (b : bool) (v : json) (d : dict) :
  Dict.get k (UpdateData.set_if b k' v d)
  = if b && String.eqb k k' then Some v else Dict.get k d.
Proof. destruct b; simpl; [apply get_set|reflexivity]. Qed.

(** ** Lists updated in place *)


Lemma last_index_range (rel : string) (l : list dict) (i0 j : nat) :
  UpdateData.last_index rel l i0 = Some j -> i0 <= j < i0 + length l.
Proof.
  revert i0. induction l as [|x l IH]; intros i0 H; simpl in *; [discriminate|].
  destruct (UpdateData.last_index rel l (S i0)) eqn:E.
  - injection H as ->. apply IH in E. lia.
  - destruct (UpdateData.has_contract rel x); [|discriminate].
    injection H as ->. lia.
Qed.

(** ** The merge onto an existing record *)


(** Look-ups through a chain of assignments with literal keys. *)
Ltac eval_key_tests :=
  repeat match goal with
         | |- context [String.eqb (String ?a ?x) (String ?b ?y)] =>
             let t := constr:(String.eqb (String a x) (String b y)) in
             let v := eval vm_compute in t in
             change t with v
         end.

Ltac dict_lookup :=
  repeat (rewrite get_set_if || rewrite get_set); eval_key_tests;
  rewrite ?andb_false_r, ?andb_true_r; cbv iota.






(** ** Overrides *)


(** ** Stores that cannot be read *)

(** C9. An incidents.json or a rootcause_data.json that json.load cannot
    parse stops update_incidents, update_rootcause and the diff script
    with the decoding error, and an override entry that is not an object
    stops update_incidents with an AttributeError; merge_existing, in
    build_rootcause_from_md.py, goes on from an empty store, and
    _load_overrides takes an unparseable override file as empty. *)
Theorem unreadable_store_stops_the_run :
  (forall py_str readme_analysis start_ym preserve_order tree read ov rc,
      UpdateData.update_incidents py_str readme_analysis start_ym preserve_order
        (UpdateData.World tree read ov Unparseable rc)
      = Raise JSONDecodeError) /\
  (forall py_str incidents tree read ov inc,
      UpdateData.update_rootcause py_str incidents
        (UpdateData.World tree read ov inc Unparseable)
      = Raise JSONDecodeError) /\
  (forall diff_output, ParseDiff.run diff_output Unparseable = Raise JSONDecodeError) /\
  (forall py_str readme_analysis,
      UpdateData.update_incidents py_str readme_analysis None false
        (UpdateData.World [("source/src/test/2025-07", ["foo_exp.sol"])]
           (fun _ => None)
           (Holds (JObj [("src/test/2025-07/foo_exp.sol", JStr "20250709")]))
           Missing Missing)
      = Raise AttributeError) /\
  (forall new_data,
      BuildRootcause.merge_existing new_data Unparseable
      = BuildRootcause.merge_all new_data []) /\
  (forall py_str tree read inc rc,
      UpdateData._load_overrides py_str (UpdateData.World tree read Unparseable inc rc) = []).
Proof.
  repeat split; intros; try reflexivity.
Qed.

(** ** What update_rootcause writes *)

Lemma links_has (d1 d2 : dict) (k : string) :
  Scenarios.links d1 = Scenarios.links d2 -> Dict.has k d1 = Dict.has k d2.
Proof.
  unfold Dict.has. revert d2.
  induction d1 as [|[k1 v1] d1 IH]; intros [|[k2 v2] d2] H; try discriminate H;
    [reflexivity|].
  cbn in H. injection H as -> _ H. cbn [Dict.get].
  destruct (String.eqb k k2); [reflexivity|]. now apply IH.
Qed.

Lemma links_find (d1 d2 : dict) (url : string) :
  Scenarios.links d1 = Scenarios.links d2 ->
  UpdateData._find_key_by_contract url d1 = UpdateData._find_key_by_contract url d2.
Proof.
  revert d2.
  induction d1 as [|[k1 v1] d1 IH]; intros [|[k2 v2] d2] H; try discriminate H;
    [reflexivity|].
  cbn in H. injection H as -> C H. specialize (IH d2 H).
  cbn [UpdateData._find_key_by_contract].
  unfold Scenarios.contract_of in C.
  destruct v1 as [| | | | | |e1], v2 as [| | | | | |e2]; try exact IH;
    repeat match goal with
           | |- context [Dict.get "Contract" ?e] => destruct (Dict.get "Contract" e) as [[]|]
           end;
    try exact IH; try discriminate C; try (injection C as ->; now rewrite IH).
Qed.

Lemma links_settled (py_str : json -> string) (d1 d2 inc : dict) :
  Scenarios.links d1 = Scenarios.links d2 ->
  Scenarios.settled py_str d1 inc = Scenarios.settled py_str d2 inc.
Proof.
  intro H. unfold Scenarios.settled.
  destruct (Dict.get "name" inc) as [[]|]; try reflexivity.
  destruct (Dict.get "Contract" inc); try reflexivity.
  now rewrite (links_has _ _ _ H), (links_find _ _ _ H).
Qed.

Lemma links_set (k : string) (v v0 : json) (d : dict) :
  Dict.get k d = Some v0 ->
  Scenarios.contract_of v = Scenarios.contract_of v0 ->
  Scenarios.links (Dict.set k v d) = Scenarios.links d.
Proof.
  induction d as [|[k1 v1] d IH]; intros G C; [discriminate G|].
  cbn [Dict.get] in G. cbn [Dict.set].
  destruct (String.eqb k k1) eqn:E; unfold Scenarios.links in *; cbn [map fst snd].
  - injection G as ->. now rewrite C.
  - f_equal. now apply IH.
Qed.

Lemma entry_set_contract (k : string) (v entry entry' : json) :
  k <> "Contract" ->
  UpdateData.entry_set k v entry = Ok entry' ->
  Scenarios.contract_of entry' = Scenarios.contract_of entry.
Proof.
  intros N H. destruct entry; try discriminate H. injection H as <-.
  cbn. rewrite get_set_other by congruence. reflexivity.
Qed.

Lemma override_type_contract (o : dict) (entry entry' : json) :
  UpdateData.override_type o entry = Ok entry' ->
  Scenarios.contract_of entry' = Scenarios.contract_of entry.
Proof.
  unfold UpdateData.override_type. cbv zeta.
  destruct (truthy _); intro H; [|now injection H as <-].
  apply entry_set_contract in H; [assumption|discriminate].
Qed.

Lemma override_date_contract (o : dict) (entry entry' : json) :
  UpdateData.override_date o entry = Ok entry' ->
  Scenarios.contract_of entry' = Scenarios.contract_of entry.
Proof.
  unfold UpdateData.override_date. cbv zeta.
  destruct (truthy _); intro H; [|now injection H as <-].
  destruct (UpdateData.date_of _ _) as [[h|]|]; cbn [bind] in H;
    try discriminate H; [|now injection H as <-].
  apply entry_set_contract in H; [assumption|discriminate].
Qed.

Lemma override_links_contract (o : dict) (entry entry' : json) :
  UpdateData.override_links o entry = Ok entry' ->
  Scenarios.contract_of entry' = Scenarios.contract_of entry.
Proof.
  unfold UpdateData.override_links. cbv zeta.
  destruct (truthy (por _ _)); intro H; [|now injection H as <-].
  destruct (UpdateData.refs_of _) as [refs|]; cbn [bind] in H; [|discriminate H].
  destruct (Py.is_empty refs); [now injection H as <-|].
  destruct entry as [| | | | | |e]; try discriminate H.
  destruct (truthy _).
  - destruct (Dict.get_or "rootCause" JNull e); try discriminate H.
    injection H as <-. cbn. now rewrite get_set_other by discriminate.
  - injection H as <-. cbn. now rewrite get_set_other by discriminate.
Qed.

Lemma override_entry_contract (ov entry entry' : json) :
  UpdateData.override_entry ov entry = Ok entry' ->
  Scenarios.contract_of entry' = Scenarios.contract_of entry.
Proof.
  unfold UpdateData.override_entry. intro H.
  destruct ov as [| | | | | |o]; try discriminate H.
  destruct (UpdateData.override_type o entry) as [e1|] eqn:E1; cbn [bind] in H;
    [|discriminate H].
  destruct (UpdateData.override_date o e1) as [e2|] eqn:E2; cbn [bind] in H;
    [|discriminate H].
  rewrite (override_links_contract _ _ _ H), (override_date_contract _ _ _ E2).
  now apply override_type_contract with (o := o).
Qed.

Lemma has_get (k : string) (d : dict) :
  Dict.has k d = true -> exists v, Dict.get k d = Some v.
Proof. unfold Dict.has. destruct (Dict.get k d); [eauto|discriminate]. Qed.

(** A settled incident neither creates nor moves an entry, and leaves the
    keys and the links as they were. *)
Lemma rootcause_step_settled (py_str : json -> string) (overrides inc data : dict)
      (added : bool) (data' : dict) (added' : bool) :
  Scenarios.settled py_str data inc = true ->
  UpdateData.rootcause_step py_str overrides inc (data, added) = Ok (data', added') ->
  added' = added /\ Scenarios.links data' = Scenarios.links data.
Proof.
  unfold Scenarios.settled, UpdateData.rootcause_step. intros S H.
  destruct (Dict.get "name" inc) as [[| | | |name| |]|]; try discriminate S.
  destruct (Dict.get "Contract" inc) as [contract|]; try discriminate S.
  cbn [bind] in H. apply andb_true_iff in S as [Has Find].
  assert (M : UpdateData.migrate name
                (UpdateData.GITHUB_BASE ++ UpdateData.str_of py_str contract) data
              = (data, false)).
  { unfold UpdateData.migrate.
    destruct (UpdateData._find_key_by_contract _ data) as [k|]; [|reflexivity].
    apply orb_true_iff in Find as [F|F].
    - now rewrite F.
    - rewrite F. now rewrite andb_false_r. }
  rewrite M in H. rewrite Has in H. cbn [bind] in H. rewrite orb_false_r in H.
  match type of H with
  | bind ?m _ = _ => destruct m as [ov|] eqn:O; cbn [bind] in H; [|discriminate H]
  end.
  destruct (truthy ov); [|now injection H as <- <-].
  destruct (UpdateData.override_entry ov _) as [entry|] eqn:E; cbn [bind] in H;
    [|discriminate H].
  injection H as <- <-. split; [reflexivity|].
  destruct (has_get _ _ Has) as [v0 G].
  apply links_set with (v0 := v0); [assumption|].
  apply override_entry_contract in E. unfold Dict.get_or in E. now rewrite G in E.
Qed.

Lemma rootcause_loop_settled (py_str : json -> string) (overrides : dict)
      (incidents : list dict) (data0 data : dict) (added : bool)
      (data' : dict) (added' : bool) :
  forallb (Scenarios.settled py_str data0) incidents = true ->
  Scenarios.links data = Scenarios.links data0 ->
  UpdateData.rootcause_loop py_str overrides incidents (data, added) = Ok (data', added') ->
  added' = added /\ Scenarios.links data' = Scenarios.links data0.
Proof.
  revert data added. induction incidents as [|inc rest IH]; intros data added S L H.
  - injection H as <- <-. now split.
  - cbn [forallb] in S. apply andb_true_iff in S as [S1 S2].
    cbn [UpdateData.rootcause_loop] in H.
    destruct (UpdateData.rootcause_step py_str overrides inc (data, added))
      as [[d1 a1]|] eqn:E; cbn [bind] in H; [|discriminate H].
    rewrite <- (links_settled py_str _ _ inc L) in S1.
    destruct (rootcause_step_settled _ _ _ _ _ _ _ S1 E) as [-> L1].
    apply (IH d1 added S2); [congruence|assumption].
Qed.

(** C10. When every incident of the list has its name among the keys of
    the stored root-cause data and its contract link under that key (or
    nowhere), so that the run has no entry to create and none to move,
    update_rootcause returns False and leaves the file as it was, whatever
    the overrides did to the entries in memory (or it raises, and writes
    nothing either). *)
Theorem rootcause_written_only_when_added
        (py_str : json -> string) (incidents : list dict)
        (w : UpdateData.world) (data : dict) :
  UpdateData.load_rootcause w = Ok data ->
  forallb (Scenarios.settled py_str data) incidents = true ->
  match UpdateData.update_rootcause py_str incidents w with
  | Ok (w', added) => w' = w /\ added = false
  | Raise _ => True
  end.
Proof.
  intros L S. unfold UpdateData.update_rootcause. rewrite L. cbn [bind].
  destruct (UpdateData.rootcause_loop _ _ _ _) as [[data' added']|] eqn:E;
    cbn [bind]; [|exact I].
  destruct (rootcause_loop_settled _ _ _ _ _ _ _ _ S eq_refl E) as [-> _].
  now split.
Qed.

Lemma rootcause_written_only_when_added_witness :
  UpdateData.update_rootcause Scenarios.py_str [Scenarios.foo_record]
    Scenarios.foo_known_world
  = Ok (Scenarios.foo_known_world, false) /\
  exists data',
    UpdateData.rootcause_loop Scenarios.py_str
      (UpdateData._load_overrides Scenarios.py_str Scenarios.foo_known_world)
      [Scenarios.foo_record] ([("foo", JObj Scenarios.foo_entry)], false)
    = Ok (data', false) /\
    UpdateData.rootcause_file Scenarios.foo_known_world
    = Holds (JObj [("foo", JObj Scenarios.foo_entry)]) /\
    Dict.get "type" Scenarios.foo_entry = Some (JStr "Price Manipulation") /\
    (exists e, Dict.get "foo" data' = Some (JObj e) /\
               Dict.get "type" e = Some (JStr "Oracle")).
Proof.
  split.
  - pose proof (rootcause_written_only_when_added Scenarios.py_str
                  [Scenarios.foo_record] Scenarios.foo_known_world
                  [("foo", JObj Scenarios.foo_entry)] eq_refl eq_refl) as H.
    destruct (UpdateData.update_rootcause Scenarios.py_str [Scenarios.foo_record]
                Scenarios.foo_known_world) as [[w' added]|e] eqn:E.
    + destruct H as [-> ->]. reflexivity.
    + vm_compute in E. discriminate E.
  - eexists. split; [vm_compute; reflexivity|].
    split; [reflexivity|]. split; [reflexivity|].
    eexists. split; reflexivity.
Defined.

(** ** Contract paths through a run of update_incidents *)

Section ContractPaths.

Variable readme_analysis :
  string -> string -> string -> option (string * string) -> string -> UpdateData.readme.
Variable w : UpdateData.world.
Variable overrides : dict.
Variable start_ym : option string.
Variable loaded : list dict.

Lemma steps_files_walked (root : string) (files : list string) (incidents : list dict) :
  UpdateData.steps_files readme_analysis w overrides start_ym loaded root files incidents
  = Scenarios.steps readme_analysis w overrides start_ym loaded
      (map (pair root) files) incidents.
Proof.
  revert incidents. induction files as [|f files IH]; intro incidents; [reflexivity|].
  cbn [UpdateData.steps_files Scenarios.steps map fst snd].
  destruct (UpdateData.step _ _ _ _ _ _ _ _); cbn [bind]; [apply IH|reflexivity].
Qed.

Lemma steps_app (a b : list (string * string)) (incidents : list dict) :
  Scenarios.steps readme_analysis w overrides start_ym loaded (a ++ b) incidents
  = bind (Scenarios.steps readme_analysis w overrides start_ym loaded a incidents)
         (Scenarios.steps readme_analysis w overrides start_ym loaded b).
Proof.
  revert incidents. induction a as [|x a IH]; intro incidents; [reflexivity|].
  cbn [app Scenarios.steps].
  destruct (UpdateData.step _ _ _ _ _ _ _ _); cbn [bind]; [apply IH|reflexivity].
Qed.

(** The nested loops visit the files of the walk in order. *)
Lemma steps_walk_walked (dirs : list (string * list string)) (incidents : list dict) :
  UpdateData.steps_walk readme_analysis w overrides start_ym loaded dirs incidents
  = Scenarios.steps readme_analysis w overrides start_ym loaded
      (Scenarios.walked dirs) incidents.
Proof.
  revert incidents. induction dirs as [|[root files] dirs IH]; intro incidents;
    [reflexivity|].
  cbn [UpdateData.steps_walk Scenarios.walked flat_map fst snd].
  rewrite steps_app, steps_files_walked.
  destruct (Scenarios.steps _ _ _ _ _ _ _); cbn [bind]; [apply IH|reflexivity].
Qed.

End ContractPaths.

Lemma apply_overrides_rel (overrides : dict) (v : UpdateData.fields) (c : UpdateData.cand) :
  UpdateData.apply_overrides overrides v = Ok c -> UpdateData.c_rel c = UpdateData.rel v.
Proof.
  unfold UpdateData.apply_overrides.
  destruct (Dict.get _ overrides) as [ov|]; [|now intros [= <-]].
  destruct (truthy ov); [|now intros [= <-]].
  destruct ov; try discriminate. now intros [= <-].
Qed.

Lemma merge_item_contract (c : UpdateData.cand) (item item' : dict) :
  UpdateData.merge_item c item = Ok item' ->
  Dict.get "Contract" item' = Dict.get "Contract" item.
Proof.
  unfold UpdateData.merge_item.
  destruct (UpdateData.nonzero_number _).
  - destruct (UpdateData.to_float _); cbn [bind]; [|discriminate].
    intros [= <-]. dict_lookup. reflexivity.
  - cbn [bind]. intros [= <-]. dict_lookup. reflexivity.
Qed.

Lemma contracts_app (a b : list dict) :
  Scenarios.contracts (a ++ b) = Scenarios.contracts a ++ Scenarios.contracts b.
Proof. apply flat_map_app. Qed.

Lemma update_at_contracts (i : nat) (f : dict -> res dict) (l l' : list dict) :
  (forall x y, f x = Ok y -> Dict.get "Contract" y = Dict.get "Contract" x) ->
  UpdateData.update_at i f l = Ok l' ->
  Scenarios.contracts l' = Scenarios.contracts l.
Proof.
  intro F. revert i l'. induction l as [|x l IH]; intros i l' H.
  - destruct i; injection H as <-; reflexivity.
  - destruct i as [|i]; cbn [UpdateData.update_at] in H.
    + destruct (f x) as [y|] eqn:E; cbn [bind] in H; [|discriminate H].
      injection H as <-. unfold Scenarios.contracts. cbn [flat_map].
      unfold Scenarios.contract_path. now rewrite (F _ _ E).
    + destruct (UpdateData.update_at i f l) as [r|] eqn:E; cbn [bind] in H;
        [|discriminate H].
      injection H as <-. unfold Scenarios.contracts in *. cbn [flat_map].
      now rewrite (IH _ _ E).
Qed.

Lemma last_index_none (rel : string) (l : list dict) (i : nat) :
  UpdateData.last_index rel l i = None -> ~ In rel (Scenarios.contracts l).
Proof.
  revert i. induction l as [|x l IH]; intros i H; [intros []|].
  cbn [UpdateData.last_index] in H.
  destruct (UpdateData.last_index rel l (S i)) eqn:E; [discriminate H|].
  destruct (UpdateData.has_contract rel x) eqn:C; [discriminate H|].
  unfold Scenarios.contracts. cbn [flat_map]. rewrite in_app_iff.
  intros [K|K]; [|exact (IH _ E K)].
  unfold Scenarios.contract_path in K. unfold UpdateData.has_contract in C.
  destruct (Dict.get "Contract" x) as [[| | | |c| |]|]; try contradiction.
  destruct (Py.is_empty c); [contradiction|].
  destruct K as [->|[]]. now rewrite String.eqb_refl in C.
Qed.

Lemma new_item_contract (f : string) (c : UpdateData.cand) (item : dict) :
  UpdateData.new_item f c = Ok item ->
  Dict.get "Contract" item = Some (JStr (UpdateData.c_rel c)).
Proof.
  unfold UpdateData.new_item.
  destruct (UpdateData.to_float _); cbn [bind]; [|discriminate].
  intros [= <-]. dict_lookup. reflexivity.
Qed.

(** What one artifact does to the contract paths of the list: nothing, or
    one more path at the end, which is its own and is not in the loaded
    catalog. *)
Lemma record_artifact_contracts (overrides : dict) (loaded : list dict) (f : string)
      (v : UpdateData.fields) (incidents incidents' : list dict) :
  UpdateData.record_artifact overrides loaded f v incidents = Ok incidents' ->
  Scenarios.contracts incidents' = Scenarios.contracts incidents \/
  (Scenarios.contracts incidents' = Scenarios.contracts incidents ++ [UpdateData.rel v] /\
   ~ In (UpdateData.rel v) (Scenarios.contracts loaded)).
Proof.
  unfold UpdateData.record_artifact. intro H.
  destruct (UpdateData.apply_overrides overrides v) as [c|] eqn:A; cbn [bind] in H;
    [|discriminate H].
  rewrite (apply_overrides_rel _ _ _ A) in H.
  destruct (UpdateData.last_index _ loaded 0) as [i|] eqn:L.
  - left. apply update_at_contracts in H; [assumption|].
    intros x y. apply merge_item_contract.
  - destruct (UpdateData.new_item f c) as [item|] eqn:N; cbn [bind] in H;
      [|discriminate H].
    injection H as <-. apply new_item_contract in N.
    rewrite (apply_overrides_rel _ _ _ A) in N.
    rewrite contracts_app.
    assert (One : Scenarios.contracts [item]
                  = if Py.is_empty (UpdateData.rel v) then [] else [UpdateData.rel v]).
    { unfold Scenarios.contracts. cbn [flat_map]. unfold Scenarios.contract_path.
      rewrite N. apply app_nil_r. }
    rewrite One. destruct (Py.is_empty (UpdateData.rel v)).
    + left. apply app_nil_r.
    + right. split; [reflexivity|]. now apply last_index_none in L.
Qed.

Lemma NoDup_snoc (A : Type) (l : list A) (a : A) :
  NoDup l -> ~ In a l -> NoDup (l ++ [a]).
Proof.
  intros N I. apply Permutation_NoDup with (l := a :: l).
  - apply Permutation_cons_append.
  - now constructor.
Qed.

(** What a run of artifacts does to the contract paths of the list: the
    loaded ones stay, and every path it adds is one the loaded catalog
    did not carry. *)
Lemma steps_new_contracts
      (readme_analysis : string -> string -> string -> option (string * string) ->
                         string -> UpdateData.readme)
      (w : UpdateData.world) (overrides : dict) (start_ym : option string)
      (loaded : list dict) (arts : list (string * string)) :
  forall (incidents incidents' : list dict) (news : list string),
    Scenarios.steps readme_analysis w overrides start_ym loaded arts incidents
    = Ok incidents' ->
    Scenarios.contracts incidents = Scenarios.contracts loaded ++ news ->
    (forall p, In p news -> ~ In p (Scenarios.contracts loaded)) ->
    exists news',
      Scenarios.contracts incidents' = Scenarios.contracts loaded ++ news' /\
      (forall p, In p news' -> ~ In p (Scenarios.contracts loaded)).
Proof.
  induction arts as [|[root f] arts IH]; intros incidents incidents' news H C F.
  - injection H as <-. now exists news.
  - cbn [Scenarios.steps fst snd] in H.
    destruct (UpdateData.step _ _ _ _ _ _ _ _) as [mid|] eqn:S; cbn [bind] in H;
      [|discriminate H].
    unfold UpdateData.step in S.
    destruct (negb (UpdateData.endswith_exp f)).
    { injection S as <-. exact (IH _ _ news H C F). }
    destruct (UpdateData.skipped start_ym _).
    { injection S as <-. exact (IH _ _ news H C F). }
    apply record_artifact_contracts in S. destruct S as [S|[S K]].
    + apply (IH _ _ news H); [congruence|exact F].
    + apply (IH _ _ (news ++ [UpdateData.rel
                                (UpdateData.parse_artifact readme_analysis w root f)]) H).
      * rewrite S, C. now rewrite app_assoc.
      * intros q Q. apply in_app_iff in Q as [Q|[<-|[]]]; [now apply F|exact K].
Qed.

Lemma count_occ_absent (l : list string) (p : string) :
  ~ In p l -> count_occ string_dec l p = 0.
Proof. apply count_occ_not_In. Qed.

(** ** The sort by date *)

Lemma insert_desc_perm (x : json * dict) (sorted sorted' : list (json * dict)) :
  UpdateData.insert_desc x sorted = Ok sorted' -> Permutation (x :: sorted) sorted'.
Proof.
  revert sorted'. induction sorted as [|y r IH]; intros sorted' H.
  - injection H as <-. apply Permutation_refl.
  - cbn [UpdateData.insert_desc] in H.
    destruct (UpdateData.key_lt (fst x) (fst y)) as [[|]|]; cbn [bind] in H;
      try discriminate H.
    + destruct (UpdateData.insert_desc x r) as [r'|]; cbn [bind] in H;
        [|discriminate H].
      injection H as <-. rewrite perm_swap. apply perm_skip. now apply IH.
    + injection H as <-. apply Permutation_refl.
Qed.

Lemma sort_keyed_perm (l l' : list (json * dict)) :
  UpdateData.sort_keyed l = Ok l' -> Permutation l l'.
Proof.
  revert l'. induction l as [|x r IH]; intros l' H.
  - injection H as <-. apply perm_nil.
  - cbn [UpdateData.sort_keyed] in H.
    destruct (UpdateData.sort_keyed r) as [r'|]; cbn [bind] in H; [|discriminate H].
    apply insert_desc_perm in H. rewrite <- H. apply perm_skip. now apply IH.
Qed.

Lemma with_keys_snd (l : list dict) (keyed : list (json * dict)) :
  UpdateData.with_keys l = Ok keyed -> map snd keyed = l.
Proof.
  revert keyed. induction l as [|x r IH]; intros keyed H.
  - now injection H as <-.
  - cbn [UpdateData.with_keys] in H.
    destruct (Dict.get "date" x); [|discriminate H].
    destruct (UpdateData.with_keys r) as [r'|]; cbn [bind] in H; [|discriminate H].
    injection H as <-. cbn. now rewrite (IH r').
Qed.

Lemma sort_by_date_perm (l l' : list dict) :
  UpdateData.sort_by_date l = Ok l' -> Permutation l l'.
Proof.
  unfold UpdateData.sort_by_date. intro H.
  destruct (UpdateData.with_keys l) as [keyed|] eqn:K; cbn [bind] in H;
    [|discriminate H].
  destruct (UpdateData.sort_keyed keyed) as [sorted|] eqn:S; cbn [bind] in H;
    [|discriminate H].
  injection H as <-. rewrite <- (with_keys_snd _ _ K).
  apply Permutation_map. now apply sort_keyed_perm.
Qed.

Lemma contracts_perm (l l' : list dict) :
  Permutation l l' -> Permutation (Scenarios.contracts l) (Scenarios.contracts l').
Proof. apply Permutation_flat_map. Qed.

(** ** The diff script only appends *)

Lemma add_blocks_appends (existing : list json) (blocks : list (list string)) :
  forall (incidents : list json) (n : nat),
  exists news,
    ParseDiff.add_blocks existing blocks incidents n
    = (incidents ++ news, n + length news) /\
    Forall (fun x => exists incident,
                x = JObj incident /\ ParseDiff.known existing incident = false) news.
Proof.
  induction blocks as [|block blocks IH]; intros incidents n.
  - exists []. cbn. now rewrite app_nil_r, Nat.add_0_r.
  - cbn [ParseDiff.add_blocks].
    destruct (ParseDiff.parse_block block) as [incident|]; [|apply IH].
    destruct (ParseDiff.known existing incident) eqn:K; [apply IH|].
    destruct (IH (incidents ++ [JObj incident]) (S n)) as [news [E F]].
    exists (JObj incident :: news). split.
    + rewrite E, <- app_assoc. cbn [app length]. f_equal. lia.
    + constructor; [eauto|assumption].
Qed.

(** C4, as amended. A run of update_incidents never adds a record for a
    contract path of the loaded catalog: the contract paths it writes are
    the loaded ones and paths the loaded catalog did not carry, so a
    loaded path is carried by as many records after the run as before
    (by one, when the loaded paths are pairwise distinct). That is all
    the key prevents: the paths added in a run are not compared with one
    another. The changelog-diff script keys on the whole record instead:
    it leaves the loaded records in place and appends, for a block, a
    record that is equal in every field to no loaded record. *)
Theorem contract_paths_stay_unique :
  (forall py_str readme_analysis start_ym preserve_order w loaded,
      UpdateData.load_incidents w = Ok loaded ->
      match UpdateData.update_incidents py_str readme_analysis start_ym preserve_order w with
      | Ok (w', incidents) =>
          UpdateData.incidents_file w' = Holds (JArr (map JObj incidents)) /\
          (exists news,
              Permutation (Scenarios.contracts incidents)
                          (Scenarios.contracts loaded ++ news) /\
              (forall p, In p news -> ~ In p (Scenarios.contracts loaded))) /\
          (forall p, In p (Scenarios.contracts loaded) ->
                     count_occ string_dec (Scenarios.contracts incidents) p
                     = count_occ string_dec (Scenarios.contracts loaded) p) /\
          (NoDup (Scenarios.contracts loaded) ->
           forall p, In p (Scenarios.contracts loaded) ->
                     count_occ string_dec (Scenarios.contracts incidents) p = 1)
      | Raise _ => True
      end) /\
  (forall diff_output loaded,
      exists news,
        ParseDiff.run diff_output (Holds (JArr loaded))
        = Ok (Holds (JArr (loaded ++ news))) /\
        Forall (fun x => exists incident,
                    x = JObj incident /\ ParseDiff.known loaded incident = false) news).
Proof.
  split.
  - intros py_str readme_analysis start_ym preserve_order w loaded L.
    unfold UpdateData.update_incidents. rewrite L. cbn [bind].
    rewrite steps_walk_walked.
    destruct (Scenarios.steps _ _ _ _ _ _ _) as [looped|] eqn:S; cbn [bind];
      [|exact I].
    destruct (steps_new_contracts _ _ _ _ _ _ loaded looped [] S) as [news [C F]].
    { now rewrite app_nil_r. }
    { intros p []. }
    assert (Main : forall incidents,
               Permutation looped incidents ->
               (exists news0,
                   Permutation (Scenarios.contracts incidents)
                               (Scenarios.contracts loaded ++ news0) /\
                   (forall p, In p news0 -> ~ In p (Scenarios.contracts loaded))) /\
               (forall p, In p (Scenarios.contracts loaded) ->
                          count_occ string_dec (Scenarios.contracts incidents) p
                          = count_occ string_dec (Scenarios.contracts loaded) p) /\
               (NoDup (Scenarios.contracts loaded) ->
                forall p, In p (Scenarios.contracts loaded) ->
                          count_occ string_dec (Scenarios.contracts incidents) p = 1)).
    { intros incidents P. apply contracts_perm in P. rewrite C in P.
      assert (Same : forall p, In p (Scenarios.contracts loaded) ->
                               count_occ string_dec (Scenarios.contracts incidents) p
                               = count_occ string_dec (Scenarios.contracts loaded) p).
      { intros p Ip.
        rewrite <- (proj1 (Permutation_count_occ string_dec _ _) P p).
        rewrite count_occ_app, (count_occ_absent news p); [lia|].
        intro Q. exact (F p Q Ip). }
      split; [|split].
      - exists news. split; [now symmetry|exact F].
      - exact Same.
      - intros N p Ip. rewrite (Same p Ip).
        apply NoDup_count_occ' with (decA := string_dec); assumption. }
    destruct preserve_order; cbn [bind].
    + split; [reflexivity|]. apply Main, Permutation_refl.
    + destruct (UpdateData.sort_by_date looped) as [sorted|] eqn:B; cbn [bind];
        [|exact I].
      split; [reflexivity|]. apply Main. now apply sort_by_date_perm.
  - intros diff_output loaded. unfold ParseDiff.run. cbn [bind].
    destruct (add_blocks_appends loaded
                (ParseDiff.group_blocks (ParseDiff.added_lines diff_output) [])
                loaded 0) as [news [E F]].
    exists news. rewrite E. split; [|exact F].
    destruct news; cbn [length Nat.add]; [now rewrite app_nil_r|reflexivity].
Qed.

Lemma contract_paths_stay_unique_witness :
  exists w' incidents,
    UpdateData.update_incidents Scenarios.py_str Scenarios.no_readme None false
      Scenarios.twice_world = Ok (w', incidents) /\
    Scenarios.contracts [Scenarios.june_record] = [Scenarios.june_path] /\
    Scenarios.contracts incidents = [Scenarios.july_path; Scenarios.june_path] /\
    count_occ string_dec (Scenarios.contracts incidents) Scenarios.june_path = 1.
Proof.
  pose proof (proj1 contract_paths_stay_unique Scenarios.py_str Scenarios.no_readme
                None false Scenarios.twice_world [Scenarios.june_record] eq_refl) as H.
  destruct (UpdateData.update_incidents Scenarios.py_str Scenarios.no_readme None false
              Scenarios.twice_world) as [[w' incidents]|e] eqn:Run;
    [|vm_compute in Run; discriminate Run].
  destruct H as (_ & _ & _ & One).
  exists w', incidents. split; [reflexivity|]. split; [reflexivity|].
  split.
  - vm_compute in Run. injection Run as _ <-. reflexivity.
  - apply One.
    + constructor; [intros []|constructor].
    + left. reflexivity.
Defined.

(** The claim C4 fails as stated, for both pipelines. From no catalog at
    all, update_incidents writes two records with one contract path for
    a tree in which two artifacts get the same path: the first is not
    entered among the known paths when it is appended. And the diff
    script, run on the catalog update_incidents wrote for [foo], appends
    a second record with the same contract path, since the two records
    differ (the loss, and the chain the diff script never sets). *)
Lemma both_pipelines_duplicate_contract_path :
  (exists w',
      UpdateData.load_incidents Scenarios.twin_world = Ok [] /\
      UpdateData.update_incidents Scenarios.py_str Scenarios.no_readme None false
        Scenarios.twin_world
      = Ok (w', [Scenarios.foo_record; Scenarios.foo_record]) /\
      UpdateData.incidents_file w'
      = Holds (JArr [JObj Scenarios.foo_record; JObj Scenarios.foo_record])) /\
  Scenarios.contracts [Scenarios.foo_record; Scenarios.foo_record]
  = ["src/test/2025-07/foo_exp.sol"; "src/test/2025-07/foo_exp.sol"] /\
  ~ NoDup (Scenarios.contracts [Scenarios.foo_record; Scenarios.foo_record]) /\
  ParseDiff.run Scenarios.foo_diff (Holds (JArr [JObj Scenarios.foo_record]))
  = Ok (Holds (JArr [JObj Scenarios.foo_record; JObj Scenarios.foo_from_diff])) /\
  Scenarios.contracts [Scenarios.foo_record; Scenarios.foo_from_diff]
  = ["src/test/2025-07/foo_exp.sol"; "src/test/2025-07/foo_exp.sol"] /\
  ~ NoDup (Scenarios.contracts [Scenarios.foo_record; Scenarios.foo_from_diff]).
Proof.
  assert (Twice : ~ NoDup ["src/test/2025-07/foo_exp.sol"; "src/test/2025-07/foo_exp.sol"]).
  { intro N. inversion N as [|x l X _]. apply X. now left. }
  split; [|split; [reflexivity|split; [exact Twice|split; [|split; [reflexivity|exact Twice]]]]].
  - eexists. split; [reflexivity|]. split; [vm_compute; reflexivity|reflexivity].
  - vm_compute. reflexivity.
Qed.

(** ** Keys and entries of the root-cause data *)

Lemma has_In (k : string) (d : dict) : Dict.has k d = true <-> In k (Dict.keys d).
Proof.
  unfold Dict.has, Dict.keys. induction d as [|[k1 v1] d IH]; cbn.
  - split; [discriminate|intros []].
  - destruct (String.eqb k k1) eqn:E.
    + apply String.eqb_eq in E. subst. split; auto.
    + apply String.eqb_neq in E. rewrite IH. split; [auto|].
      intros [X|X]; [congruence|assumption].
Qed.

Lemma get_In (k : string) (v : json) (d : dict) :
  Dict.get k d = Some v -> In (k, v) d.
Proof.
  induction d as [|[k1 v1] d IH]; cbn; [discriminate|].
  destruct (String.eqb k k1) eqn:E.
  - apply String.eqb_eq in E. subst. intros [= ->]. now left.
  - intro H. right. now apply IH.
Qed.

Lemma In_get (k : string) (v : json) (d : dict) :
  NoDup (Dict.keys d) -> In (k, v) d -> Dict.get k d = Some v.
Proof.
  unfold Dict.keys. induction d as [|[k1 v1] d IH]; cbn; intros N I; [contradiction|].
  inversion N as [|? ? X Y]; subst.
  destruct I as [[= -> ->]|I].
  - now rewrite String.eqb_refl.
  - destruct (String.eqb k k1) eqn:E; [|now apply IH].
    apply String.eqb_eq in E. subst. exfalso. apply X.
    now apply (in_map fst) in I.
Qed.

Lemma keys_set (k : string) (v : json) (d : dict) :
  Dict.keys (Dict.set k v d)
  = if Dict.has k d then Dict.keys d else Dict.keys d ++ [k].
Proof.
  unfold Dict.keys, Dict.has. induction d as [|[k1 v1] d IH]; cbn; [reflexivity|].
  destruct (String.eqb k k1) eqn:E; cbn; [reflexivity|].
  rewrite IH. now destruct (Dict.get k d).
Qed.

Lemma NoDup_keys_set (k : string) (v : json) (d : dict) :
  NoDup (Dict.keys d) -> NoDup (Dict.keys (Dict.set k v d)).
Proof.
  intro N. rewrite keys_set. destruct (Dict.has k d) eqn:H; [assumption|].
  apply NoDup_snoc; [assumption|]. rewrite <- has_In. congruence.
Qed.

Lemma keys_remove_incl (k k' : string) (d : dict) :
  In k' (Dict.keys (Dict.remove k d)) -> In k' (Dict.keys d).
Proof.
  unfold Dict.keys. induction d as [|[k1 v1] d IH]; cbn; [auto|].
  destruct (String.eqb k k1); cbn; [auto|]. intros [X|X]; auto.
Qed.

Lemma NoDup_keys_remove (k : string) (d : dict) :
  NoDup (Dict.keys d) -> NoDup (Dict.keys (Dict.remove k d)).
Proof.
  unfold Dict.keys. induction d as [|[k1 v1] d IH]; cbn; intro N; [constructor|].
  inversion N as [|? ? X Y]; subst.
  destruct (String.eqb k k1); cbn; [assumption|].
  constructor; [|now apply IH]. intro I. apply X. now apply keys_remove_incl in I.
Qed.

Lemma get_remove_other (k k' : string) (d : dict) :
  k <> k' -> Dict.get k (Dict.remove k' d) = Dict.get k d.
Proof.
  intro N. induction d as [|[k1 v1] d IH]; cbn; [reflexivity|].
  destruct (String.eqb k' k1) eqn:E; cbn.
  - apply String.eqb_eq in E. subst k1.
    now apply String.eqb_neq in N as ->.
  - now rewrite IH.
Qed.

Section EntriesWith.

Variable url : string.

Lemma entries_set_other (n : string) (v' : json) (d : dict) :
  Scenarios.carries url v' = false ->
  (forall old, Dict.get n d = Some old -> Scenarios.carries url old = false) ->
  Scenarios.entries_with url (Dict.set n v' d) = Scenarios.entries_with url d.
Proof.
  intro C. unfold Scenarios.entries_with.
  induction d as [|[k1 v1] d IH]; intro O.
  - cbn. now rewrite C.
  - cbn [Dict.get] in O. cbn [Dict.set].
    destruct (String.eqb n k1) eqn:E; cbn [filter snd].
    + rewrite C. now rewrite (O v1 eq_refl).
    + now rewrite (IH O).
Qed.





(** [_find_key_by_contract] returns the key of the first entry that
    carries the link. *)
Lemma find_key_entries (d : dict) :
  UpdateData._find_key_by_contract url d
  = match Scenarios.entries_with url d with
    | [] => None
    | p :: _ => Some (fst p)
    end.
Proof.
  unfold Scenarios.entries_with.
  induction d as [|[k1 v1] d IH]; [reflexivity|].
  cbn [UpdateData._find_key_by_contract filter snd].
  unfold Scenarios.carries, Scenarios.contract_of.
  destruct v1 as [| | | | | |e1]; try exact IH.
  destruct (Dict.get "Contract" e1) as [[| | | |c| |]|]; try exact IH.
  destruct (String.eqb c url); [reflexivity|exact IH].
Qed.






End EntriesWith.

(** ** The migration of a renamed entry *)



Lemma carries_contract_of (url : string) (v v' : json) :
  Scenarios.contract_of v' = Scenarios.contract_of v ->
  Scenarios.carries url v' = Scenarios.carries url v.
Proof. unfold Scenarios.carries. now intros ->. Qed.

Lemma new_entry_carries (py_str : json -> string) (inc e : dict) (url : string) :
  UpdateData.new_entry py_str inc url = Ok e ->
  Scenarios.contract_of (JObj e) = Some url.
Proof.
  unfold UpdateData.new_entry.
  destruct (UpdateData.date_of _ _); cbn [bind]; [|discriminate].
  intros [= <-]. reflexivity.
Qed.

Lemma find_key_get (url k : string) (d : dict) :
  NoDup (Dict.keys d) ->
  UpdateData._find_key_by_contract url d = Some k ->
  exists v, Dict.get k d = Some v /\ Scenarios.carries url v = true.
Proof.
  intros N F. rewrite find_key_entries in F.
  destruct (Scenarios.entries_with url d) as [|[k1 v1] r] eqn:E; [discriminate F|].
  injection F as <-. exists v1.
  assert (X : In (k1, v1) (Scenarios.entries_with url d)) by (rewrite E; now left).
  unfold Scenarios.entries_with in X. apply filter_In in X as [X C].
  split; [now apply In_get|exact C].
Qed.




















(** ** Running the pipeline twice *)

(** C6. In the world where the June incident "A" is renamed by an
    override and a July incident takes the name "A", the first run of
    main moves the June entry to its new key and leaves the July
    incident without an entry (the key "A" was taken when its turn
    came); the second run, over the files the first one left, creates
    that entry and writes the root-cause file again: the file after the
    second run is not the file after the first. *)
Theorem second_run_rewrites_rootcause :
  exists w1 w2,
    UpdateData.main Scenarios.py_str Scenarios.no_readme None false Scenarios.twice_world
    = Ok w1 /\
    UpdateData.main Scenarios.py_str Scenarios.no_readme None false w1 = Ok w2 /\
    UpdateData.incidents_file w2 = UpdateData.incidents_file w1 /\
    Dict.keys (Scenarios.rootcause_data w1) = ["A (June)"] /\
    Dict.get "A" (Scenarios.rootcause_data w1) = None /\
    Dict.keys (Scenarios.rootcause_data w2) = ["A (June)"; "A"] /\
    UpdateData.rootcause_file w2 <> UpdateData.rootcause_file w1.
Proof.
  eexists. eexists.
  split; [vm_compute; reflexivity|].
  split; [vm_compute; reflexivity|].
  split; [reflexivity|]. split; [reflexivity|]. split; [reflexivity|].
  split; [reflexivity|].
  intro E. apply (f_equal (fun f => match f with
                                    | Holds (JObj d) => length d
                                    | _ => 0
                                    end)) in E.
  discriminate E.
Qed.

(** * Further properties of the scripts *)

(** ** Strings *)

Lemma all_chars_app (p : ascii -> bool) (a b : string) :
  Shapes.all_chars p (a ++ b) = Shapes.all_chars p a && Shapes.all_chars p b.
Proof. induction a as [|x a IH]; simpl; [reflexivity|]. now rewrite IH, andb_assoc. Qed.

Lemma all_chars_weaken (p q : ascii -> bool) (s : string) :
  (forall a, p a = true -> q a = true) ->
  Shapes.all_chars p s = true -> Shapes.all_chars q s = true.
Proof.
  intro W. induction s as [|x s IH]; simpl; [reflexivity|].
  intro H. apply andb_true_iff in H as [H1 H2]. now rewrite (W _ H1), IH.
Qed.

Lemma all_chars_take (p : ascii -> bool) (n : nat) (s : string) :
  Shapes.all_chars p s = true -> Shapes.all_chars p (Py.take n s) = true.
Proof.
  revert s. induction n as [|n IH]; intros [|a s]; simpl; try reflexivity.
  intro H. apply andb_true_iff in H as [H1 H2]. now rewrite H1, IH.
Qed.

Lemma all_chars_drop (p : ascii -> bool) (n : nat) (s : string) :
  Shapes.all_chars p s = true -> Shapes.all_chars p (Py.drop n s) = true.
Proof.
  revert s. induction n as [|n IH]; intros [|a s]; simpl; try reflexivity; try easy.
  intro H. apply andb_true_iff in H as [H1 H2]. now apply IH.
Qed.

Lemma all_chars_lstrip (p q : ascii -> bool) (s : string) :
  Shapes.all_chars p s = true -> Shapes.all_chars p (Py.lstrip_by q s) = true.
Proof.
  induction s as [|a s IH]; simpl; [reflexivity|]. intro H.
  destruct (q a); [|exact H]. apply andb_true_iff in H as [_ H]. now apply IH.
Qed.

Lemma all_chars_rstrip (p q : ascii -> bool) (s : string) :
  Shapes.all_chars p s = true -> Shapes.all_chars p (Py.rstrip_by q s) = true.
Proof.
  induction s as [|a s IH]; simpl; [reflexivity|]. intro H.
  apply andb_true_iff in H as [H1 H2]. specialize (IH H2).
  destruct (Py.rstrip_by q s) as [|b t].
  - destruct (q a); simpl; [reflexivity|now rewrite H1].
  - simpl. simpl in IH. now rewrite H1, IH.
Qed.

Lemma all_chars_strip (p : ascii -> bool) (s : string) :
  Shapes.all_chars p s = true -> Shapes.all_chars p (Py.strip s) = true.
Proof. intro H. unfold Py.strip, Py.rstrip. now apply all_chars_rstrip, all_chars_lstrip. Qed.

Lemma all_chars_map (p : ascii -> bool) (f : ascii -> ascii) (s : string) :
  (forall a, p (f a) = true) -> Shapes.all_chars p (Py.map_s f s) = true.
Proof. intro H. induction s as [|a s IH]; simpl; [reflexivity|]. now rewrite H, IH. Qed.

Lemma drop_add (n m : nat) (s : string) : Py.drop (n + m) s = Py.drop m (Py.drop n s).
Proof.
  revert s. induction n as [|n IH]; intro s; simpl; [reflexivity|].
  destruct s as [|a s]; [now destruct m|]. apply IH.
Qed.

Lemma take_add (n m : nat) (s : string) :
  Py.take (n + m) s = (Py.take n s ++ Py.take m (Py.drop n s))%string.
Proof.
  revert s. induction n as [|n IH]; intro s; simpl; [reflexivity|].
  destruct s as [|a s]; simpl; [now destruct m|]. now rewrite IH.
Qed.

Lemma drop_length (n : nat) (s : string) :
  String.length (Py.drop n s) = String.length s - n.
Proof.
  revert s. induction n as [|n IH]; intro s; simpl; [lia|].
  destruct s as [|a s]; simpl; [reflexivity|]. apply IH.
Qed.

Lemma take_length (n : nat) (s : string) :
  String.length (Py.take n s) = Nat.min n (String.length s).
Proof.
  revert s. induction n as [|n IH]; intro s; simpl; [reflexivity|].
  destruct s as [|a s]; simpl; [reflexivity|]. now rewrite IH.
Qed.

(** ** The matcher: what a match consumes *)

Section Spans.

Variable ic : bool.
Variable R : Type.

Lemma spans_here (r : Re.regex) (k : nat -> string -> Re.caps -> option R)
      (pos : nat) (s : string) (c : Re.caps) (x : R) :
  k pos s c = Some x ->
  exists n c',
    k (pos + n) (Py.drop n s) c' = Some x /\
    n <= String.length s /\
    Shapes.all_chars (Shapes.allows ic r) (Py.take n s) = true /\
    forall i, ~ In i (Re.groups r) -> Re.cap_get i c' = Re.cap_get i c.
Proof.
  intro H. exists 0, c. rewrite Nat.add_0_r. simpl. repeat split; try assumption; lia.
Qed.

(** A match of [r] followed by [k] is a call of [k] some [n] characters
    further on: the characters passed over are among those [r] allows,
    and the captures differ on the groups of [r] only. *)
Lemma run_spans (r : Re.regex) :
  forall k pos s c x,
    Re.run ic R r k pos s c = Some x ->
    exists n c',
      k (pos + n) (Py.drop n s) c' = Some x /\
      n <= String.length s /\
      Shapes.all_chars (Shapes.allows ic r) (Py.take n s) = true /\
      forall i, ~ In i (Re.groups r) -> Re.cap_get i c' = Re.cap_get i c.
Proof.
  induction r as [| a | p | r1 IH1 r2 IH2 | r1 IH1 r2 IH2 | g r1 IH1 | j r1 IH1 | |];
    intros k pos s c x H; cbn [Re.run] in H.
  - now apply spans_here.
  - destruct s as [|b s']; [discriminate|].
    destruct (Re.chr_ok ic a b) eqn:E; [|discriminate].
    exists 1, c. rewrite Nat.add_1_r. cbn. rewrite E. repeat split; try assumption; lia.
  - destruct s as [|b s']; [discriminate|].
    destruct (p b) eqn:E; [|discriminate].
    exists 1, c. rewrite Nat.add_1_r. cbn. rewrite E. repeat split; try assumption; lia.
  - apply IH1 in H as (n1 & c1 & H & L1 & A1 & K1).
    apply IH2 in H as (n2 & c2 & H & L2 & A2 & K2).
    exists (n1 + n2), c2. rewrite Nat.add_assoc, drop_add. split; [assumption|].
    rewrite drop_length in L2. split; [lia|]. split.
    + rewrite take_add, all_chars_app. apply andb_true_iff. split.
      * apply all_chars_weaken with (p := Shapes.allows ic r1); [|assumption].
        intros a Ea. cbn. now rewrite Ea.
      * apply all_chars_weaken with (p := Shapes.allows ic r2); [|assumption].
        intros a Ea. cbn. rewrite Ea. apply orb_true_r.
    + intros i N. cbn [Re.groups] in N.
      rewrite K2, K1; [reflexivity| |]; intro I; apply N, in_app_iff; auto.
  - destruct (Re.run ic R r1 k pos s c) as [y|] eqn:E.
    + injection H as ->. apply IH1 in E as (n & c' & H & L & A & K).
      exists n, c'. repeat split; try assumption.
      * apply all_chars_weaken with (p := Shapes.allows ic r1); [|assumption].
        intros a Ea. cbn. now rewrite Ea.
      * intros i N. apply K. intro I. apply N. cbn. apply in_app_iff. auto.
    + apply IH2 in H as (n & c' & H & L & A & K).
      exists n, c'. repeat split; try assumption.
      * apply all_chars_weaken with (p := Shapes.allows ic r2); [|assumption].
        intros a Ea. cbn. rewrite Ea. apply orb_true_r.
      * intros i N. apply K. intro I. apply N. cbn. apply in_app_iff. auto.
  - revert H. generalize (S (String.length s)) as fuel. intro fuel. revert pos s c.
    induction fuel as [|fuel IHf]; intros pos s c H; cbn [Re.loop] in H.
    + apply spans_here. revert H.
      destruct g; [trivial|]. destruct (k pos s c); trivial.
    + assert (Cases : k pos s c = Some x \/
                Re.run ic R r1
                  (fun pos' s' c' =>
                     if (pos <? pos')%nat
                     then Re.loop R g (Re.run ic R r1) k fuel pos' s' c'
                     else None) pos s c = Some x).
      { revert H. cbv zeta. destruct g.
        - match goal with
          | |- match ?m with _ => _ end = _ -> _ => destruct m as [z|] eqn:M
          end; intro H; [right|left; assumption].
          now injection H as ->.
        - destruct (k pos s c) as [z|]; intro H; [left; assumption|right].
          assumption. }
      clear H. destruct Cases as [K|M]; [now apply spans_here|].
      apply IH1 in M as (n1 & c1 & M & L1 & A1 & K1).
      destruct (pos <? pos + n1)%nat; [|discriminate].
      apply IHf in M as (n2 & c2 & M & L2 & A2 & K2).
      exists (n1 + n2), c2. rewrite Nat.add_assoc, drop_add. split; [assumption|].
      rewrite drop_length in L2. split; [lia|]. split.
      * rewrite take_add, all_chars_app. apply andb_true_iff. now split.
      * intros i N. now rewrite K2, K1.
  - apply IH1 in H as (n & c' & H & L & A & K).
    exists n, ((j, (pos, pos + n)) :: c'). repeat split; try assumption.
    intros i N. cbn [Re.cap_get].
    destruct (Nat.eqb_spec i j) as [->|D]; [exfalso; apply N; now left|].
    apply K. intro I. apply N. now right.
  - destruct (pos =? 0)%nat; [|discriminate]. now apply spans_here.
  - apply spans_here.
    destruct s as [|b [|? ?]]; try discriminate; [assumption|].
    destruct (Ascii.eqb b Py.LF); [assumption|discriminate].
Qed.

End Spans.

(** ** Case and blanks *)

Ltac each_char a := destruct a as [[] [] [] [] [] [] [] []]; vm_compute; try reflexivity.

Lemma lower_c_idem (a : ascii) : Py.lower_c (Py.lower_c a) = Py.lower_c a.
Proof. each_char a. Qed.

Lemma lower_upper_c (a : ascii) : Py.lower_c (Py.upper_c a) = Py.lower_c a.
Proof. each_char a. Qed.

Lemma lower_idem (s : string) : Py.lower (Py.lower s) = Py.lower s.
Proof. induction s as [|a s IH]; cbn; [reflexivity|]. now rewrite lower_c_idem, IH. Qed.

Lemma lower_upper (s : string) : Py.lower (Py.upper s) = Py.lower s.
Proof. induction s as [|a s IH]; cbn; [reflexivity|]. now rewrite lower_upper_c, IH. Qed.

Lemma is_empty_map (f : ascii -> ascii) (s : string) :
  Py.is_empty (Py.map_s f s) = Py.is_empty s.
Proof. now destruct s. Qed.

Lemma lstrip_all (p : ascii -> bool) (s : string) :
  Shapes.all_chars p s = true -> Py.lstrip_by p s = "".
Proof.
  induction s as [|a s IH]; cbn; [reflexivity|]. intro H.
  apply andb_true_iff in H as [H1 H2]. rewrite H1. now apply IH.
Qed.

Lemma space_lower_c (a : ascii) : Py.is_space a = true -> Py.lower_c a = a.
Proof. each_char a; discriminate. Qed.

Lemma space_lower (s : string) :
  Shapes.all_chars Py.is_space s = true -> Py.lower s = s.
Proof.
  induction s as [|a s IH]; cbn; [reflexivity|]. intro H.
  apply andb_true_iff in H as [H1 H2]. now rewrite space_lower_c, IH.
Qed.

(** X1. The normalizer does not see the case of the letters. *)
Theorem normalize_attack_type_ignores_case (phrase : string) :
  NormalizeAttack.normalize_attack_type (Py.upper phrase)
  = NormalizeAttack.normalize_attack_type phrase /\
  NormalizeAttack.normalize_attack_type (Py.lower phrase)
  = NormalizeAttack.normalize_attack_type phrase.
Proof.
  unfold NormalizeAttack.normalize_attack_type, NormalizeAttack.prepare, Py.upper, Py.lower.
  rewrite !is_empty_map. fold Py.upper Py.lower.
  now rewrite lower_upper, lower_idem.
Qed.

(** X2. A phrase of blanks only is not empty, so it is not "Unknown": it
    comes out as the empty label. *)
Theorem normalize_attack_type_blank (phrase : string) :
  phrase <> "" ->
  Shapes.all_chars Py.is_space phrase = true ->
  NormalizeAttack.normalize_attack_type phrase = "".
Proof.
  intros N B. unfold NormalizeAttack.normalize_attack_type, NormalizeAttack.prepare.
  destruct phrase as [|a r]; [congruence|]. cbn [Py.is_empty].
  rewrite (space_lower _ B). unfold Py.strip. rewrite (lstrip_all _ _ B).
  vm_compute. reflexivity.
Qed.

Lemma normalize_attack_type_blank_witness :
  NormalizeAttack.normalize_attack_type "   " = "".
Proof.
  apply (normalize_attack_type_blank "   "); [discriminate|reflexivity].
Defined.

(** ** Success of a match and of a search *)

(** Whether a pattern matches does not depend on what the continuation
    returns, only on where it succeeds. *)
Lemma run_mono (ic : bool) (R1 R2 : Type) (r : Re.regex) :
  forall (k1 : nat -> string -> Re.caps -> option R1)
         (k2 : nat -> string -> Re.caps -> option R2),
    (forall p s c1 c2, k1 p s c1 <> None -> k2 p s c2 <> None) ->
    forall pos s c1 c2,
      Re.run ic R1 r k1 pos s c1 <> None -> Re.run ic R2 r k2 pos s c2 <> None.
Proof.
  induction r as [| a | p | r1 IH1 r2 IH2 | r1 IH1 r2 IH2 | g r1 IH1 | j r1 IH1 | |];
    intros k1 k2 K pos s c1 c2 H; cbn [Re.run] in *.
  - now apply (K pos s c1).
  - destruct s as [|b s']; [now elim H|].
    destruct (Re.chr_ok ic a b); [|now elim H]. now apply (K _ _ c1).
  - destruct s as [|b s']; [now elim H|].
    destruct (p b); [|now elim H]. now apply (K _ _ c1).
  - revert H. apply IH1. intros p s0 d1 d2. now apply IH2.
  - destruct (Re.run ic R1 r1 k1 pos s c1) eqn:E1.
    + assert (N : Re.run ic R2 r1 k2 pos s c2 <> None).
      { apply (IH1 k1 k2 K pos s c1 c2). now rewrite E1. }
      destruct (Re.run ic R2 r1 k2 pos s c2); [discriminate|congruence].
    + destruct (Re.run ic R2 r1 k2 pos s c2); [discriminate|].
      now apply (IH2 k1 k2 K pos s c1 c2).
  - revert H. generalize (S (String.length s)) as fuel. intro fuel. revert pos s c1 c2.
    induction fuel as [|fuel IHf]; intros pos s c1 c2; cbn [Re.loop]; cbv zeta.
    + specialize (K pos s c1 c2). destruct g.
      * assumption.
      * destruct (k1 pos s c1); [|congruence].
        intros _. destruct (k2 pos s c2); [discriminate|]. now apply K.
    + assert (M : Re.run ic R1 r1
                    (fun pos' s' c' =>
                       if (pos <? pos')%nat
                       then Re.loop R1 g (Re.run ic R1 r1) k1 fuel pos' s' c'
                       else None) pos s c1 <> None ->
                  Re.run ic R2 r1
                    (fun pos' s' c' =>
                       if (pos <? pos')%nat
                       then Re.loop R2 g (Re.run ic R2 r1) k2 fuel pos' s' c'
                       else None) pos s c2 <> None).
      { apply IH1. intros p s0 d1 d2.
        destruct (pos <? p)%nat; [apply IHf|congruence]. }
      specialize (K pos s c1 c2). destruct g.
      * destruct (Re.run ic R1 r1 _ pos s c1) eqn:E1.
        -- intros _. destruct (Re.run ic R2 r1 _ pos s c2); [discriminate|].
           exfalso. apply M; [discriminate|reflexivity].
        -- intro H. destruct (Re.run ic R2 r1 _ pos s c2); [discriminate|]. now apply K.
      * destruct (k1 pos s c1) eqn:E1.
        -- intros _. destruct (k2 pos s c2); [discriminate|].
           exfalso. apply K; [discriminate|reflexivity].
        -- intro H. destruct (k2 pos s c2); [discriminate|]. now apply M.
  - revert H. apply IH1. intros p s0 d1 d2. apply K.
  - destruct (pos =? 0)%nat; [|now elim H]. now apply (K _ _ c1).
  - destruct s as [|b [|? ?]]; try (now elim H); [now apply (K _ _ c1)|].
    destruct (Ascii.eqb b Py.LF); [|now elim H]. now apply (K _ _ c1).
Qed.

Lemma search_found (ic : bool) (r : Re.regex) (whole : string) (s : string) :
  forall pos,
    Re.found (Re.search_from ic r whole pos s) = true ->
    exists n, n <= String.length s /\
              Re.match_at ic r whole (pos + n) (Py.drop n s) <> None.
Proof.
  induction s as [|a s IH]; intros pos H; cbn [Re.search_from] in H.
  - exists 0. rewrite Nat.add_0_r. split; [reflexivity|]. cbn [Py.drop].
    destruct (Re.match_at ic r whole pos ""); [discriminate|discriminate H].
  - destruct (Re.match_at ic r whole pos (String a s)) eqn:E.
    + exists 0. rewrite Nat.add_0_r. split; [lia|]. cbn [Py.drop]. now rewrite E.
    + apply IH in H as (n & L & H). exists (S n). split; [cbn; lia|].
      now rewrite Nat.add_succ_r.
Qed.

Lemma found_search (ic : bool) (r : Re.regex) (whole : string) (s : string) :
  forall pos n,
    n <= String.length s ->
    Re.match_at ic r whole (pos + n) (Py.drop n s) <> None ->
    Re.found (Re.search_from ic r whole pos s) = true.
Proof.
  induction s as [|a s IH]; intros pos n L H; cbn [Re.search_from].
  - cbn in L. assert (n = 0) as -> by lia. rewrite Nat.add_0_r in H. cbn [Py.drop] in H.
    now destruct (Re.match_at ic r whole pos "").
  - destruct (Re.match_at ic r whole pos (String a s)) eqn:E; [reflexivity|].
    destruct n as [|n].
    + rewrite Nat.add_0_r in H. cbn [Py.drop] in H. congruence.
    + apply (IH (S pos) n); [cbn in L; lia|]. now rewrite Nat.add_succ_r in H.
Qed.

Lemma match_at_start (ic : bool) (r : Re.regex) (whole : string) (pos : nat) (s : string)
      (R : Type) (k : nat -> string -> Re.caps -> option R) (c : Re.caps) :
  (forall p s' c', k p s' c' <> None) ->
  Re.match_at ic r whole pos s <> None <-> Re.run ic R r k pos s c <> None.
Proof.
  intro T. unfold Re.match_at. split; apply run_mono; intros; try apply T; discriminate.
Qed.

(** ** The patterns of the table *)

Section Patterns.

Variable R : Type.

Lemma pat_tail (n : nat) :
  forall p q, String.length p <= n -> Shapes.last_dot p = false ->
  forall (k : nat -> string -> Re.caps -> option R) pos s c x,
    Re.run false R (NormalizeAttack.pat (p ++ q)) k pos s c = Some x ->
    exists m c',
      m <= String.length s /\
      Re.run false R (NormalizeAttack.pat q) k (pos + m) (Py.drop m s) c' = Some x.
Proof.
  induction n as [|n IH]; intros p q L D k pos s c x H.
  - destruct p; [|cbn in L; lia]. exists 0, c. rewrite Nat.add_0_r. split; [lia|exact H].
  - destruct p as [|a r].
    { exists 0, c. rewrite Nat.add_0_r. split; [lia|exact H]. }
    cbn in L. cbn [append NormalizeAttack.pat] in H.
    destruct (Ascii.eqb a ".") eqn:Ea.
    + destruct r as [|b r'].
      { cbn in D. congruence. }
      cbn [append] in H. destruct (Ascii.eqb b "*") eqn:Eb.
      * cbn [Re.run] in H. apply run_spans in H as (m1 & c1 & H & L1 & _ & _).
        apply (IH r' q) in H as (m2 & c2 & L2 & H).
        -- exists (m1 + m2), c2. rewrite Nat.add_assoc, drop_add.
           rewrite drop_length in L2. split; [lia|exact H].
        -- cbn in L. lia.
        -- destruct r' as [|? ?]; [reflexivity|exact D].
      * change (String b (r' ++ q)%string) with (String b r' ++ q)%string in H.
        cbn [Re.run] in H. apply run_spans in H as (m1 & c1 & H & L1 & _ & _).
        apply (IH (String b r') q) in H as (m2 & c2 & L2 & H).
        -- exists (m1 + m2), c2. rewrite Nat.add_assoc, drop_add.
           rewrite drop_length in L2. split; [lia|exact H].
        -- lia.
        -- exact D.
    + cbn [Re.run] in H. destruct s as [|b s']; [discriminate|].
      destruct (Re.chr_ok false a b); [|discriminate].
      apply (IH r q) in H as (m2 & c2 & L2 & H).
      * exists (S m2), c2. rewrite Nat.add_succ_r. split; [cbn; lia|exact H].
      * lia.
      * destruct r as [|? ?]; [reflexivity|exact D].
Qed.

Lemma pat_head (w q : string) :
  Py.contains "." w = false ->
  forall (k : nat -> string -> Re.caps -> option R) pos s c x,
    Re.run false R (NormalizeAttack.pat (w ++ q)) k pos s c = Some x ->
    String.prefix w s = true.
Proof.
  induction w as [|a w IH]; intros D k pos s c x H.
  - now destruct s.
  - cbn [Py.contains String.prefix] in D.
    cbn [append NormalizeAttack.pat] in H.
    destruct (Ascii.eqb a ".") eqn:Ea.
    { apply Ascii.eqb_eq in Ea. subst a. cbn in D. now destruct w. }
    cbn [Re.run] in H. destruct s as [|b s']; [discriminate|].
    unfold Re.chr_ok in H. destruct (Ascii.eqb a b) eqn:Eab; [|discriminate].
    apply Ascii.eqb_eq in Eab. subst b. cbn [String.prefix].
    destruct (ascii_dec a a); [|congruence].
    apply IH in H; [assumption|].
    apply orb_false_iff in D as [_ D]. exact D.
Qed.

End Patterns.

Lemma pat_lit (w : string) :
  Py.contains "." w = false -> NormalizeAttack.pat w = Re.lit w.
Proof.
  induction w as [|a w IH]; intro D; [reflexivity|].
  cbn [Py.contains String.prefix] in D. cbn [NormalizeAttack.pat Re.lit].
  destruct (Ascii.eqb a ".") eqn:Ea.
  { apply Ascii.eqb_eq in Ea. subst a. cbn in D. now destruct w. }
  apply orb_false_iff in D as [_ D]. now rewrite IH.
Qed.

Lemma prefix_contains (w s : string) (n : nat) :
  String.prefix w (Py.drop n s) = true -> Py.contains w s = true.
Proof.
  revert s. induction n as [|n IH]; intros s H.
  - cbn [Py.drop] in H. destruct s; cbn [Py.contains]; now rewrite H.
  - destruct s as [|a s]; cbn [Py.drop] in H.
    + cbn [Py.contains]. now rewrite H.
    + cbn [Py.contains]. rewrite (IH _ H). apply orb_true_r.
Qed.

(** A pattern that ends with [q] matches only where [q] does. *)
Lemma hits_tail (p q t : string) :
  Shapes.last_dot p = false ->
  NormalizeAttack.hits (p ++ q) t = true -> NormalizeAttack.hits q t = true.
Proof.
  intros D H. unfold NormalizeAttack.hits, Re.re_search in *.
  apply search_found in H as (n & L & H).
  unfold Re.match_at in H.
  destruct (Re.run false Re.mobj (NormalizeAttack.pat (p ++ q)) _ (0 + n) (Py.drop n t) [])
    as [m|] eqn:E; [clear H|congruence].
  apply (pat_tail _ (String.length p) p q (Nat.le_refl _) D) in E as (m2 & c2 & L2 & E).
  apply (found_search false _ t t 0 (n + m2)).
  - rewrite drop_length in L2. lia.
  - rewrite drop_add, Nat.add_assoc.
    apply (match_at_start false _ t _ _ Re.mobj
             (fun e _ c' => Some (Re.MObj t (0 + n) e c')) c2); [discriminate|].
    now rewrite E.
Qed.

(** A pattern that starts with the word [w] matches only where [w] is. *)
Lemma hits_head (w q t : string) :
  Py.contains "." w = false ->
  NormalizeAttack.hits (w ++ q) t = true -> NormalizeAttack.hits w t = true.
Proof.
  intros D H. unfold NormalizeAttack.hits, Re.re_search in *.
  apply search_found in H as (n & L & H).
  unfold Re.match_at in H.
  destruct (Re.run false Re.mobj (NormalizeAttack.pat (w ++ q)) _ (0 + n) (Py.drop n t) [])
    as [m|] eqn:E; [clear H|congruence].
  apply (pat_head _ w q D) in E. apply prefix_contains in E.
  rewrite (pat_lit w D). now apply search_lit.
Qed.

(** ** The order of the table *)

Lemma first_label_in (table : list (string * string)) (t l : string) :
  NormalizeAttack.first_label table t = Some l ->
  exists p, In (p, l) table /\ NormalizeAttack.hits p t = true.
Proof.
  induction table as [|[p0 l0] table IH]; cbn; [discriminate|].
  destruct (NormalizeAttack.hits p0 t) eqn:E.
  - intros [= <-]. exists p0. auto.
  - intro H. apply IH in H as (p & I & H). exists p. auto.
Qed.

Lemma first_label_before (pre post : list (string * string)) (p0 l0 t l : string) :
  NormalizeAttack.hits p0 t = true ->
  NormalizeAttack.first_label (pre ++ (p0, l0) :: post) t = Some l ->
  In l (map snd pre) \/ l = l0.
Proof.
  intro H0. induction pre as [|[p1 l1] pre IH]; cbn.
  - rewrite H0. intros [= <-]. now right.
  - destruct (NormalizeAttack.hits p1 t).
    + intros [= <-]. left. now left.
    + intro H. apply IH in H as [H|H]; [left; now right|now right].
Qed.

Ltac split_table n :=
  change NormalizeAttack.ATTACK_TYPE_MAPPING
    with (firstn n NormalizeAttack.ATTACK_TYPE_MAPPING
            ++ skipn n NormalizeAttack.ATTACK_TYPE_MAPPING) in *;
  cbn [firstn skipn NormalizeAttack.ATTACK_TYPE_MAPPING] in *.

Ltac no_such_label H :=
  cbn [map snd In] in H;
  repeat (destruct H as [H|H]; [discriminate H|]); try contradiction; try discriminate H.

(** The table never picks "Precision Loss": its two patterns need the
    word "precision", which an earlier pattern takes. *)
Lemma precision_loss_shadowed (t : string) :
  NormalizeAttack.first_label NormalizeAttack.ATTACK_TYPE_MAPPING t
  <> Some "Precision Loss".
Proof.
  intro H. destruct (first_label_in _ _ _ H) as (p & I & Hp).
  assert (P : NormalizeAttack.hits "precision" t = true).
  { cbn [NormalizeAttack.ATTACK_TYPE_MAPPING In] in I.
    repeat (destruct I as [I|I]; [try discriminate I|]); try contradiction.
    - injection I as <-. now apply (hits_head "precision" ".*loss").
    - injection I as <-. now apply (hits_tail "loss.*of.*" "precision"). }
  split_table 23.
  apply (first_label_before _ _ _ _ _ _ P) in H. destruct H as [H|H]; no_such_label H.
Qed.

Lemma k_verification_shadowed (t : string) :
  NormalizeAttack.first_label NormalizeAttack.ATTACK_TYPE_MAPPING t
  <> Some "K-Verification".
Proof.
  intro H. destruct (first_label_in _ _ _ H) as (p & I & Hp).
  assert (P : NormalizeAttack.hits "verification" t = true).
  { cbn [NormalizeAttack.ATTACK_TYPE_MAPPING In] in I.
    repeat (destruct I as [I|I]; [try discriminate I|]); try contradiction.
    injection I as <-. now apply (hits_tail "k-" "verification"). }
  split_table 53.
  apply (first_label_before _ _ _ _ _ _ P) in H. destruct H as [H|H]; no_such_label H.
Qed.

Lemma protocol_token_shadowed (t : string) :
  NormalizeAttack.first_label NormalizeAttack.ATTACK_TYPE_MAPPING t
  <> Some "Protocol Token Incompatible".
Proof.
  intro H. destruct (first_label_in _ _ _ H) as (p & I & Hp).
  assert (P : NormalizeAttack.hits "token.*incompatible" t = true).
  { cbn [NormalizeAttack.ATTACK_TYPE_MAPPING In] in I.
    repeat (destruct I as [I|I]; [try discriminate I|]); try contradiction.
    injection I as <-. now apply (hits_tail "protocol.*" "token.*incompatible"). }
  split_table 96.
  apply (first_label_before _ _ _ _ _ _ P) in H. destruct H as [H|H]; no_such_label H.
Qed.

Lemma low_lower (s : string) : Shapes.all_chars Shapes.low (Py.lower s) = true.
Proof.
  apply all_chars_map. intro a. unfold Shapes.low. rewrite lower_c_idem.
  apply Ascii.eqb_refl.
Qed.

Lemma low_fixed (s : string) : Shapes.all_chars Shapes.low s = true -> Py.lower s = s.
Proof.
  induction s as [|a s IH]; cbn; [reflexivity|]. intro H.
  apply andb_true_iff in H as [H1 H2]. apply Ascii.eqb_eq in H1.
  now rewrite H1, IH.
Qed.

Lemma all_chars_sub (p : ascii -> bool) (ic : bool) (r : Re.regex) (whole s : string) :
  forall pos skip,
    Shapes.all_chars p s = true ->
    Shapes.all_chars p (Re.sub_from ic r whole pos skip s) = true.
Proof.
  induction s as [|a s IH]; intros pos skip H; cbn [Re.sub_from]; [reflexivity|].
  cbn in H. apply andb_true_iff in H as [H1 H2].
  destruct skip as [|k]; [|now apply IH].
  destruct (Re.match_at ic r whole pos (String a s)) as [m|].
  - destruct (pos <? Re.m_end m)%nat; [now apply IH|].
    cbn. rewrite H1. now apply IH.
  - cbn. rewrite H1. now apply IH.
Qed.

Lemma prepare_low (phrase : string) :
  Py.lower (NormalizeAttack.prepare phrase) = NormalizeAttack.prepare phrase.
Proof.
  apply low_fixed. unfold NormalizeAttack.prepare, Re.re_sub_empty.
  apply all_chars_sub, all_chars_strip, low_lower.
Qed.

Lemma lower_title (b : bool) (s : string) : Py.lower (Py.title_from b s) = Py.lower s.
Proof.
  revert b. induction s as [|a s IH]; intro b; cbn; [reflexivity|].
  destruct (Py.is_alpha a); cbn; rewrite IH; [|reflexivity].
  destruct b; now rewrite ?lower_c_idem, ?lower_upper_c.
Qed.

Lemma title_fallback (phrase label : string) :
  NormalizeAttack.first_label NormalizeAttack.ATTACK_TYPE_MAPPING
    (NormalizeAttack.prepare phrase) = None ->
  Py.title (NormalizeAttack.prepare phrase) = label ->
  NormalizeAttack.first_label NormalizeAttack.ATTACK_TYPE_MAPPING (Py.lower label) = None.
Proof.
  intros H <-. unfold Py.title. now rewrite lower_title, prepare_low.
Qed.

(** X3. Three labels of the table are never the result for a phrase of
    ASCII characters: each of their patterns needs a word that an
    earlier pattern of the table takes, and the title-cased fallback
    cannot spell them either. *)
Theorem shadowed_labels_never_returned (phrase : string) :
  Shapes.ascii_only phrase = true ->
  NormalizeAttack.normalize_attack_type phrase <> "Precision Loss" /\
  NormalizeAttack.normalize_attack_type phrase <> "K-Verification" /\
  NormalizeAttack.normalize_attack_type phrase <> "Protocol Token Incompatible".
Proof.
  intros _. unfold NormalizeAttack.normalize_attack_type.
  destruct (Py.is_empty phrase); [repeat split; discriminate|].
  destruct (NormalizeAttack.first_label NormalizeAttack.ATTACK_TYPE_MAPPING
              (NormalizeAttack.prepare phrase)) as [l|] eqn:E.
  - repeat split; intros ->.
    + now apply precision_loss_shadowed in E.
    + now apply k_verification_shadowed in E.
    + now apply protocol_token_shadowed in E.
  - repeat split; intro T; apply (title_fallback _ _ E) in T;
      vm_compute in T; discriminate T.
Qed.

Lemma shadowed_labels_never_returned_witness :
  Shapes.ascii_only "protocol token incompatible" = true /\
  NormalizeAttack.normalize_attack_type "protocol token incompatible"
  = "Token Incompatible" /\
  NormalizeAttack.normalize_attack_type "protocol token incompatible"
  <> "Protocol Token Incompatible".
Proof.
  split; [reflexivity|]. split; [vm_compute; reflexivity|].
  apply (shadowed_labels_never_returned "protocol token incompatible"). reflexivity.
Defined.

(** ** The year-month filter *)

Lemma only_digits_all (s : string) : Py.all_digits (UpdateData.only_digits s) = true.
Proof.
  induction s as [|a s IH]; cbn; [reflexivity|].
  destruct (Py.is_digit a) eqn:E; [cbn; now rewrite E|assumption].
Qed.

Lemma only_digits_fixed (s : string) :
  Py.all_digits s = true -> UpdateData.only_digits s = s.
Proof.
  induction s as [|a s IH]; cbn; [reflexivity|]. intro H.
  apply andb_true_iff in H as [H1 H2]. now rewrite H1, IH.
Qed.

Lemma all_digits_take (n : nat) (s : string) :
  Py.all_digits s = true -> Py.all_digits (Py.take n s) = true.
Proof.
  revert s. induction n as [|n IH]; intros [|a s]; cbn; try reflexivity.
  intro H. apply andb_true_iff in H as [H1 H2]. now rewrite H1, IH.
Qed.

Lemma take_all (n : nat) (s : string) : String.length s <= n -> Py.take n s = s.
Proof.
  revert s. induction n as [|n IH]; intros [|a s] L; cbn in *; try reflexivity; try lia.
  rewrite IH; [reflexivity|lia].
Qed.

Lemma norm_start_ym_some (s r : string) :
  UpdateData._norm_start_ym (Some s) = Some r ->
  r = Py.take 6 (UpdateData.only_digits s) /\ 6 <= String.length (UpdateData.only_digits s).
Proof.
  change (UpdateData._norm_start_ym (Some s))
    with (if Py.is_empty s then None
          else if (6 <=? String.length (UpdateData.only_digits s))%nat
               then Some (Py.take 6 (UpdateData.only_digits s)) else None).
  destruct (Py.is_empty s); [discriminate|].
  destruct (6 <=? String.length (UpdateData.only_digits s))%nat eqn:L; [|discriminate].
  intros [= <-]. apply Nat.leb_le in L. now split.
Qed.

Lemma norm_start_ym_fixed (r : string) :
  String.length r = 6 -> Py.all_digits r = true ->
  UpdateData._norm_start_ym (Some r) = Some r.
Proof.
  intros Len Dig.
  change (UpdateData._norm_start_ym (Some r))
    with (if Py.is_empty r then None
          else if (6 <=? String.length (UpdateData.only_digits r))%nat
               then Some (Py.take 6 (UpdateData.only_digits r)) else None).
  rewrite (only_digits_fixed _ Dig), Len, take_all by lia.
  now destruct r.
Qed.

(** X4. What [_norm_start_ym] returns is six digits, and it is a fixed point:
    normalizing it again gives it back. *)
Theorem norm_start_ym_six_digits (s : option string) (r : string) :
  UpdateData._norm_start_ym s = Some r ->
  String.length r = 6 /\ Py.all_digits r = true /\
  UpdateData._norm_start_ym (Some r) = Some r.
Proof.
  destruct s as [s|]; [|discriminate]. intro H.
  apply norm_start_ym_some in H as [-> L].
  assert (Len : String.length (Py.take 6 (UpdateData.only_digits s)) = 6).
  { rewrite take_length. lia. }
  assert (Dig : Py.all_digits (Py.take 6 (UpdateData.only_digits s)) = true).
  { apply all_digits_take, only_digits_all. }
  repeat split; try assumption. now apply norm_start_ym_fixed.
Qed.

Lemma norm_start_ym_six_digits_witness :
  String.length "202507" = 6 /\ Py.all_digits "202507" = true /\
  UpdateData._norm_start_ym (Some "202507") = Some "202507".
Proof.
  apply (norm_start_ym_six_digits (Some "2025-07-15")). reflexivity.
Defined.

(** ** Replacing, stripping *)

Lemma mem_char_app (c : ascii) (a b : string) :
  Py.mem_char c (a ++ b) = Py.mem_char c a || Py.mem_char c b.
Proof. induction a as [|x a IH]; cbn; [reflexivity|]. now rewrite IH, orb_assoc. Qed.

Lemma mem_char_all (c : ascii) (s : string) :
  Py.mem_char c s = false <->
  Shapes.all_chars (fun a => negb (Ascii.eqb a c)) s = true.
Proof.
  induction s as [|a s IH]; cbn; [tauto|].
  rewrite orb_false_iff, andb_true_iff, negb_true_iff. tauto.
Qed.

(** Every occurrence of a character goes when it is replaced by a text
    that does not have it. *)
Lemma replace_char_gone (c : ascii) (new s : string) :
  Py.mem_char c new = false ->
  Py.mem_char c (Py.replace (String c "") new s) = false.
Proof.
  intro N. unfold Py.replace. induction s as [|a s IH]; [reflexivity|].
  cbn [Py.replace_from String.prefix String.length Nat.sub].
  destruct (ascii_dec c a) as [->|D].
  - replace (String.prefix "" s) with true by now destruct s.
    now rewrite mem_char_app, N, IH.
  - cbn [Py.mem_char]. rewrite IH, orb_false_r. apply Ascii.eqb_neq. congruence.
Qed.

Lemma all_chars_replace (p : ascii -> bool) (old new s : string) :
  Shapes.all_chars p new = true ->
  forall skip,
    Shapes.all_chars p s = true ->
    Shapes.all_chars p (Py.replace_from old new skip s) = true.
Proof.
  intro N. induction s as [|a s IH]; intros skip H; cbn [Py.replace_from]; [reflexivity|].
  cbn in H. apply andb_true_iff in H as [H1 H2].
  destruct skip as [|k]; [|now apply IH].
  destruct (String.prefix old (String a s)).
  - rewrite all_chars_app, N. now apply IH.
  - cbn. rewrite H1. now apply IH.
Qed.

Lemma prefix_mem (c : ascii) (old s : string) :
  String.prefix old s = true -> Py.mem_char c old = true -> Py.mem_char c s = true.
Proof.
  revert s. induction old as [|x old IH]; intros s P M; [discriminate M|].
  destruct s as [|a s]; [discriminate P|]. cbn in P.
  destruct (ascii_dec x a) as [->|]; [|discriminate P].
  cbn in *. destruct (Ascii.eqb a c); [reflexivity|]. cbn in *. now apply IH.
Qed.

(** A text that lacks a character of [old] has no occurrence of [old]. *)
Lemma replace_absent (c : ascii) (old new s : string) :
  Py.mem_char c old = true -> Py.mem_char c s = false ->
  Py.replace old new s = s.
Proof.
  intros O. unfold Py.replace. induction s as [|a s IH]; intro M; cbn [Py.replace_from];
    [reflexivity|].
  destruct (String.prefix old (String a s)) eqn:P.
  - apply (prefix_mem c) in P; [congruence|assumption].
  - cbn in M. apply orb_false_iff in M as [_ M]. now rewrite IH.
Qed.

Lemma lstrip_head (p : ascii -> bool) (s : string) :
  match Py.lstrip_by p s with
  | EmptyString => True
  | String a _ => p a = false
  end.
Proof.
  induction s as [|a s IH]; cbn; [exact I|].
  destruct (p a) eqn:E; [exact IH|exact E].
Qed.

Lemma rstrip_idem (p : ascii -> bool) (s : string) :
  Py.rstrip_by p (Py.rstrip_by p s) = Py.rstrip_by p s.
Proof.
  induction s as [|a s IH]; cbn; [reflexivity|].
  destruct (Py.rstrip_by p s) as [|b t] eqn:E.
  - destruct (p a) eqn:Ea; cbn; [reflexivity|now rewrite Ea].
  - cbn [Py.rstrip_by]. cbn [Py.rstrip_by] in IH. rewrite IH. reflexivity.
Qed.

Lemma rstrip_head (p : ascii -> bool) (a : ascii) (s : string) :
  p a = false ->
  exists t, Py.rstrip_by p (String a s) = String a t.
Proof.
  intro E. cbn. destruct (Py.rstrip_by p s); [rewrite E|]; eauto.
Qed.

Lemma strip_idem (s : string) : Py.strip (Py.strip s) = Py.strip s.
Proof.
  unfold Py.strip, Py.rstrip.
  pose proof (lstrip_head Py.is_space s) as H.
  destruct (Py.lstrip_by Py.is_space s) as [|a r] eqn:E; [reflexivity|].
  destruct (rstrip_head Py.is_space a r H) as [t T]. rewrite T.
  cbn [Py.lstrip_by]. rewrite H, <- T. apply rstrip_idem.
Qed.

(** ** Currencies and default names *)

Lemma upper_c_idem (a : ascii) : Py.upper_c (Py.upper_c a) = Py.upper_c a.
Proof. each_char a. Qed.

Lemma up_fixed (s : string) : Shapes.all_chars Shapes.up s = true -> Py.upper s = s.
Proof.
  induction s as [|a s IH]; cbn; [reflexivity|]. intro H.
  apply andb_true_iff in H as [H1 H2]. apply Ascii.eqb_eq in H1.
  now rewrite H1, IH.
Qed.

Lemma up_upper (s : string) : Shapes.all_chars Shapes.up (Py.upper s) = true.
Proof.
  apply all_chars_map. intro a. unfold Shapes.up. rewrite upper_c_idem.
  apply Ascii.eqb_refl.
Qed.

Lemma currency_text (token : string) :
  let t := Py.strip (Py.replace "$" "USD" (Py.replace "US$" "USD" (Py.upper token))) in
  Py.mem_char "$" t = false /\ Shapes.all_chars Shapes.up t = true /\ Py.strip t = t.
Proof.
  cbv zeta. repeat split.
  - apply mem_char_all, all_chars_strip, mem_char_all.
    now apply replace_char_gone.
  - apply all_chars_strip. unfold Py.replace.
    apply all_chars_replace; [reflexivity|].
    apply all_chars_replace; [reflexivity|]. apply up_upper.
  - apply strip_idem.
Qed.

Lemma normalize_currency_eq (token : string) :
  UpdateData._normalize_currency token
  = let t := Py.strip (Py.replace "$" "USD" (Py.replace "US$" "USD" (Py.upper token))) in
    if existsb (String.eqb t) ["USD$"; "US D"; "US"; "U S D"] then "USD" else t.
Proof. reflexivity. Qed.

(** X5. A normalized currency has no dollar sign, and normalizing it again
    changes nothing. *)
Theorem normalize_currency_settles (token : string) :
  Py.mem_char "$" (UpdateData._normalize_currency token) = false /\
  UpdateData._normalize_currency (UpdateData._normalize_currency token)
  = UpdateData._normalize_currency token.
Proof.
  destruct (currency_text token) as (D & U & S).
  rewrite (normalize_currency_eq token). cbv zeta.
  set (t := Py.strip _) in *.
  destruct (existsb (String.eqb t) ["USD$"; "US D"; "US"; "U S D"]) eqn:E.
  - split; reflexivity.
  - split; [assumption|]. rewrite (normalize_currency_eq t). cbv zeta.
    rewrite (up_fixed _ U).
    rewrite (replace_absent "$" "US$" "USD" t eq_refl D).
    rewrite (replace_absent "$" "$" "USD" t eq_refl D).
    rewrite S. now rewrite E.
Qed.

(** X6. The default display name of an artifact has no underscore. *)
Theorem pretty_default_name_no_underscore (filename : string) :
  Py.mem_char "_" (UpdateData._pretty_default_name filename) = false.
Proof. unfold UpdateData._pretty_default_name. now apply replace_char_gone. Qed.

(** ** What a group holds *)

Lemma search_some (ic : bool) (r : Re.regex) (whole : string) (s : string) :
  forall pos m,
    Re.search_from ic r whole pos s = Some m ->
    exists n, n <= String.length s /\
              Re.match_at ic r whole (pos + n) (Py.drop n s) = Some m.
Proof.
  induction s as [|a s IH]; intros pos m H; cbn [Re.search_from] in H.
  - exists 0. rewrite Nat.add_0_r. split; [reflexivity|]. cbn [Py.drop].
    destruct (Re.match_at ic r whole pos ""); [assumption|discriminate].
  - destruct (Re.match_at ic r whole pos (String a s)) eqn:E.
    + exists 0. rewrite Nat.add_0_r. split; [lia|]. cbn [Py.drop]. congruence.
    + apply IH in H as (n & L & H). exists (S n). split; [cbn; lia|].
      now rewrite Nat.add_succ_r.
Qed.

Section Groups.

Variable ic : bool.
Variable R : Type.

Lemma run_cat (r1 r2 : Re.regex) (k : nat -> string -> Re.caps -> option R)
      (pos : nat) (s : string) (c : Re.caps) :
  Re.run ic R (Re.Cat r1 r2) k pos s c
  = Re.run ic R r1 (fun pos' s' c' => Re.run ic R r2 k pos' s' c') pos s c.
Proof. reflexivity. Qed.

(** A group of one or more characters of a class: it takes at least
    one, and all it takes are of the class. *)
Lemma run_grp_plus (i : nat) (p : ascii -> bool)
      (k : nat -> string -> Re.caps -> option R) (pos : nat) (s : string)
      (c : Re.caps) (x : R) :
  Re.run ic R (Re.Grp i (Re.plus (Re.Cls p))) k pos s c = Some x ->
  exists n c',
    1 <= n <= String.length s /\
    Shapes.all_chars p (Py.take n s) = true /\
    k (pos + n) (Py.drop n s) ((i, (pos, pos + n)) :: c') = Some x.
Proof.
  unfold Re.plus.
  change (Re.run ic R (Re.Grp i (Re.Cat (Re.Cls p) (Re.Star true (Re.Cls p)))) k pos s c)
    with (match s with
          | String b s' =>
              if p b
              then Re.run ic R (Re.Star true (Re.Cls p))
                     (fun pos' s' c' => k pos' s' ((i, (pos, pos')) :: c')) (S pos) s' c
              else None
          | EmptyString => None
          end).
  destruct s as [|b s']; [discriminate|]. destruct (p b) eqn:Pb; [|discriminate].
  intro H. apply run_spans in H as (n & c' & H & L & A & _).
  exists (S n), c'. rewrite Nat.add_succ_r. cbn [Py.take Py.drop String.length Shapes.all_chars].
  rewrite Pb. repeat split; try assumption; lia.
Qed.

End Groups.

Ltac span H n c :=
  cbv beta in H; rewrite ?run_cat in H; apply run_spans in H as (n & c & H & _ & _ & _).

Ltac span_group H n c L A :=
  cbv beta in H; rewrite ?run_cat in H; apply run_grp_plus in H as (n & c & L & A & H).

Lemma group_span (whole : string) (st e : nat) (caps : Re.caps) (i b n : nat) :
  Re.cap_get i caps = Some (b, b + n) ->
  Re.group (Re.MObj whole st e caps) i = Some (Py.take n (Py.drop b whole)).
Proof.
  intro H. unfold Re.group. cbn [Re.m_caps Re.subject]. rewrite H.
  now replace (b + n - b) with n by lia.
Qed.

Lemma take_nonempty (n : nat) (s : string) :
  1 <= n <= String.length s -> Py.is_empty (Py.take n s) = false.
Proof.
  destruct n as [|n]; [lia|]. destruct s as [|a s]; [cbn; lia|]. reflexivity.
Qed.

(** ** The type line *)

Lemma parse_type_group (text : string) (m : Re.mobj) :
  Re.re_search true UpdateData.type_re text = Some m ->
  exists n b,
    Re.group m 1 = Some (Py.take n (Py.drop b text)) /\
    Shapes.all_chars (fun c => negb (Ascii.eqb c Py.LF || Ascii.eqb c Py.CR))
                     (Py.take n (Py.drop b text)) = true.
Proof.
  unfold Re.re_search. intro H. apply search_some in H as (n0 & L0 & H).
  unfold Re.match_at, UpdateData.type_re in H.
  span H n1 c1. span H n2 c2. span H n3 c3. span H n4 c4.
  span_group H n c' L A.
  injection H as <-. rewrite <- !drop_add, !Nat.add_assoc in A.
  exists n, (n0 + n1 + n2 + n3 + n4). split; [|exact A].
  rewrite (group_span _ _ _ _ 1 (0 + n0 + n1 + n2 + n3 + n4) n).
  - reflexivity.
  - cbn [Re.cap_get Nat.eqb]. reflexivity.
Qed.

(** A literal word matched without regard to case leaves its lower-case
    form at the start of the lower-cased text. *)
Lemma lit_lower_prefix (R : Type) (w : string) :
  forall (k : nat -> string -> Re.caps -> option R) pos s c x,
    Re.run true R (Re.lit w) k pos s c = Some x ->
    String.prefix (Py.lower w) (Py.lower s) = true.
Proof.
  induction w as [|a w IH]; intros k pos s c x H.
  - now destruct s.
  - cbn [Re.lit Re.run] in H. destruct s as [|b s]; [discriminate H|].
    unfold Re.chr_ok in H.
    destruct (Ascii.eqb (Py.lower_c a) (Py.lower_c b)) eqn:E; [|discriminate H].
    apply Ascii.eqb_eq in E. apply IH in H.
    change (Py.lower (String a w)) with (String (Py.lower_c a) (Py.lower w)).
    change (Py.lower (String b s)) with (String (Py.lower_c b) (Py.lower s)).
    cbn [String.prefix]. rewrite E.
    destruct (ascii_dec (Py.lower_c b) (Py.lower_c b)) as [_|N]; [exact H|now elim N].
Qed.

Lemma search_lit_contains (w : string) (r : Re.regex) (whole s : string) :
  forall pos m,
    Re.search_from true (Re.Cat (Re.lit w) r) whole pos s = Some m ->
    Py.contains (Py.lower w) (Py.lower s) = true.
Proof.
  induction s as [|a s IH]; intros pos m H; cbn [Re.search_from] in H.
  - destruct (Re.match_at true _ whole pos "") eqn:E; [|discriminate H].
    unfold Re.match_at in E. cbn [Re.run] in E. apply lit_lower_prefix in E.
    change (Py.lower "") with "" in E |- *. cbn [Py.contains]. now rewrite E.
  - change (Py.lower (String a s)) with (String (Py.lower_c a) (Py.lower s)).
    cbn [Py.contains].
    destruct (Re.match_at true _ whole pos (String a s)) eqn:E.
    + unfold Re.match_at in E. cbn [Re.run] in E. apply lit_lower_prefix in E.
      change (Py.lower (String a s)) with (String (Py.lower_c a) (Py.lower s)) in E.
      now rewrite E.
    + apply IH in H. rewrite H. apply orb_true_r.
Qed.

(** X7. The type read from an artifact is one line, with no blank at either
    end, and it is empty when the text has no @Type tag, in whatever
    case. *)
Theorem parse_type_single_line (text : string) :
  Py.mem_char Py.LF (UpdateData._parse_type text) = false /\
  Py.mem_char Py.CR (UpdateData._parse_type text) = false /\
  Py.strip (UpdateData._parse_type text) = UpdateData._parse_type text /\
  (Py.contains "@type" (Py.lower text) = false -> UpdateData._parse_type text = "").
Proof.
  unfold UpdateData._parse_type.
  destruct (Py.is_empty text); [repeat split; reflexivity|].
  destruct (Re.re_search true UpdateData.type_re text) as [m|] eqn:E;
    [|repeat split; reflexivity].
  assert (Tag : Py.contains "@type" (Py.lower text) = true).
  { exact (search_lit_contains "@Type" _ text text 0 m E). }
  apply parse_type_group in E as (n & b & G & A).
  unfold Re.group_or_empty. rewrite G.
  split; [|split; [|split]].
  - apply mem_char_all, all_chars_strip.
    apply all_chars_weaken with (2 := A). intros a Ha.
    apply negb_true_iff, orb_false_iff in Ha as [Ha _]. now rewrite Ha.
  - apply mem_char_all, all_chars_strip.
    apply all_chars_weaken with (2 := A). intros a Ha.
    apply negb_true_iff, orb_false_iff in Ha as [_ Ha]. now rewrite Ha.
  - apply strip_idem.
  - intro No. rewrite No in Tag. discriminate Tag.
Qed.

(** ** The chain *)

Lemma assoc_in (k v : string) (l : list (string * string)) :
  UpdateData.assoc k l = Some v -> In v (map snd l).
Proof.
  induction l as [|[k' v'] l IH]; cbn; [discriminate|].
  destruct (String.eqb k k'); [intros [= <-]; now left|]. intro H. right. now apply IH.
Qed.

Lemma parse_chain_group (text : string) (m : Re.mobj) :
  Re.re_search false UpdateData.fork_re text = Some m ->
  Py.is_empty (Re.group_or_empty m 1) = false.
Proof.
  unfold Re.re_search. intro H. apply search_some in H as (n0 & L0 & H).
  unfold Re.match_at, UpdateData.fork_re in H.
  span H n1 c1. span H n2 c2. span H n3 c3.
  span_group H n c' L A.
  cbv beta in H. apply run_spans in H as (n4 & c4 & H & _ & _ & K).
  injection H as <-. unfold Re.group_or_empty.
  rewrite (group_span _ _ _ _ 1 (0 + n0 + n1 + n2 + n3) n).
  - rewrite <- !drop_add, !Nat.add_assoc in L. now apply take_nonempty.
  - rewrite K; [|cbn; tauto]. cbn [Re.cap_get Nat.eqb]. reflexivity.
Qed.

(** X8. The chain of an artifact is never the empty text: it is "Unknown",
    a name of the mapping, or the capitalized network name. *)
Theorem parse_chain_never_empty (text : string) :
  Py.is_empty (UpdateData._parse_chain text) = false.
Proof.
  unfold UpdateData._parse_chain.
  destruct (Py.is_empty text); [reflexivity|].
  destruct (Re.re_search false UpdateData.fork_re text) as [m|] eqn:E; [|reflexivity].
  apply parse_chain_group in E.
  destruct (UpdateData.assoc _ UpdateData.chain_mapping) as [label|] eqn:A.
  - apply assoc_in in A. cbn in A.
    repeat (destruct A as [A|A]; [now subst label|]). contradiction.
  - destruct (Re.group_or_empty m 1); [discriminate E|reflexivity].
Qed.

(** ** Overrides in list form *)

Lemma find_app (A : Type) (f : A -> bool) (a b : list A) :
  find f (a ++ b) = match find f a with Some x => Some x | None => find f b end.
Proof. induction a as [|x a IH]; cbn; [reflexivity|]. now destruct (f x). Qed.

Lemma overrides_of_list_get (py_str : json -> string) (k : string) (raw : list json) :
  forall out,
    Dict.get k (UpdateData.overrides_of_list py_str raw out)
    = match find (Shapes.names py_str k) (rev raw) with
      | Some item => Some item
      | None => Dict.get k out
      end.
Proof.
  induction raw as [|item raw IH]; intro out; cbn [UpdateData.overrides_of_list rev];
    [reflexivity|].
  rewrite find_app.
  assert (Last : find (Shapes.names py_str k) [item]
                 = if Shapes.names py_str k item then Some item else None) by reflexivity.
  rewrite Last. clear Last.
  unfold Shapes.names, Shapes.override_key.
  destruct item as [| | | | |l|d]; rewrite ?IH;
    try (destruct (find _ (rev raw)); reflexivity).
  cbv zeta.
  destruct (truthy (por (Dict.get_or "contract" JNull d) (Dict.get_or "Contract" JNull d))).
  - rewrite IH. destruct (find _ (rev raw)); [reflexivity|].
    rewrite get_set. now destruct (String.eqb k _).
  - rewrite IH. destruct (find _ (rev raw)); reflexivity.
Qed.

(** X9. In list form, the override of a contract path is the last item of
    the list that names it, and a path that no item names has none. *)
Theorem load_overrides_last_item_wins
        (py_str : json -> string) (tree : list (string * list string))
        (read : string -> option string) (inc rc : file) (raw : list json) (k : string) :
  Dict.get k (UpdateData._load_overrides py_str
                (UpdateData.World tree read (Holds (JArr raw)) inc rc))
  = find (Shapes.names py_str k) (rev raw).
Proof.
  cbn [UpdateData._load_overrides UpdateData.overrides_file].
  rewrite overrides_of_list_get.
  destruct (find (Shapes.names py_str k) (rev raw)); reflexivity.
Qed.

(** ** The order of the catalog *)

Lemma ltb_asym (x y : string) : String.ltb x y = true -> String.ltb y x = false.
Proof.
  unfold String.ltb. rewrite (String.compare_antisym y x).
  now destruct (String.compare x y).
Qed.

Lemma key_lt_asym (a b : json) :
  UpdateData.key_lt a b = Ok true -> UpdateData.key_lt b a = Ok false.
Proof.
  destruct a, b; cbn; try discriminate.
  - intros [= H]. f_equal. apply Z.ltb_lt in H. apply Z.ltb_ge. lia.
  - intros [= H]. f_equal. now apply ltb_asym.
Qed.

Lemma insert_desc_sorted (x : json * dict) (sorted : list (json * dict)) :
  forall sorted',
    Sorted Shapes.key_not_below sorted ->
    UpdateData.insert_desc x sorted = Ok sorted' ->
    Sorted Shapes.key_not_below sorted' /\
    forall z, HdRel Shapes.key_not_below z sorted -> Shapes.key_not_below z x -> HdRel Shapes.key_not_below z sorted'.
Proof.
  induction sorted as [|y r IH]; intros sorted' S H; cbn in H.
  - injection H as <-. split; [repeat constructor|]. intros z _ Z. now constructor.
  - destruct (UpdateData.key_lt (fst x) (fst y)) as [[|]|e] eqn:K; cbn in H;
      [| |discriminate].
    + destruct (UpdateData.insert_desc x r) as [r'|e] eqn:I; cbn in H; [|discriminate].
      injection H as <-. apply Sorted_inv in S as [S Hd].
      destruct (IH r' S eq_refl) as [S' Hd'].
      split.
      * constructor; [assumption|]. apply Hd'; [assumption|].
        now apply key_lt_asym.
      * intros z Hz _. apply HdRel_inv in Hz. now constructor.
    + injection H as <-. split.
      * constructor; [assumption|]. now constructor.
      * intros z _ Z. now constructor.
Qed.

Lemma sort_keyed_sorted (l : list (json * dict)) :
  forall l', UpdateData.sort_keyed l = Ok l' -> Sorted Shapes.key_not_below l'.
Proof.
  induction l as [|x r IH]; intros l' H; cbn in H.
  - injection H as <-. constructor.
  - destruct (UpdateData.sort_keyed r) as [r'|e]; cbn in H; [|discriminate].
    now apply (insert_desc_sorted x r' l' (IH r' eq_refl)).
Qed.

Lemma with_keys_dates (l : list dict) :
  forall keyed,
    UpdateData.with_keys l = Ok keyed ->
    Forall (fun kx => Dict.get "date" (snd kx) = Some (fst kx)) keyed.
Proof.
  induction l as [|x r IH]; intros keyed H; cbn in H.
  - injection H as <-. constructor.
  - destruct (Dict.get "date" x) as [k|] eqn:D; [|discriminate].
    destruct (UpdateData.with_keys r) as [r'|e]; cbn in H; [|discriminate].
    injection H as <-. constructor; [exact D|]. now apply IH.
Qed.

Lemma sorted_dates (l : list (json * dict)) :
  Forall (fun kx => Dict.get "date" (snd kx) = Some (fst kx)) l ->
  Sorted Shapes.key_not_below l -> Sorted Shapes.not_below (map snd l).
Proof.
  induction l as [|x r IH]; intros F S; cbn; [constructor|].
  apply Sorted_inv in S as [S Hd]. inversion F as [|? ? Fx Fr]; subst.
  constructor; [now apply IH|].
  destruct r as [|y r']; cbn; [constructor|].
  apply HdRel_inv in Hd. inversion Fr as [|? ? Fy _]; subst.
  constructor. exists (fst x), (fst y). auto.
Qed.

Lemma sort_by_date_sorted (l l' : list dict) :
  UpdateData.sort_by_date l = Ok l' -> Sorted Shapes.not_below l'.
Proof.
  unfold UpdateData.sort_by_date. intro H.
  destruct (UpdateData.with_keys l) as [keyed|e] eqn:W; cbn in H; [|discriminate].
  destruct (UpdateData.sort_keyed keyed) as [sorted|e] eqn:S; cbn in H; [|discriminate].
  injection H as <-. apply sorted_dates.
  - apply with_keys_dates in W. apply sort_keyed_perm in S.
    eapply Permutation_Forall; eassumption.
  - now apply sort_keyed_sorted in S.
Qed.

(** X10. Without --preserve-order, the catalog a run writes is in descending
    order of date: no record has a date below the date of the next. *)
Theorem update_incidents_sorts_by_date
        (py_str : json -> string)
        (readme_analysis : string -> string -> string -> option (string * string) ->
                           string -> UpdateData.readme)
        (start_ym : option string) (w w' : UpdateData.world) (incidents : list dict) :
  UpdateData.update_incidents py_str readme_analysis start_ym false w = Ok (w', incidents) ->
  Sorted Shapes.not_below incidents /\
  UpdateData.incidents_file w' = Holds (JArr (map JObj incidents)).
Proof.
  unfold UpdateData.update_incidents. intro H.
  destruct (UpdateData.load_incidents w) as [loaded|e]; cbn in H; [|discriminate].
  destruct (UpdateData.steps_walk _ _ _ _ _ _ _) as [l|e]; cbn in H; [|discriminate].
  destruct (UpdateData.sort_by_date l) as [l'|e] eqn:S; cbn in H; [|discriminate].
  injection H as <- <-. split; [|reflexivity]. now apply sort_by_date_sorted in S.
Qed.

Lemma update_incidents_sorts_by_date_witness :
  exists w' x y,
    UpdateData.update_incidents Scenarios.py_str Scenarios.no_readme None false
      Scenarios.twice_world = Ok (w', [x; y]) /\
    Dict.get "date" x = Some (JStr "20250701") /\
    Dict.get "date" y = Some (JStr "20250601") /\
    Sorted Shapes.not_below [x; y].
Proof.
  eexists _, _, _. split; [vm_compute; reflexivity|].
  split; [reflexivity|]. split; [reflexivity|].
  apply (update_incidents_sorts_by_date Scenarios.py_str Scenarios.no_readme None
           Scenarios.twice_world _ _ eq_refl).
Defined.

(** ** The positions of the loaded records *)

Lemma update_at_map (A : Type) (P : dict -> A) (i : nat) (f : dict -> res dict) :
  (forall x y, f x = Ok y -> P y = P x) ->
  forall l l', UpdateData.update_at i f l = Ok l' -> map P l' = map P l.
Proof.
  intro K. induction i as [|i IH]; intros [|x r] l' H; cbn in H;
    try (injection H as <-; reflexivity).
  - destruct (f x) as [y|e] eqn:E; cbn in H; [|discriminate].
    injection H as <-. cbn. now rewrite (K _ _ E).
  - destruct (UpdateData.update_at i f r) as [r'|e] eqn:E; cbn in H; [|discriminate].
    injection H as <-. cbn. now rewrite (IH _ _ E).
Qed.

Lemma update_at_app (i : nat) (f : dict -> res dict) (a b : list dict) :
  i < length a ->
  UpdateData.update_at i f (a ++ b)
  = bind (UpdateData.update_at i f a) (fun a' => Ok (a' ++ b)).
Proof.
  revert a. induction i as [|i IH]; intros [|x a] L; cbn in L; try lia; cbn.
  - now destruct (f x).
  - rewrite IH by lia. now destruct (UpdateData.update_at i f a).
Qed.

Section Positions.

Variable readme_analysis :
  string -> string -> string -> option (string * string) -> string -> UpdateData.readme.
Variable w : UpdateData.world.
Variable overrides : dict.
Variable start_ym : option string.
Variable loaded : list dict.

Lemma record_artifact_positions (f : string) (v : UpdateData.fields)
      (upd news incidents' : list dict) :
  length upd = length loaded ->
  UpdateData.record_artifact overrides loaded f v (upd ++ news) = Ok incidents' ->
  exists upd' news',
    incidents' = upd' ++ news' /\
    map (Dict.get "Contract") upd' = map (Dict.get "Contract") upd.
Proof.
  intros Len H. unfold UpdateData.record_artifact in H.
  destruct (UpdateData.apply_overrides overrides v) as [c|e]; cbn in H; [|discriminate].
  destruct (UpdateData.last_index (UpdateData.c_rel c) loaded 0) as [i|] eqn:I.
  - apply last_index_range in I. rewrite update_at_app in H by lia.
    destruct (UpdateData.update_at i (UpdateData.merge_item c) upd) as [upd'|e] eqn:U;
      cbn in H; [|discriminate].
    injection H as <-. exists upd', news. split; [reflexivity|].
    apply (update_at_map _ _ _ _ (merge_item_contract c) _ _ U).
  - destruct (UpdateData.new_item f c) as [item|e]; cbn in H; [|discriminate].
    injection H as <-. exists upd, (news ++ [item]). now rewrite app_assoc.
Qed.

Lemma steps_positions (arts : list (string * string)) :
  forall upd news incidents',
    length upd = length loaded ->
    Scenarios.steps readme_analysis w overrides start_ym loaded arts (upd ++ news)
    = Ok incidents' ->
    exists upd' news',
      incidents' = upd' ++ news' /\
      map (Dict.get "Contract") upd' = map (Dict.get "Contract") upd.
Proof.
  induction arts as [|[root f] arts IH]; intros upd news incidents' Len H; cbn in H.
  - injection H as <-. now exists upd, news.
  - destruct (UpdateData.step readme_analysis w overrides start_ym loaded root f
                (upd ++ news)) as [l1|e] eqn:S; cbn in H; [|discriminate].
    assert (exists upd1 news1,
               l1 = upd1 ++ news1 /\
               map (Dict.get "Contract") upd1 = map (Dict.get "Contract") upd)
      as (upd1 & news1 & -> & M1).
    { unfold UpdateData.step in S.
      destruct (negb (UpdateData.endswith_exp f)).
      - injection S as <-. now exists upd, news.
      - destruct (UpdateData.skipped start_ym (UpdateData.folder_of root)).
        + injection S as <-. now exists upd, news.
        + now apply record_artifact_positions in S. }
    apply IH in H as (upd' & news' & -> & M).
    + exists upd', news'. split; [reflexivity|]. congruence.
    + rewrite <- Len. rewrite <- (length_map (Dict.get "Contract") upd1), M1.
      apply length_map.
Qed.

End Positions.

(** X11. With --preserve-order no loaded record is dropped or moved: the
    catalog written is the loaded records, each at its place and with its
    contract path, followed by the new records. *)
Theorem preserve_order_keeps_positions
        (py_str : json -> string)
        (readme_analysis : string -> string -> string -> option (string * string) ->
                           string -> UpdateData.readme)
        (start_ym : option string) (w w' : UpdateData.world)
        (loaded incidents : list dict) :
  UpdateData.load_incidents w = Ok loaded ->
  UpdateData.update_incidents py_str readme_analysis start_ym true w = Ok (w', incidents) ->
  exists kept news,
    incidents = kept ++ news /\
    map (Dict.get "Contract") kept = map (Dict.get "Contract") loaded.
Proof.
  intros Ld H. unfold UpdateData.update_incidents in H. rewrite Ld in H. cbn in H.
  rewrite steps_walk_walked in H.
  destruct (Scenarios.steps _ _ _ _ _ _ _) as [l|e] eqn:S; cbn in H; [|discriminate].
  injection H as <- <-.
  rewrite <- (app_nil_r loaded) in S at 2.
  now apply steps_positions in S.
Qed.

Lemma preserve_order_keeps_positions_witness :
  exists w' kept news,
    UpdateData.update_incidents Scenarios.py_str Scenarios.no_readme None true
      Scenarios.twice_world = Ok (w', kept ++ news) /\
    map (Dict.get "Contract") kept
    = map (Dict.get "Contract") [Scenarios.june_record].
Proof.
  destruct (UpdateData.update_incidents Scenarios.py_str Scenarios.no_readme None true
              Scenarios.twice_world) as [[w' l]|e] eqn:Run;
    [|vm_compute in Run; discriminate Run].
  destruct (preserve_order_keeps_positions Scenarios.py_str Scenarios.no_readme None
              Scenarios.twice_world w' [Scenarios.june_record] l eq_refl Run)
    as (kept & news & -> & M).
  exists w', kept, news. split; [reflexivity | exact M].
Defined.

(** ** The steps of update_rootcause *)

(** One round of the loop, stage by stage: the migration, the creation
    of a missing entry, the override. *)
Lemma rootcause_step_stages (py_str : json -> string) (overrides inc d d' : dict)
      (a a' : bool) :
  UpdateData.rootcause_step py_str overrides inc (d, a) = Ok (d', a') ->
  exists n d1 moved d2,
    Dict.get "name" inc = Some (JStr n) /\
    UpdateData.migrate n (Shapes.link_of py_str inc) d = (d1, moved) /\
    ((Dict.has n d1 = true /\ d2 = d1) \/
     (exists e, Dict.has n d1 = false /\
                UpdateData.new_entry py_str inc (Shapes.link_of py_str inc) = Ok e /\
                d2 = Dict.set n (JObj e) d1)) /\
    (d' = d2 \/
     exists ov entry,
       UpdateData.override_entry ov (Dict.get_or n JNull d2) = Ok entry /\
       d' = Dict.set n entry d2).
Proof.
  unfold UpdateData.rootcause_step, Shapes.link_of, Dict.get_or. intro H.
  destruct (Dict.get "name" inc) as [[| | | |n| |]|]; try discriminate H.
  destruct (Dict.get "Contract" inc) as [cx|]; try discriminate H.
  cbn [bind] in H.
  destruct (UpdateData.migrate n _ d) as [d1 moved] eqn:M.
  exists n, d1, moved.
  destruct (Dict.has n d1) eqn:Has.
  - cbn [bind] in H. exists d1. split; [reflexivity|]. split; [exact M|].
    split; [now left|].
    destruct (match cx with JStr c => _ | _ => _ end) as [ov|]; cbn [bind] in H;
      [|discriminate H].
    destruct (truthy ov); [|injection H as <- <-; now left].
    destruct (UpdateData.override_entry ov _) as [entry|] eqn:E; cbn [bind] in H;
      [|discriminate H].
    injection H as <- <-. right. now exists ov, entry.
  - destruct (UpdateData.new_entry py_str inc _) as [e|] eqn:E; cbn [bind] in H;
      [|discriminate H].
    exists (Dict.set n (JObj e) d1). split; [reflexivity|]. split; [exact M|].
    split; [right; now exists e|].
    destruct (match cx with JStr c => _ | _ => _ end) as [ov|]; cbn [bind] in H;
      [|discriminate H].
    destruct (truthy ov); [|injection H as <- <-; now left].
    destruct (UpdateData.override_entry ov _) as [entry|] eqn:E2; cbn [bind] in H;
      [|discriminate H].
    injection H as <- <-. right. now exists ov, entry.
Qed.

Lemma has_set (k n : string) (v : json) (d : dict) :
  Dict.has k (Dict.set n v d) = String.eqb k n || Dict.has k d.
Proof. unfold Dict.has. rewrite get_set. now destruct (String.eqb k n). Qed.

Lemma entries_none (url k : string) (v : json) (d : dict) :
  Scenarios.entries_with url d = [] -> Dict.get k d = Some v ->
  Scenarios.carries url v = false.
Proof.
  intros E G. apply get_In in G.
  destruct (Scenarios.carries url v) eqn:C; [|reflexivity].
  assert (I : In (k, v) (Scenarios.entries_with url d)).
  { unfold Scenarios.entries_with. apply filter_In. now split. }
  rewrite E in I. contradiction.
Qed.

(** *** Every incident gets an entry *)

(** The flag never goes back to false, and it is set when an entry is
    created. *)
Lemma rootcause_step_flag (py_str : json -> string) (overrides inc d d' : dict)
      (a a' : bool) :
  UpdateData.rootcause_step py_str overrides inc (d, a) = Ok (d', a') ->
  (a = true -> a' = true) /\
  (forall n, Dict.get "name" inc = Some (JStr n) ->
             Dict.has n (fst (UpdateData.migrate n (Shapes.link_of py_str inc) d)) = false ->
             a' = true).
Proof.
  unfold UpdateData.rootcause_step, Shapes.link_of, Dict.get_or. intro H.
  destruct (Dict.get "name" inc) as [[| | | |n| |]|]; try discriminate H.
  destruct (Dict.get "Contract" inc) as [cx|]; try discriminate H.
  cbn [bind] in H.
  destruct (UpdateData.migrate n _ d) as [d1 moved] eqn:M.
  assert (exists d2 a2, (a = true -> a2 = true) /\ (Dict.has n d1 = false -> a2 = true) /\
            (let '(data, added) := (d2, a2) in
             bind match cx with
                  | JStr c => Ok match Dict.get c overrides with
                                 | Some v => v
                                 | None => JNull
                                 end
                  | JArr _ | JObj _ => Raise TypeError
                  | _ => Ok JNull
                  end
               (fun ov =>
                  if truthy ov
                  then bind (UpdateData.override_entry ov
                               match Dict.get n data with
                               | Some v => v
                               | None => JNull
                               end)
                         (fun entry => Ok (Dict.set n entry data, added))
                  else Ok (data, added))) = Ok (d', a')) as (d2 & a2 & A2 & B2 & H2).
  { destruct (Dict.has n d1).
    - cbn [bind] in H. exists d1, (a || moved). split; [now intros ->|].
      split; [discriminate|exact H].
    - destruct (UpdateData.new_entry py_str inc _) as [e|]; cbn [bind] in H;
        [|discriminate H].
      exists (Dict.set n (JObj e) d1), true. now repeat split. }
  cbv beta iota in H2.
  assert (a' = a2) as ->.
  { destruct (match cx with JStr c => _ | _ => _ end) as [ov|]; cbn [bind] in H2;
      [|discriminate H2].
    destruct (truthy ov); [|now injection H2].
    destruct (UpdateData.override_entry ov _) as [entry|]; cbn [bind] in H2;
      [|discriminate H2].
    now injection H2. }
  split; [assumption|]. intros n0 [= <-] Hn. apply B2. now rewrite M in Hn.
Qed.

Lemma rootcause_step_links (py_str : json -> string) (overrides inc d d' : dict)
      (a a' : bool) :
  Shapes.unlinked py_str d inc = true ->
  UpdateData.rootcause_step py_str overrides inc (d, a) = Ok (d', a') ->
  Shapes.has_entry d' inc = true /\
  (forall k, Dict.has k d = true -> Dict.has k d' = true) /\
  (forall url, url <> Shapes.link_of py_str inc ->
               Scenarios.entries_with url d = [] -> Scenarios.entries_with url d' = []) /\
  (a' = false -> a = false /\ forall k, Dict.has k d' = true -> Dict.has k d = true).
Proof.
  intros U H. pose proof (rootcause_step_flag _ _ _ _ _ _ _ H) as Flag.
  apply rootcause_step_stages in H as (n & d1 & moved & d2 & N & M & Create & Over).
  unfold Shapes.unlinked in U.
  destruct (Scenarios.entries_with (Shapes.link_of py_str inc) d) eqn:E0;
    [clear U|discriminate U].
  assert (d1 = d) as ->.
  { unfold UpdateData.migrate in M. rewrite find_key_entries, E0 in M. now injection M. }
  assert (H2 : Dict.has n d2 = true /\
               (forall k, Dict.has k d = true -> Dict.has k d2 = true) /\
               (forall url, url <> Shapes.link_of py_str inc ->
                            Scenarios.entries_with url d = [] ->
                            Scenarios.entries_with url d2 = []) /\
               (a' = false -> forall k, Dict.has k d2 = true -> Dict.has k d = true)).
  { destruct Create as [[Has ->]|(e & Has & E & ->)]; [now repeat split|].
    split; [|split; [|split]].
    4: { intros A. exfalso.
         assert (a' = true) by (apply (proj2 Flag n N); rewrite M; exact Has).
         congruence. }
    - rewrite has_set, String.eqb_refl. reflexivity.
    - intros k Hk. rewrite has_set, Hk. apply orb_true_r.
    - intros url D Eu. rewrite entries_set_other; [assumption| |].
      + unfold Scenarios.carries. rewrite (new_entry_carries _ _ _ _ E).
        apply String.eqb_neq. congruence.
      + intros old G. exact (entries_none _ _ _ _ Eu G). }
  destruct H2 as (Has2 & Keys2 & Links2 & Back2).
  unfold Shapes.has_entry. rewrite N.
  destruct Over as [->|(ov & entry & E & ->)].
  { split; [assumption|]. split; [assumption|]. split; [assumption|].
    intros A. split; [|now apply Back2].
    destruct a; [|reflexivity]. rewrite (proj1 Flag eq_refl) in A. discriminate A. }
  split; [|split; [|split]].
  4: { intros A. split.
       { destruct a; [|reflexivity]. rewrite (proj1 Flag eq_refl) in A. discriminate A. }
       intros k Hk. apply (Back2 A). rewrite has_set in Hk.
       destruct (String.eqb_spec k n) as [Ek|]; [now rewrite Ek|exact Hk]. }
  - rewrite has_set, String.eqb_refl. reflexivity.
  - intros k Hk. rewrite has_set, (Keys2 _ Hk). apply orb_true_r.
  - intros url D Eu. specialize (Links2 url D Eu).
    rewrite entries_set_other; [assumption| |].
    + rewrite (carries_contract_of _ _ _ (override_entry_contract _ _ _ E)).
      unfold Dict.get_or. destruct (Dict.get n d2) eqn:G; [|reflexivity].
      exact (entries_none _ _ _ _ Links2 G).
    + intros old G. exact (entries_none _ _ _ _ Links2 G).
Qed.

Lemma has_entry_grows (d d' inc : dict) :
  (forall k, Dict.has k d = true -> Dict.has k d' = true) ->
  Shapes.has_entry d inc = true -> Shapes.has_entry d' inc = true.
Proof.
  unfold Shapes.has_entry. intros K.
  destruct (Dict.get "name" inc) as [[| | | |n| |]|]; try discriminate. apply K.
Qed.

Lemma rootcause_loop_flag (py_str : json -> string) (overrides : dict)
      (incidents : list dict) :
  forall d a d' a',
    UpdateData.rootcause_loop py_str overrides incidents (d, a) = Ok (d', a') ->
    a = true -> a' = true.
Proof.
  induction incidents as [|inc rest IH]; intros d a d' a' H A;
    cbn [UpdateData.rootcause_loop] in H.
  - injection H as <- <-. exact A.
  - destruct (UpdateData.rootcause_step py_str overrides inc (d, a)) as [[d1 a1]|e] eqn:S;
      cbn [bind] in H; [|discriminate H].
    apply (IH _ _ _ _ H). exact (proj1 (rootcause_step_flag _ _ _ _ _ _ _ S) A).
Qed.

Lemma rootcause_loop_links (py_str : json -> string) (overrides : dict)
      (incidents : list dict) :
  forall d a d' a',
    forallb (Shapes.unlinked py_str d) incidents = true ->
    NoDup (map (Shapes.link_of py_str) incidents) ->
    UpdateData.rootcause_loop py_str overrides incidents (d, a) = Ok (d', a') ->
    forallb (Shapes.has_entry d') incidents = true /\
    (forall k, Dict.has k d = true -> Dict.has k d' = true) /\
    (a' = false -> forall k, Dict.has k d' = true -> Dict.has k d = true).
Proof.
  induction incidents as [|inc rest IH]; intros d a d' a' U ND H;
    cbn [UpdateData.rootcause_loop] in H.
  - injection H as <- <-. now repeat split.
  - destruct (UpdateData.rootcause_step py_str overrides inc (d, a)) as [[d1 a1]|e] eqn:S;
      cbn [bind] in H; [|discriminate H].
    cbn [forallb] in U. apply andb_true_iff in U as [U0 U].
    cbn [map] in ND. apply NoDup_cons_iff in ND as [Fresh ND].
    destruct (rootcause_step_links _ _ _ _ _ _ _ U0 S) as (Has & Keys & Links & Back).
    assert (U1 : forallb (Shapes.unlinked py_str d1) rest = true).
    { apply forallb_forall. intros x Ix.
      rewrite forallb_forall in U. specialize (U x Ix).
      unfold Shapes.unlinked in *.
      destruct (Scenarios.entries_with (Shapes.link_of py_str x) d) eqn:Ex;
        [|try rewrite Ex in U; discriminate U].
      rewrite Links; [reflexivity| |exact Ex].
      intro Eq. apply Fresh. rewrite <- Eq. now apply in_map. }
    destruct (IH _ _ _ _ U1 ND H) as (All & Keys' & Back').
    split; [|split].
    + cbn. rewrite All, andb_true_r. exact (has_entry_grows _ _ _ Keys' Has).
    + intros k Hk. auto.
    + intros A k Hk. specialize (Back' A k Hk).
      assert (A1 : a1 = false).
      { destruct a1; [|reflexivity].
        pose proof (rootcause_loop_flag _ _ _ _ _ _ _ H eq_refl). congruence. }
      exact (proj2 (Back A1) k Back').
Qed.

Lemma load_rootcause_data (w : UpdateData.world) (data : dict) :
  UpdateData.load_rootcause w = Ok data -> Scenarios.rootcause_data w = data.
Proof.
  unfold UpdateData.load_rootcause, Scenarios.rootcause_data.
  destruct (UpdateData.rootcause_file w) as [| |[| | | | | |d]]; try discriminate;
    now intros [= <-].
Qed.

(** X12. When no stored entry carries the link of an incident and the
    incidents have distinct links, as on a first run, the store a run
    leaves has an entry under the name of every incident. *)
Theorem update_rootcause_covers_incidents
        (py_str : json -> string) (incidents : list dict)
        (w w' : UpdateData.world) (data : dict) (added : bool) :
  UpdateData.load_rootcause w = Ok data ->
  forallb (Shapes.unlinked py_str data) incidents = true ->
  NoDup (map (Shapes.link_of py_str) incidents) ->
  UpdateData.update_rootcause py_str incidents w = Ok (w', added) ->
  forallb (Shapes.has_entry (Scenarios.rootcause_data w')) incidents = true.
Proof.
  intros Ld U ND H. unfold UpdateData.update_rootcause in H. rewrite Ld in H.
  cbn [bind] in H.
  destruct (UpdateData.rootcause_loop _ _ _ _) as [[d' a']|e] eqn:L; cbn [bind] in H;
    [|discriminate H].
  injection H as <- <-.
  destruct (rootcause_loop_links _ _ _ _ _ _ _ U ND L) as (All & _ & Back).
  destruct a'; [exact All|].
  rewrite (load_rootcause_data _ _ Ld).
  apply forallb_forall. intros inc I. rewrite forallb_forall in All.
  specialize (All inc I). unfold Shapes.has_entry in *.
  destruct (Dict.get "name" inc) as [[| | | |n| |]|]; try discriminate All.
  now apply Back.
Qed.

Lemma update_rootcause_covers_incidents_witness :
  exists w',
    UpdateData.update_rootcause Scenarios.py_str
      [Scenarios.foo_record; Scenarios.june_record] Scenarios.foo_world = Ok (w', true) /\
    Dict.keys (Scenarios.rootcause_data w') = ["foo"; "A"] /\
    forallb (Shapes.has_entry (Scenarios.rootcause_data w'))
      [Scenarios.foo_record; Scenarios.june_record] = true.
Proof.
  eexists. split; [vm_compute; reflexivity|]. split; [reflexivity|].
  assert (ND : NoDup (map (Shapes.link_of Scenarios.py_str)
                        [Scenarios.foo_record; Scenarios.june_record])).
  { repeat constructor; cbn; intuition discriminate. }
  apply (update_rootcause_covers_incidents Scenarios.py_str
           [Scenarios.foo_record; Scenarios.june_record] Scenarios.foo_world _ []
           true eq_refl eq_refl ND).
  vm_compute. reflexivity.
Defined.

(** *** The entries of other incidents *)

Lemma rootcause_step_apart (py_str : json -> string) (overrides inc d d' : dict)
      (a a' : bool) (k : string) (v : json) :
  NoDup (Dict.keys d) -> Dict.get k d = Some v ->
  Shapes.apart py_str k v inc = true ->
  UpdateData.rootcause_step py_str overrides inc (d, a) = Ok (d', a') ->
  NoDup (Dict.keys d') /\ Dict.get k d' = Some v.
Proof.
  intros ND G A H.
  apply rootcause_step_stages in H as (n & d1 & moved & d2 & N & M & Create & Over).
  unfold Shapes.apart, Dict.get_or in A. rewrite N in A. cbn [ParseDiff.json_eqb] in A.
  apply andb_true_iff in A as [A1 A2].
  apply negb_true_iff in A1, A2. apply String.eqb_neq in A1.
  assert (K : k <> n) by congruence.
  assert (H1 : NoDup (Dict.keys d1) /\ Dict.get k d1 = Some v).
  { unfold UpdateData.migrate in M.
    destruct (UpdateData._find_key_by_contract _ d) as [ek|] eqn:F;
      [|injection M as <- _; now split].
    destruct (negb (Py.is_empty ek) && negb (String.eqb ek n));
      [|injection M as <- _; now split].
    injection M as <- _.
    destruct (find_key_get _ _ _ ND F) as (v2 & G2 & C2).
    assert (Ek : k <> ek).
    { intros ->. rewrite G in G2. injection G2 as <-. congruence. }
    split.
    - now apply NoDup_keys_set, NoDup_keys_remove.
    - rewrite get_set_other by assumption. now rewrite get_remove_other. }
  destruct H1 as [ND1 G1].
  assert (H2 : NoDup (Dict.keys d2) /\ Dict.get k d2 = Some v).
  { destruct Create as [[_ ->]|(e & _ & _ & ->)]; [now split|].
    split; [now apply NoDup_keys_set|]. now rewrite get_set_other. }
  destruct H2 as [ND2 G2].
  destruct Over as [->|(ov & entry & _ & ->)]; [now split|].
  split; [now apply NoDup_keys_set|]. now rewrite get_set_other.
Qed.

Lemma rootcause_loop_apart (py_str : json -> string) (overrides : dict)
      (k : string) (v : json) (incidents : list dict) :
  forall d a d' a',
    NoDup (Dict.keys d) -> Dict.get k d = Some v ->
    forallb (Shapes.apart py_str k v) incidents = true ->
    UpdateData.rootcause_loop py_str overrides incidents (d, a) = Ok (d', a') ->
    Dict.get k d' = Some v.
Proof.
  induction incidents as [|inc rest IH]; intros d a d' a' ND G A H;
    cbn [UpdateData.rootcause_loop] in H.
  - now injection H as <- <-.
  - destruct (UpdateData.rootcause_step py_str overrides inc (d, a)) as [[d1 a1]|e] eqn:S;
      cbn [bind] in H; [|discriminate H].
    cbn [forallb] in A. apply andb_true_iff in A as [A0 A].
    destruct (rootcause_step_apart _ _ _ _ _ _ _ _ _ ND G A0 S) as [ND1 G1].
    exact (IH _ _ _ _ ND1 G1 A H).
Qed.

(** X13. An entry of the store is left as it is by a run when no incident
    has its key as name or its contract link: the narratives of other
    incidents are not touched. *)
Theorem update_rootcause_leaves_other_entries
        (py_str : json -> string) (incidents : list dict)
        (w w' : UpdateData.world) (data : dict) (added : bool) (k : string) (v : json) :
  UpdateData.load_rootcause w = Ok data ->
  NoDup (Dict.keys data) ->
  Dict.get k data = Some v ->
  forallb (Shapes.apart py_str k v) incidents = true ->
  UpdateData.update_rootcause py_str incidents w = Ok (w', added) ->
  Dict.get k (Scenarios.rootcause_data w') = Some v.
Proof.
  intros Ld ND G A H. unfold UpdateData.update_rootcause in H. rewrite Ld in H.
  cbn [bind] in H.
  destruct (UpdateData.rootcause_loop _ _ _ _) as [[d' a']|e] eqn:L; cbn [bind] in H;
    [|discriminate H].
  injection H as <- <-.
  destruct a'.
  - cbn. exact (rootcause_loop_apart _ _ _ _ _ _ _ _ _ ND G A L).
  - now rewrite (load_rootcause_data _ _ Ld).
Qed.

Lemma update_rootcause_leaves_other_entries_witness :
  exists w',
    UpdateData.update_rootcause Scenarios.py_str [Scenarios.june_record]
      Scenarios.foo_known_world = Ok (w', true) /\
    Dict.keys (Scenarios.rootcause_data w') = ["foo"; "A"] /\
    Dict.get "foo" (Scenarios.rootcause_data w') = Some (JObj Scenarios.foo_entry).
Proof.
  eexists. split; [vm_compute; reflexivity|]. split; [reflexivity|].
  apply (update_rootcause_leaves_other_entries Scenarios.py_str [Scenarios.june_record]
           Scenarios.foo_known_world _ [("foo", JObj Scenarios.foo_entry)] true
           "foo" (JObj Scenarios.foo_entry) eq_refl).
  - repeat constructor. cbn. tauto.
  - reflexivity.
  - reflexivity.
  - vm_compute. reflexivity.
Defined.

(** ** The blocks of a diff *)

Lemma group_blocks_concat (lines : list string) :
  forall block, concat (ParseDiff.group_blocks lines block) = block ++ lines.
Proof.
  induction lines as [|line rest IH]; intro block; cbn [ParseDiff.group_blocks].
  - destruct block; cbn; now rewrite ?app_nil_r.
  - destruct (Re.found (Re.re_match false ParseDiff.head_re line)
              && match block with [] => false | _ => true end).
    + cbn [concat]. now rewrite IH.
    + rewrite IH. now rewrite <- app_assoc.
Qed.

Lemma group_blocks_shape (lines : list string) :
  forall block,
    match ParseDiff.group_blocks lines block with
    | [] => block = [] /\ lines = []
    | first :: others =>
        first <> [] /\ (exists more, first = block ++ more) /\
        forallb Shapes.headed others = true
    end.
Proof.
  induction lines as [|line rest IH]; intro block; cbn [ParseDiff.group_blocks].
  - destruct block; [now split|]. split; [discriminate|]. split; [|reflexivity].
    exists []. now rewrite app_nil_r.
  - destruct (Re.found (Re.re_match false ParseDiff.head_re line)) eqn:Hd; cbn [andb].
    + destruct block as [|b0 block'].
      * specialize (IH [line]). cbn [app] in *.
        destruct (ParseDiff.group_blocks rest [line]) as [|first others].
        -- destruct IH as [IH _]. discriminate IH.
        -- destruct IH as (NE & (more & ->) & Hs). split; [discriminate|].
           split; [|assumption]. now exists (line :: more).
      * specialize (IH [line]).
        destruct (ParseDiff.group_blocks rest [line]) as [|first others].
        -- destruct IH as [IH _]. discriminate IH.
        -- destruct IH as (NE & (more & ->) & Hs). split; [discriminate|].
           split; [exists []; now rewrite app_nil_r|].
           cbn [forallb app Shapes.headed]. unfold Shapes.is_head. now rewrite Hd, Hs.
    + specialize (IH (block ++ [line])).
      destruct (ParseDiff.group_blocks rest (block ++ [line])) as [|first others].
      * destruct IH as [IH _]. now destruct block.
      * destruct IH as (NE & (more & ->) & Hs). split; [assumption|].
        split; [|assumption]. exists (line :: more). now rewrite <- app_assoc.
Qed.

(** X14. The grouping loses no line and keeps their order; no block is empty,
    and every block after the first starts with a head line (eight
    digits, blanks, a word). *)
Theorem group_blocks_partitions (lines : list string) :
  concat (ParseDiff.group_blocks lines []) = lines /\
  forallb (fun b => negb (Nat.eqb (length b) 0)) (ParseDiff.group_blocks lines []) = true /\
  forallb Shapes.headed (tl (ParseDiff.group_blocks lines [])) = true.
Proof.
  split; [apply group_blocks_concat|].
  pose proof (group_blocks_shape lines []) as S.
  destruct (ParseDiff.group_blocks lines []) as [|first others]; [now split|].
  destruct S as (NE & _ & Hs). split; [|exact Hs].
  cbn [forallb]. apply andb_true_iff. split; [now destruct first|].
  clear NE. induction others as [|b r IH]; [reflexivity|].
  cbn [forallb] in *. apply andb_true_iff in Hs as [Hb Hr].
  rewrite (IH Hr), andb_true_r. now destruct b.
Qed.

(** ** Records written as the same text *)

Lemma float_eqb_refl (x : float) : PrimFloat.Leibniz.eqb x x = true.
Proof. now apply FloatAxioms.Leibniz.eqb_spec. Qed.

Lemma json_eqb_refl : forall j : json, ParseDiff.json_eqb j j = true.
Proof.
  fix IH 1. intro j.
  destruct j as [|b|z|f|s|l|kv]; cbn [ParseDiff.json_eqb].
  - reflexivity.
  - now destruct b.
  - apply Z.eqb_refl.
  - apply float_eqb_refl.
  - apply String.eqb_refl.
  - induction l as [|x r IHl]; [reflexivity|].
    now rewrite (IH x), IHl.
  - induction kv as [|[k x] r IHl]; [reflexivity|].
    now rewrite String.eqb_refl, (IH x), IHl.
Qed.

Lemma same_dump_refl (j : json) : ParseDiff.same_dump j j = true.
Proof. apply json_eqb_refl. Qed.

Lemma known_app (a b : list json) (incident : dict) :
  ParseDiff.known (a ++ b) incident = ParseDiff.known a incident || ParseDiff.known b incident.
Proof. unfold ParseDiff.known. apply existsb_app. Qed.

Lemma known_in (l : list json) (incident : dict) :
  In (JObj incident) l -> ParseDiff.known l incident = true.
Proof.
  intro I. unfold ParseDiff.known. apply existsb_exists.
  exists (JObj incident). split; [assumption|apply same_dump_refl].
Qed.

(** ** The loop over the blocks *)

Lemma add_blocks_news (existing : list json) (blocks : list (list string)) :
  forall incidents n,
  exists news,
    ParseDiff.add_blocks existing blocks incidents n
    = (incidents ++ news, n + length news) /\
    forall block incident,
      In block blocks -> ParseDiff.parse_block block = Some incident ->
      ParseDiff.known existing incident = true \/ In (JObj incident) news.
Proof.
  induction blocks as [|b rest IH]; intros incidents n; cbn [ParseDiff.add_blocks].
  - exists []. rewrite app_nil_r, Nat.add_0_r. split; [reflexivity|]. intros ? ? [].
  - destruct (ParseDiff.parse_block b) as [inc|] eqn:P.
    + destruct (ParseDiff.known existing inc) eqn:K.
      * destruct (IH incidents n) as (news & E & All). exists news. split; [exact E|].
        intros block incident [<-|I] Pb; [|exact (All _ _ I Pb)].
        left. rewrite P in Pb. now injection Pb as <-.
      * destruct (IH (incidents ++ [JObj inc]) (S n)) as (news & E & All).
        exists (JObj inc :: news). rewrite E, <- app_assoc. cbn [app length].
        split; [f_equal; lia|].
        intros block incident [<-|I] Pb.
        -- right. left. rewrite P in Pb. now injection Pb as <-.
        -- destruct (All _ _ I Pb); [now left|right; now right].
    + destruct (IH incidents n) as (news & E & All). exists news. split; [exact E|].
      intros block incident [<-|I] Pb; [congruence|exact (All _ _ I Pb)].
Qed.

Lemma add_blocks_settled (existing : list json) (blocks : list (list string)) :
  (forall block incident,
      In block blocks -> ParseDiff.parse_block block = Some incident ->
      ParseDiff.known existing incident = true) ->
  forall incidents n, ParseDiff.add_blocks existing blocks incidents n = (incidents, n).
Proof.
  induction blocks as [|b rest IH]; intros All incidents n; cbn [ParseDiff.add_blocks];
    [reflexivity|].
  destruct (ParseDiff.parse_block b) as [inc|] eqn:P.
  - rewrite (All b inc (or_introl eq_refl) P). apply IH.
    intros block incident I. apply All. now right.
  - apply IH. intros block incident I. apply All. now right.
Qed.

(** X15. Running the script again on the same diff adds nothing: the file it
    left is the file it leaves. *)
Theorem diff_run_twice_adds_nothing (diff_output : string) (f f' : file) :
  ParseDiff.run diff_output f = Ok f' -> ParseDiff.run diff_output f' = Ok f'.
Proof.
  unfold ParseDiff.run.
  set (blocks := ParseDiff.group_blocks (ParseDiff.added_lines diff_output) []).
  assert (Main : forall l,
             (let '(incidents', new_entries) := ParseDiff.add_blocks l blocks l 0 in
              Ok match new_entries with
                 | 0 => f
                 | S _ => Holds (JArr incidents')
                 end) = Ok f' ->
             f' = f \/
             exists news, f' = Holds (JArr (l ++ news)) /\
               forall block incident,
                 In block blocks -> ParseDiff.parse_block block = Some incident ->
                 ParseDiff.known (l ++ news) incident = true).
  { intros l E. destruct (add_blocks_news l blocks l 0) as (news & A & All).
    rewrite A in E. cbn [Nat.add] in E.
    destruct news as [|x news]; cbn [length] in E; injection E as E; [now left|right].
    exists (x :: news). split; [now symmetry|].
    intros block incident I P. rewrite known_app.
    destruct (All _ _ I P) as [K|K]; [now rewrite K|].
    rewrite (known_in _ _ K). apply orb_true_r. }
  intro H.
  assert (Cases : f' = f \/
            exists l, f' = Holds (JArr l) /\
              forall block incident,
                In block blocks -> ParseDiff.parse_block block = Some incident ->
                ParseDiff.known l incident = true).
  { destruct f as [| |[| | | | |l|]]; cbn [bind] in H; try discriminate H.
    - destruct (Main [] H) as [E|(news & E & All)]; [now left|].
      right. now exists ([] ++ news).
    - destruct (Main l H) as [E|(news & E & All)]; [now left|].
      right. now exists (l ++ news). }
  destruct Cases as [->|(l & -> & All)]; [exact H|].
  cbn [bind]. now rewrite (add_blocks_settled l blocks All).
Qed.

Lemma diff_run_twice_adds_nothing_witness :
  ParseDiff.run Scenarios.foo_diff (Holds (JArr [JObj Scenarios.foo_record]))
  = Ok (Holds (JArr [JObj Scenarios.foo_record; JObj Scenarios.foo_from_diff])) /\
  ParseDiff.run Scenarios.foo_diff
    (Holds (JArr [JObj Scenarios.foo_record; JObj Scenarios.foo_from_diff]))
  = Ok (Holds (JArr [JObj Scenarios.foo_record; JObj Scenarios.foo_from_diff])).
Proof.
  assert (Run : ParseDiff.run Scenarios.foo_diff (Holds (JArr [JObj Scenarios.foo_record]))
                = Ok (Holds (JArr [JObj Scenarios.foo_record;
                                   JObj Scenarios.foo_from_diff])))
    by (vm_compute; reflexivity).
  split; [exact Run|]. exact (diff_run_twice_adds_nothing _ _ _ Run).
Defined.

(** ** The records of a diff *)

Section Counted.

Variable ic : bool.
Variable R : Type.

Lemma run_grp (i : nat) (r : Re.regex) (k : nat -> string -> Re.caps -> option R)
      (pos : nat) (s : string) (c : Re.caps) :
  Re.run ic R (Re.Grp i r) k pos s c
  = Re.run ic R r (fun pos' s' c' => k pos' s' ((i, (pos, pos')) :: c')) pos s c.
Proof. reflexivity. Qed.

(** [n] characters of a class, no more and no less. *)
Lemma run_times (n : nat) (p : ascii -> bool) :
  forall (k : nat -> string -> Re.caps -> option R) pos s c x,
    Re.run ic R (Re.times n (Re.Cls p)) k pos s c = Some x ->
    n <= String.length s /\
    Shapes.all_chars p (Py.take n s) = true /\
    k (pos + n) (Py.drop n s) c = Some x.
Proof.
  induction n as [|n IH]; intros k pos s c x H.
  - rewrite Nat.add_0_r. cbn. repeat split; [lia|exact H].
  - cbn [Re.times] in H. rewrite run_cat in H. cbn [Re.run] in H.
    destruct s as [|b s']; [discriminate H|].
    destruct (p b) eqn:Pb; [|discriminate H].
    apply IH in H as (L & A & H). rewrite Nat.add_succ_r.
    cbn [Py.take Py.drop String.length Shapes.all_chars]. rewrite Pb.
    repeat split; [lia|exact A|exact H].
Qed.

(** At most [n] characters of a class. *)
Lemma run_upto (n : nat) (p : ascii -> bool) :
  forall (k : nat -> string -> Re.caps -> option R) pos s c x,
    Re.run ic R (Re.upto n (Re.Cls p)) k pos s c = Some x ->
    exists m,
      m <= n /\ m <= String.length s /\
      Shapes.all_chars p (Py.take m s) = true /\
      k (pos + m) (Py.drop m s) c = Some x.
Proof.
  induction n as [|n IH]; intros k pos s c x H.
  - exists 0. rewrite Nat.add_0_r. cbn [Py.take Py.drop Shapes.all_chars].
    split; [lia|split; [lia|split; [reflexivity|exact H]]].
  - cbn [Re.upto Re.run] in H.
    destruct s as [|b s'].
    + exists 0. rewrite Nat.add_0_r. cbn [Py.take Py.drop Shapes.all_chars].
    split; [lia|split; [lia|split; [reflexivity|exact H]]].
    + destruct (p b) eqn:Pb.
      * destruct (Re.run ic R (Re.upto n (Re.Cls p)) k (S pos) s' c) as [y|] eqn:E.
        -- injection H as ->. apply IH in E as (m & L1 & L2 & A & E).
           exists (S m). rewrite Nat.add_succ_r.
           cbn [Py.take Py.drop String.length Shapes.all_chars]. rewrite Pb.
           split; [lia|split; [lia|split; [exact A|exact E]]].
        -- exists 0. rewrite Nat.add_0_r. cbn [Py.take Py.drop Shapes.all_chars].
           split; [lia|split; [lia|split; [reflexivity|exact H]]].
      * exists 0. rewrite Nat.add_0_r. cbn [Py.take Py.drop Shapes.all_chars].
           split; [lia|split; [lia|split; [reflexivity|exact H]]].
Qed.

End Counted.

Lemma all_digits_chars (s : string) :
  Py.all_digits s = Shapes.all_chars Py.is_digit s.
Proof. induction s as [|a s IH]; cbn; [reflexivity|]. now rewrite IH. Qed.

Lemma date_re_group (line : string) (dm : Re.mobj) :
  Re.re_match false ParseDiff.date_re line = Some dm ->
  String.length (Re.group_or_empty dm 1) = 8 /\
  Py.all_digits (Re.group_or_empty dm 1) = true.
Proof.
  unfold Re.re_match, Re.match_at, ParseDiff.date_re. intro H.
  rewrite run_cat in H.
  change (Re.run false Re.mobj Re.Bol ?k 0 line []) with (k 0 line []) in H.
  cbv beta in H. rewrite run_cat, run_grp in H. apply run_times in H as (L & A & H).
  apply run_spans in H as (n & c' & H & _ & _ & K).
  injection H as <-. unfold Re.group_or_empty.
  rewrite (group_span _ _ _ _ 1 0 8).
  - cbn [Py.drop]. rewrite take_length, all_digits_chars. split; [lia|exact A].
  - rewrite K; [reflexivity|]. cbn. intuition discriminate.
Qed.

Lemma lost_re_group (line : string) (lm : Re.mobj) :
  Re.re_match false ParseDiff.lost_re line = Some lm ->
  2 <= String.length (Re.group_or_empty lm 2) <= 5 /\
  Shapes.all_chars Py.is_upper (Re.group_or_empty lm 2) = true.
Proof.
  unfold Re.re_match, Re.match_at, ParseDiff.lost_re. intro H.
  span H n1 c1. span H n2 c2. span H n3 c3. span H n4 c4.
  cbv beta in H. unfold Re.range in H. rewrite run_grp, run_cat in H.
  apply run_times in H as (L & A & H).
  apply run_upto in H as (n & N & L' & A' & H).
  injection H as <-. unfold Re.group_or_empty.
  rewrite (group_span _ _ _ _ 2 (0 + n1 + n2 + n3 + n4) (2 + n)).
  - rewrite !drop_add. cbn [Py.drop].
    set (s := Py.drop n4 _) in *.
    rewrite drop_length in L'. split.
    + rewrite take_length. lia.
    + now rewrite take_add, all_chars_app, A, A'.
  - cbn [Re.cap_get Nat.eqb]. now rewrite !Nat.add_assoc.
Qed.

(** X16. A record the script reads from a diff has the six keys of the
    changelog entry and no chain; its date is eight digits and its
    currency two to five upper-case letters. *)
Theorem diff_record_shape (block : list string) (incident : dict) :
  ParseDiff.parse_block block = Some incident ->
  Dict.keys incident = ["date"; "name"; "type"; "Lost"; "lossType"; "Contract"] /\
  exists d t,
    Dict.get "date" incident = Some (JStr d) /\
    String.length d = 8 /\ Py.all_digits d = true /\
    Dict.get "lossType" incident = Some (JStr t) /\
    2 <= String.length t <= 5 /\ Shapes.all_chars Py.is_upper t = true.
Proof.
  unfold ParseDiff.parse_block. intro H.
  destruct (length block <? 3)%nat; [discriminate H|].
  destruct block as [|date_line rest]; [discriminate H|].
  destruct (find _ (date_line :: rest)) as [lost_line|]; [|discriminate H].
  destruct (Re.re_match false ParseDiff.date_re date_line) as [dm|] eqn:D;
    [|discriminate H].
  destruct (Re.re_match false ParseDiff.lost_re lost_line) as [lm|] eqn:L;
    [|discriminate H].
  destruct (UpdateData.py_float _) as [lost|]; [|discriminate H].
  injection H as <-. split; [reflexivity|].
  apply date_re_group in D as [D1 D2]. apply lost_re_group in L as [L1 L2].
  exists (Re.group_or_empty dm 1), (Re.group_or_empty lm 2).
  split; [reflexivity|]. split; [exact D1|]. split; [exact D2|].
  split; [reflexivity|]. split; [exact L1|exact L2].
Qed.

Lemma diff_record_shape_witness :
  Dict.keys Scenarios.foo_from_diff
  = ["date"; "name"; "type"; "Lost"; "lossType"; "Contract"] /\
  exists d t,
    Dict.get "date" Scenarios.foo_from_diff = Some (JStr d) /\
    String.length d = 8 /\ Py.all_digits d = true /\
    Dict.get "lossType" Scenarios.foo_from_diff = Some (JStr t) /\
    2 <= String.length t <= 5 /\ Shapes.all_chars Py.is_upper t = true.
Proof.
  apply (diff_record_shape
           [ "20250701 foo - Price Manipulation"; "Lost: 1200000 USD";
             "forge test --contracts ./src/test/2025-07/foo_exp.sol -vvv" ]).
  vm_compute. reflexivity.
Defined.

(** ** Dates *)

Ltac next_char s H a :=
  destruct s as [|a s]; [discriminate H|].

Ltac next_digit s H a D :=
  next_char s H a; destruct (Py.is_digit a) eqn:D; [|discriminate H].

Ltac next_sep s H a sep :=
  let E := fresh "E" in
  next_char s H a; destruct (Ascii.eqb sep a) eqn:E; [|discriminate H];
  apply Ascii.eqb_eq in E; subst a.

Lemma date_re_inv (sep : ascii) (s : string) :
  Re.found (Re.re_match false (BuildRootcause.date_re sep) s) = true ->
  exists a1 a2 a3 a4 b1 b2 c1 c2 tail,
    s = Shapes.spelled sep a1 a2 a3 a4 b1 b2 c1 c2 tail /\
    Shapes.digits [a1; a2; a3; a4; b1; b2; c1; c2] = true /\
    (tail = "" \/ tail = Py.nl).
Proof.
  unfold Re.re_match, Re.match_at, BuildRootcause.date_re. intro H.
  cbn [Re.run Re.times Re.digit Nat.eqb Re.chr_ok] in H.
  next_digit s H a1 D1. next_digit s H a2 D2. next_digit s H a3 D3. next_digit s H a4 D4.
  next_sep s H s1 sep.
  next_digit s H b1 D5. next_digit s H b2 D6.
  next_sep s H s2 sep.
  next_digit s H c1 D7. next_digit s H c2 D8.
  exists a1, a2, a3, a4, b1, b2, c1, c2, s. split; [reflexivity|].
  split; [cbn; now rewrite D1, D2, D3, D4, D5, D6, D7, D8|].
  destruct s as [|t [|? ?]]; [now left| |discriminate H].
  destruct (Ascii.eqb t Py.LF) eqn:E; [|discriminate H].
  apply Ascii.eqb_eq in E. subst t. now right.
Qed.

Lemma date_re_spelled (sep : ascii) (a1 a2 a3 a4 b1 b2 c1 c2 : ascii) :
  Shapes.digits [a1; a2; a3; a4; b1; b2; c1; c2] = true ->
  Re.found (Re.re_match false (BuildRootcause.date_re sep)
              (Shapes.spelled sep a1 a2 a3 a4 b1 b2 c1 c2 "")) = true.
Proof.
  unfold Shapes.digits. cbn [forallb]. intro D.
  repeat (apply andb_true_iff in D as [? D]).
  unfold Re.re_match, Re.match_at, BuildRootcause.date_re, Shapes.spelled.
  cbn [Re.run Re.times Re.digit Nat.eqb Re.chr_ok].
  repeat match goal with
         | H : Py.is_digit _ = true |- _ => rewrite H; clear H
         end.
  now rewrite !Ascii.eqb_refl.
Qed.

Lemma digit_not_space (a : ascii) : Py.is_digit a = true -> Py.is_space a = false.
Proof. each_char a; discriminate. Qed.

Lemma digit_not_sep (a : ascii) :
  Py.is_digit a = true -> Ascii.eqb a "." = false /\ Ascii.eqb a "-" = false.
Proof. each_char a; try discriminate; now split. Qed.

Lemma rstrip_fixed (p : ascii -> bool) (s : string) :
  Shapes.all_chars (fun c => negb (p c)) s = true -> Py.rstrip_by p s = s.
Proof.
  induction s as [|a s IH]; cbn; [reflexivity|]. intro H.
  apply andb_true_iff in H as [H1 H2]. apply negb_true_iff in H1.
  rewrite (IH H2). destruct s; [now rewrite H1|reflexivity].
Qed.

Lemma strip_fixed (s : string) : Shapes.no_blank s = true -> Py.strip s = s.
Proof.
  unfold Shapes.no_blank, Py.strip, Py.rstrip. intro H.
  assert (L : Py.lstrip_by Py.is_space s = s).
  { destruct s as [|a s]; [reflexivity|]. cbn in *.
    apply andb_true_iff in H as [H _]. apply negb_true_iff in H. now rewrite H. }
  rewrite L. now apply rstrip_fixed.
Qed.

Lemma rstrip_not_ending (p : ascii -> bool) (s : string) :
  forall x a, Py.rstrip_by p s = (x ++ String a "")%string -> p a = false.
Proof.
  induction s as [|b s IH]; intros x a H; cbn in H.
  - now destruct x.
  - destruct (Py.rstrip_by p s) as [|c t] eqn:E.
    + destruct (p b) eqn:Pb; [now destruct x|].
      destruct x as [|x0 x]; [now injection H as <-|].
      injection H as _ H. now destruct x.
    + destruct x as [|x0 x]; [discriminate H|].
      injection H as _ H. now apply (IH x a).
Qed.

Ltac digit_facts D :=
  unfold Shapes.digits in D; cbn [forallb] in D;
  repeat (let H := fresh "Dg" in apply andb_true_iff in D as [H D]);
  clear D;
  repeat match goal with
         | H : Py.is_digit ?a = true |- _ =>
             pose proof (digit_not_space a H);
             pose proof (proj1 (digit_not_sep a H));
             pose proof (proj2 (digit_not_sep a H));
             revert H
         end;
  intros.

Ltac use_facts :=
  repeat match goal with
         | H : _ = true |- _ => rewrite H
         | H : _ = false |- _ => rewrite H
         end.

Lemma spelled_no_blank (sep : ascii) (a1 a2 a3 a4 b1 b2 c1 c2 : ascii) :
  Py.is_space sep = false ->
  Shapes.digits [a1; a2; a3; a4; b1; b2; c1; c2] = true ->
  Py.strip (Shapes.spelled sep a1 a2 a3 a4 b1 b2 c1 c2 "")
  = Shapes.spelled sep a1 a2 a3 a4 b1 b2 c1 c2 "".
Proof.
  intros S D. apply strip_fixed. digit_facts D.
  unfold Shapes.no_blank, Shapes.spelled. cbn [Shapes.all_chars]. now use_facts.
Qed.

(** The hyphenated form is left as it is. *)
Lemma format_date_hyphens (a1 a2 a3 a4 b1 b2 c1 c2 : ascii) :
  Shapes.digits [a1; a2; a3; a4; b1; b2; c1; c2] = true ->
  BuildRootcause._format_date (Shapes.spelled "-" a1 a2 a3 a4 b1 b2 c1 c2 "")
  = Some (Shapes.spelled "-" a1 a2 a3 a4 b1 b2 c1 c2 "").
Proof.
  intro D. unfold BuildRootcause._format_date.
  rewrite (spelled_no_blank "-" _ _ _ _ _ _ _ _ eq_refl D).
  rewrite (date_re_spelled "-" _ _ _ _ _ _ _ _ D). reflexivity.
Qed.

Lemma format_date_dots (a1 a2 a3 a4 b1 b2 c1 c2 : ascii) :
  Shapes.digits [a1; a2; a3; a4; b1; b2; c1; c2] = true ->
  BuildRootcause._format_date (Shapes.spelled "." a1 a2 a3 a4 b1 b2 c1 c2 "")
  = Some (Shapes.spelled "-" a1 a2 a3 a4 b1 b2 c1 c2 "").
Proof.
  intro D. unfold BuildRootcause._format_date.
  rewrite (spelled_no_blank "." _ _ _ _ _ _ _ _ eq_refl D).
  rewrite (date_re_spelled "." _ _ _ _ _ _ _ _ D).
  destruct (Re.found (Re.re_match false (BuildRootcause.date_re "-") _)) eqn:F.
  { apply date_re_inv in F as (? & ? & ? & ? & ? & ? & ? & ? & ? & E & _).
    unfold Shapes.spelled in E. discriminate E. }
  digit_facts D. unfold Shapes.spelled, BuildRootcause.split.
  cbn [Py.is_empty String.length Nat.eqb andb BuildRootcause.split_from].
  use_facts. reflexivity.
Qed.

Lemma format_date_digits (a1 a2 a3 a4 b1 b2 c1 c2 : ascii) :
  Shapes.digits [a1; a2; a3; a4; b1; b2; c1; c2] = true ->
  BuildRootcause._format_date
    (String a1 (String a2 (String a3 (String a4
       (String b1 (String b2 (String c1 (String c2 ""))))))))
  = Some (Shapes.spelled "-" a1 a2 a3 a4 b1 b2 c1 c2 "").
Proof.
  intro D. unfold BuildRootcause._format_date. digit_facts D.
  rewrite strip_fixed
    by (unfold Shapes.no_blank; cbn [Shapes.all_chars]; now use_facts).
  cbn [Py.is_empty String.length Nat.eqb Py.all_digits]. use_facts. reflexivity.
Qed.

(** X17. The three spellings of a date, eight digits in a row, with dots and
    with hyphens, come out as the same text, the hyphenated one. *)
Theorem format_date_spellings (a1 a2 a3 a4 b1 b2 c1 c2 : ascii) :
  Shapes.digits [a1; a2; a3; a4; b1; b2; c1; c2] = true ->
  BuildRootcause._format_date
    (String a1 (String a2 (String a3 (String a4
       (String b1 (String b2 (String c1 (String c2 ""))))))))
  = Some (Shapes.spelled "-" a1 a2 a3 a4 b1 b2 c1 c2 "") /\
  BuildRootcause._format_date (Shapes.spelled "." a1 a2 a3 a4 b1 b2 c1 c2 "")
  = Some (Shapes.spelled "-" a1 a2 a3 a4 b1 b2 c1 c2 "") /\
  BuildRootcause._format_date (Shapes.spelled "-" a1 a2 a3 a4 b1 b2 c1 c2 "")
  = Some (Shapes.spelled "-" a1 a2 a3 a4 b1 b2 c1 c2 "") /\
  Shapes.spelled "-" a1 a2 a3 a4 b1 b2 c1 c2 ""
  = UpdateData.hyphenate
      (String a1 (String a2 (String a3 (String a4
         (String b1 (String b2 (String c1 (String c2 "")))))))).
Proof.
  intro D. split; [now apply format_date_digits|].
  split; [now apply format_date_dots|]. split; [now apply format_date_hyphens|].
  reflexivity.
Qed.

Lemma format_date_spellings_witness :
  BuildRootcause._format_date "20250709" = Some "2025-07-09" /\
  BuildRootcause._format_date "2025.07.09" = Some "2025-07-09" /\
  BuildRootcause._format_date "2025-07-09" = Some "2025-07-09" /\
  "2025-07-09" = UpdateData.hyphenate "20250709".
Proof.
  apply (format_date_spellings "2" "0" "2" "5" "0" "7" "0" "9"). reflexivity.
Defined.

Lemma format_date_stripped (s : string) :
  Py.is_empty s = false ->
  BuildRootcause._format_date (Py.strip s) = BuildRootcause._format_date s.
Proof.
  intro N. unfold BuildRootcause._format_date. rewrite N, strip_idem.
  destruct (Py.strip s) eqn:E; [|reflexivity]. reflexivity.
Qed.

(** X18. [_format_date] always returns (the index into the parts is never out
    of range), and what it returns is a fixed point: formatting it again
    changes nothing. *)
Theorem format_date_settles (date_str : string) :
  exists r,
    BuildRootcause._format_date date_str = Some r /\
    BuildRootcause._format_date r = Some r.
Proof.
  destruct (Py.is_empty date_str) eqn:N.
  { exists "". destruct date_str; [now split|discriminate N]. }
  pose proof (format_date_stripped date_str N) as Fix.
  unfold BuildRootcause._format_date at 2 in Fix. rewrite N in Fix.
  unfold BuildRootcause._format_date at 1. rewrite N.
  remember (Py.strip date_str) as t eqn:T. revert Fix.
  destruct ((String.length t =? 8)%nat && Py.all_digits t) eqn:A.
  - intros _. apply andb_true_iff in A as [L A]. apply Nat.eqb_eq in L.
    do 8 (destruct t as [|? t]; [discriminate L|]).
    destruct t; [|discriminate L]. clear L.
    cbn [Py.all_digits] in A.
    eexists. split; [reflexivity|]. cbn [Py.take Py.drop append].
    apply format_date_hyphens. unfold Shapes.digits. cbn [forallb].
    exact A.
  - destruct (Re.found (Re.re_match false (BuildRootcause.date_re "-") t)) eqn:B.
    + intro Fix. exists t. now split.
    + destruct (Re.found (Re.re_match false (BuildRootcause.date_re ".") t)) eqn:C.
      * intros _. apply date_re_inv in C
          as (a1 & a2 & a3 & a4 & b1 & b2 & c1 & c2 & tail & E & D & [->| ->]).
        -- pose proof (format_date_dots _ _ _ _ _ _ _ _ D) as Dots.
           unfold BuildRootcause._format_date in Dots.
           rewrite (spelled_no_blank "." _ _ _ _ _ _ _ _ eq_refl D) in Dots.
           rewrite <- E, A, B in Dots. rewrite E in Dots.
           rewrite (date_re_spelled "." _ _ _ _ _ _ _ _ D) in Dots.
           cbn [Py.is_empty Shapes.spelled] in Dots. rewrite E.
           eexists. split; [exact Dots|]. now apply format_date_hyphens.
        -- exfalso. rewrite E in T. symmetry in T. unfold Py.strip, Py.rstrip in T.
           apply (rstrip_not_ending _ _
                    (Shapes.spelled "." a1 a2 a3 a4 b1 b2 c1 c2 "") Py.LF) in T.
           discriminate T.
      * intro Fix. exists t. now split.
Qed.

(** ** build_rootcause_from_md.py: the merge *)

Lemma json_eqb_eq : forall a b : json, ParseDiff.json_eqb a b = true -> a = b.
Proof.
  fix IH 1. intros a b H.
  destruct a as [|x|x|x|x|l1|d1], b as [|y|y|y|y|l2|d2]; cbn [ParseDiff.json_eqb] in H;
    try discriminate H.
  - reflexivity.
  - f_equal. now apply Bool.eqb_prop.
  - f_equal. now apply Z.eqb_eq.
  - f_equal. now apply FloatAxioms.Leibniz.eqb_spec.
  - f_equal. now apply String.eqb_eq.
  - f_equal. revert l2 H. induction l1 as [|x r1 IHl]; intros [|y r2] H;
      try discriminate H; [reflexivity|].
    apply andb_true_iff in H as [H1 H2]. f_equal; [now apply IH|now apply IHl].
  - f_equal. revert d2 H. induction d1 as [|[k1 x] r1 IHl]; intros [|[k2 y] r2] H;
      try discriminate H; [reflexivity|].
    apply andb_true_iff in H as [H1 H3]. apply andb_true_iff in H1 as [H1 H2].
    apply String.eqb_eq in H1. subst k2. f_equal; [f_equal; now apply IH|now apply IHl].
Qed.

Lemma seen_iff (x : json) (seen : list json) :
  existsb (ParseDiff.json_eqb x) seen = true <-> In x seen.
Proof.
  rewrite existsb_exists. split.
  - intros (y & I & E). apply json_eqb_eq in E. now subst y.
  - intro I. exists x. split; [assumption|apply json_eqb_refl].
Qed.

Lemma unique_from_spec (l : list json) :
  forall seen,
    NoDup (BuildRootcause.unique_from seen l) /\
    (forall x, In x (BuildRootcause.unique_from seen l) <-> In x l /\ ~ In x seen).
Proof.
  induction l as [|y r IH]; intro seen; cbn [BuildRootcause.unique_from].
  - split; [constructor|]. intro x. cbn. tauto.
  - destruct (existsb (ParseDiff.json_eqb y) seen) eqn:E.
    + apply seen_iff in E. destruct (IH seen) as [ND M]. split; [exact ND|].
      intro x. rewrite M. cbn. split; [tauto|]. intros [[<-|I] N]; [contradiction|tauto].
    + assert (N : ~ In y seen) by (rewrite <- seen_iff; congruence).
      destruct (IH (y :: seen)) as [ND M]. split.
      * constructor; [|exact ND]. rewrite M. cbn. tauto.
      * intro x. cbn [In]. rewrite M. cbn [In]. split.
        -- intros [<-|[I Nx]]; [tauto|]. tauto.
        -- intros [[<-|I] Nx]; [now left|].
           destruct (ParseDiff.json_eqb x y) eqn:D.
           ++ apply json_eqb_eq in D. now left.
           ++ right. split; [assumption|]. intros [->|?]; [|contradiction].
              rewrite json_eqb_refl in D. discriminate D.
Qed.

Lemma blank_empty (x : string) : Py.is_empty x = true -> Py.is_empty (Py.strip x) = true.
Proof. now destruct x. Qed.

Lemma merge_fields_other (f : string) (fields : list string) (v : dict) :
  forall out,
    ~ In f fields ->
    Dict.get f (BuildRootcause.merge_fields fields v out) = Dict.get f out.
Proof.
  induction fields as [|field rest IH]; intros out N; cbn [BuildRootcause.merge_fields];
    [reflexivity|].
  rewrite IH by (intro I; apply N; now right).
  assert (D : f <> field) by (intros ->; apply N; now left).
  destruct (Dict.get field v) as [[| | | |x| |]|]; try reflexivity;
    try (now rewrite get_set_other).
  destruct (negb (Py.is_empty x) && negb (Py.is_empty (Py.strip x))); [|reflexivity].
  now rewrite get_set_other.
Qed.

Lemma merge_fields_in (f : string) (fields : list string) (v : dict) :
  forall out,
    NoDup fields -> In f fields ->
    Dict.get f (BuildRootcause.merge_fields fields v out)
    = Shapes.merged_field (Dict.get f v) (Dict.get f out).
Proof.
  induction fields as [|field rest IH]; intros out ND I; [contradiction|].
  cbn [BuildRootcause.merge_fields]. apply NoDup_cons_iff in ND as [Fresh ND].
  destruct I as [->|I].
  - rewrite merge_fields_other by assumption. unfold Shapes.merged_field.
    destruct (Dict.get f v) as [[| | | |x| |]|]; try reflexivity;
      try (now rewrite get_set_same).
    destruct (Py.is_empty x) eqn:Ex.
    + now rewrite (blank_empty _ Ex).
    + cbn [negb andb]. destruct (Py.is_empty (Py.strip x)); [reflexivity|].
      cbn [negb]. now rewrite get_set_same.
  - rewrite IH by assumption. f_equal.
    assert (D : f <> field) by (intros ->; contradiction).
    destruct (Dict.get field v) as [[| | | |x| |]|]; try reflexivity;
      try (now rewrite get_set_other).
    destruct (negb (Py.is_empty x) && negb (Py.is_empty (Py.strip x))); [|reflexivity].
    now rewrite get_set_other.
Qed.

Lemma images_of_ok (d : dict) (l : list json) :
  BuildRootcause.images_of d = Ok l -> l = Shapes.images d.
Proof.
  unfold BuildRootcause.images_of, Shapes.images.
  destruct (Dict.get "images" d) as [[| | | | |x|]|]; cbn [truthy];
    try (now intros [= <-]);
    match goal with
    | |- (if ?b then _ else _) = _ -> _ => destruct b; [discriminate|now intros [= <-]]
    end.
Qed.

Lemma merge_entry_eq (k : string) (nv merged : dict) :
  BuildRootcause.merge_entry k (JObj nv) merged
  = bind (match Dict.get k merged with
          | Some (JObj p) => Ok p
          | None => Ok []
          | Some _ => Raise Unmodelled
          end)
      (fun prev =>
         bind (if Dict.has "images" nv
               then bind (BuildRootcause.images_of prev)
                      (fun a =>
                         bind (BuildRootcause.images_of nv)
                           (fun b =>
                              Ok (Dict.set "images"
                                    (JArr (BuildRootcause.unique_from [] (a ++ b)))
                                    (BuildRootcause.merge_fields
                                       ["type"; "date"; "rootCause"; "Lost"; "POC"]
                                       nv prev))))
               else Ok (BuildRootcause.merge_fields
                          ["type"; "date"; "rootCause"; "Lost"; "POC"] nv prev))
           (fun out => Ok (Dict.set k (JObj out) merged))).
Proof. reflexivity. Qed.

Lemma ok_inj (A : Type) (x y : A) : Ok x = Ok y -> x = y.
Proof. now intros [= ->]. Qed.

Lemma merge_entry_out (k : string) (nv merged merged' : dict) :
  BuildRootcause.merge_entry k (JObj nv) merged = Ok merged' ->
  exists out,
    merged' = Dict.set k (JObj out) merged /\
    (forall f, In f ["type"; "date"; "rootCause"; "Lost"; "POC"] ->
               Dict.get f out
               = Shapes.merged_field (Dict.get f nv)
                                      (Dict.get f (Shapes.stored k merged))) /\
    (if Dict.has "images" nv
     then Dict.get "images" out
          = Some (JArr (BuildRootcause.unique_from []
                          (Shapes.images (Shapes.stored k merged) ++ Shapes.images nv)))
     else Dict.get "images" out = Dict.get "images" (Shapes.stored k merged)) /\
    (forall f, ~ In f ["type"; "date"; "rootCause"; "Lost"; "POC"; "images"] ->
               Dict.get f out = Dict.get f (Shapes.stored k merged)).
Proof.
  rewrite merge_entry_eq. intro H.
  assert (P : exists prev,
             match Dict.get k merged with
             | Some (JObj p) => Ok p
             | None => Ok []
             | Some _ => Raise Unmodelled
             end = Ok prev /\ prev = Shapes.stored k merged).
  { unfold Shapes.stored.
    destruct (Dict.get k merged) as [[| | | | | |p]|]; try discriminate H; eauto. }
  destruct P as (prev & P & <-). rewrite P in H. cbn [bind] in H.
  assert (ND : NoDup ["type"; "date"; "rootCause"; "Lost"; "POC"]).
  { repeat constructor; cbn; intuition discriminate. }
  destruct (Dict.has "images" nv).
  - destruct (BuildRootcause.images_of prev) as [a|e] eqn:A; cbn [bind] in H;
      [|discriminate H].
    destruct (BuildRootcause.images_of nv) as [b|e] eqn:B; cbn [bind] in H;
      [|discriminate H].
    apply ok_inj in H. subst merged'. apply images_of_ok in A, B. subst a b.
    eexists. split; [reflexivity|]. split; [|split].
    + intros f I. rewrite get_set_other.
      * now apply merge_fields_in.
      * intros ->. cbn in I. intuition discriminate.
    + now rewrite get_set_same.
    + intros f N. rewrite get_set_other by (intros ->; apply N; cbn; tauto).
      apply merge_fields_other. intro I. apply N. cbn in *. tauto.
  - apply ok_inj in H. subst merged'. eexists. split; [reflexivity|]. split; [|split].
    + intros f I. now apply merge_fields_in.
    + apply merge_fields_other. cbn. intuition discriminate.
    + intros f N. apply merge_fields_other. intro I. apply N. cbn in *. tauto.
Qed.

(** X19. "New non-empty fields overwrite old ones": after the merge of an
    entry, each of the five scalar fields holds the new value when that
    is a string that is not blank (or a value that is neither a string
    nor None), and the stored value otherwise; the other fields of the
    stored entry, images apart, are kept. *)
Theorem merge_entry_prefers_nonblank (k : string) (nv merged merged' : dict) :
  BuildRootcause.merge_entry k (JObj nv) merged = Ok merged' ->
  exists out,
    Dict.get k merged' = Some (JObj out) /\
    (forall f, In f ["type"; "date"; "rootCause"; "Lost"; "POC"] ->
               Dict.get f out
               = Shapes.merged_field (Dict.get f nv)
                                      (Dict.get f (Shapes.stored k merged))) /\
    (forall f, ~ In f ["type"; "date"; "rootCause"; "Lost"; "POC"; "images"] ->
               Dict.get f out = Dict.get f (Shapes.stored k merged)).
Proof.
  intro H. apply merge_entry_out in H as (out & -> & F & _ & O).
  exists out. split; [apply get_set_same|]. now split.
Qed.

Lemma merge_entry_prefers_nonblank_witness :
  exists merged' out,
    BuildRootcause.merge_entry "A"
      (JObj [("type", JStr "  "); ("rootCause", JStr "A callback.")])
      [("A", JObj [("type", JStr "Reentrancy"); ("rootCause", JStr "old")])]
    = Ok merged' /\
    Dict.get "A" merged' = Some (JObj out) /\
    Dict.get "type" out = Some (JStr "Reentrancy") /\
    Dict.get "rootCause" out = Some (JStr "A callback.").
Proof.
  destruct (BuildRootcause.merge_entry "A"
              (JObj [("type", JStr "  "); ("rootCause", JStr "A callback.")])
              [("A", JObj [("type", JStr "Reentrancy"); ("rootCause", JStr "old")])])
    as [m|e] eqn:Run; [|vm_compute in Run; discriminate Run].
  destruct (merge_entry_prefers_nonblank _ _ _ _ Run) as (out & G & F & _).
  exists m, out. split; [reflexivity|]. split; [exact G|]. split.
  - rewrite (F "type") by (cbn; tauto). reflexivity.
  - rewrite (F "rootCause") by (cbn; tauto). reflexivity.
Defined.

(** X20. "Images are merged uniquely": when the new entry has images, and
    the images are texts, the merged list holds every image of the stored
    entry and of the new one, each once. *)
Theorem merge_entry_images_unique (k : string) (nv merged merged' : dict) :
  BuildRootcause.merge_entry k (JObj nv) merged = Ok merged' ->
  Dict.has "images" nv = true ->
  Shapes.texts (Shapes.images (Shapes.stored k merged) ++ Shapes.images nv) = true ->
  exists out imgs,
    Dict.get k merged' = Some (JObj out) /\
    Dict.get "images" out = Some (JArr imgs) /\
    NoDup imgs /\
    forall x, In x imgs <->
              In x (Shapes.images (Shapes.stored k merged)) \/ In x (Shapes.images nv).
Proof.
  intros H I _. apply merge_entry_out in H as (out & -> & _ & Im & _). rewrite I in Im.
  eexists out, _. split; [apply get_set_same|]. split; [exact Im|].
  destruct (unique_from_spec
              (Shapes.images (Shapes.stored k merged) ++ Shapes.images nv) [])
    as [ND M].
  split; [exact ND|]. intro x. rewrite M, in_app_iff. cbn. tauto.
Qed.

Lemma merge_entry_images_unique_witness :
  exists merged' out,
    BuildRootcause.merge_entry "A"
      (JObj [("images", JArr [JStr "b.png"; JStr "a.png"; JStr "c.png"])])
      [("A", JObj [("images", JArr [JStr "a.png"; JStr "b.png"])])]
    = Ok merged' /\
    Dict.get "A" merged' = Some (JObj out) /\
    Dict.get "images" out = Some (JArr [JStr "a.png"; JStr "b.png"; JStr "c.png"]).
Proof.
  destruct (BuildRootcause.merge_entry "A"
              (JObj [("images", JArr [JStr "b.png"; JStr "a.png"; JStr "c.png"])])
              [("A", JObj [("images", JArr [JStr "a.png"; JStr "b.png"])])])
    as [m|e] eqn:Run; [|vm_compute in Run; discriminate Run].
  destruct (merge_entry_images_unique _ _ _ _ Run eq_refl eq_refl)
    as (out & imgs & G & Im & _).
  exists m, out. split; [reflexivity|]. split; [exact G|].
  vm_compute in Run. injection Run as <-. cbn in G. injection G as <-. reflexivity.
Defined.

Lemma merge_entry_set (k : string) (v : json) (merged merged' : dict) :
  BuildRootcause.merge_entry k v merged = Ok merged' ->
  exists out, merged' = Dict.set k (JObj out) merged.
Proof.
  destruct v as [| | | | | |nv]; try discriminate.
  intro H. apply merge_entry_out in H as (out & E & _). now exists out.
Qed.

Lemma merge_all_adds_on (new_data : dict) :
  forall merged merged',
    BuildRootcause.merge_all new_data merged = Ok merged' ->
    (forall k, Dict.has k merged = true -> Dict.has k merged' = true) /\
    (forall k, Dict.has k new_data = true -> Dict.has k merged' = true) /\
    (forall k, Dict.has k new_data = false -> Dict.get k merged' = Dict.get k merged).
Proof.
  induction new_data as [|[k v] rest IH]; intros merged merged' H;
    cbn [BuildRootcause.merge_all] in H.
  - apply ok_inj in H. subst merged'. repeat split; try tauto. discriminate.
  - destruct (BuildRootcause.merge_entry k v merged) as [m1|e] eqn:E; cbn [bind] in H;
      [|discriminate H].
    apply merge_entry_set in E as (out & ->).
    destruct (IH _ _ H) as (Keep & New & Other). split; [|split].
    + intros k' Hk. apply Keep. rewrite has_set, Hk. apply orb_true_r.
    + intros k' Hk. unfold Dict.has in Hk. cbn [Dict.get] in Hk.
      destruct (String.eqb k' k) eqn:Ek.
      * apply Keep. now rewrite has_set, Ek.
      * now apply New.
    + intros k' Hk. unfold Dict.has in Hk. cbn [Dict.get] in Hk.
      destruct (String.eqb k' k) eqn:Ek; [discriminate Hk|].
      rewrite Other by exact Hk. apply get_set_other. now apply String.eqb_neq.
Qed.

(** X21. The merge is an add-on: every key of the stored file is still there,
    every key of the new data is there, and an entry that the new data
    does not name is left as it was stored. *)
Theorem merge_existing_adds_on (new_data existing merged : dict) :
  BuildRootcause.merge_existing new_data (Holds (JObj existing)) = Ok merged ->
  (forall k, Dict.has k existing = true -> Dict.has k merged = true) /\
  (forall k, Dict.has k new_data = true -> Dict.has k merged = true) /\
  (forall k, Dict.has k new_data = false -> Dict.get k merged = Dict.get k existing).
Proof. apply merge_all_adds_on. Qed.

Lemma merge_existing_adds_on_witness :
  exists merged,
    BuildRootcause.merge_existing
      [("B", JObj [("type", JStr "Oracle")])]
      (Holds (JObj [("A", JObj [("rootCause", JStr "A callback.")])]))
    = Ok merged /\
    Dict.keys merged = ["A"; "B"] /\
    Dict.get "A" merged = Some (JObj [("rootCause", JStr "A callback.")]).
Proof.
  destruct (BuildRootcause.merge_existing
              [("B", JObj [("type", JStr "Oracle")])]
              (Holds (JObj [("A", JObj [("rootCause", JStr "A callback.")])])))
    as [m|e] eqn:Run; [|vm_compute in Run; discriminate Run].
  destruct (merge_existing_adds_on _ _ _ Run) as (_ & _ & Other).
  exists m. split; [reflexivity|]. split.
  - vm_compute in Run. now injection Run as <-.
  - now rewrite (Other "A" eq_refl).
Defined.

(** ** The currency of a loss, the date of a folder *)

(** X22. The currency that comes with a loss is never empty and has no
    dollar sign. *)
Theorem parse_loss_currency_clean (text : string) :
  Py.is_empty (snd (UpdateData._parse_loss_and_currency text)) = false /\
  Py.mem_char "$" (snd (UpdateData._parse_loss_and_currency text)) = false.
Proof.
  unfold UpdateData._parse_loss_and_currency.
  destruct (Py.is_empty text); [now split|].
  destruct (Re.re_search true (UpdateData.loss_re 6) text) as [m|]; [|now split].
  cbn [snd].
  set (token := if Py.is_empty (Re.group_or_empty m 3) then "USD"
                else Re.group_or_empty m 3).
  destruct (Py.is_empty (UpdateData._normalize_currency token)) eqn:E; [now split|].
  split; [exact E|].
  rewrite (normalize_currency_eq token). cbv zeta.
  destruct (existsb _ _); [reflexivity|]. apply (currency_text token).
Qed.

Lemma length_app (a b : string) :
  String.length (a ++ b) = String.length a + String.length b.
Proof. induction a as [|x a IH]; cbn; [reflexivity|]. now rewrite IH. Qed.

Lemma ym_re_groups (root : string) (y m : string) :
  UpdateData.folder_of root = Some (y, m) ->
  (String.length y = 4 /\ Py.all_digits y = true) /\
  (String.length m = 2 /\ Py.all_digits m = true).
Proof.
  unfold UpdateData.folder_of, Re.re_search.
  destruct (Re.search_from false UpdateData.ym_re root 0 root) as [mo|] eqn:S;
    [|discriminate].
  intros [= <- <-]. apply search_some in S as (n0 & L0 & H).
  unfold Re.match_at, UpdateData.ym_re in H.
  rewrite run_cat, run_grp in H. apply run_times in H as (L1 & A1 & H).
  rewrite run_cat in H. apply run_spans in H as (n2 & c2 & H & L2 & _ & K2).
  cbv beta in H. rewrite run_grp in H. apply run_times in H as (L3 & A3 & H).
  injection H as <-. unfold Re.group_or_empty.
  rewrite (group_span _ _ _ _ 1 (0 + n0) 4).
  2: { cbn [Re.cap_get Nat.eqb]. rewrite K2; [|cbn; tauto]. cbn. reflexivity. }
  rewrite (group_span _ _ _ _ 2 (0 + n0 + 4 + n2) 2).
  2: { cbn [Re.cap_get Nat.eqb]. reflexivity. }
  rewrite !drop_add. change (Py.drop 0 root) with root.
  rewrite !take_length, !all_digits_chars.
  split; (split; [lia|assumption]).
Qed.

(** X23. When the README gives nothing, the date of a candidate is eight
    digits: the year and the month of the folder followed by 01, or
    00000000 when the folder has no year and month. *)
Theorem default_date_eight_digits (w : UpdateData.world) (root f : string) :
  String.length (UpdateData.date (UpdateData.parse_artifact Scenarios.no_readme w root f)) = 8 /\
  Py.all_digits (UpdateData.date (UpdateData.parse_artifact Scenarios.no_readme w root f))
  = true.
Proof.
  assert (D : exists d,
             UpdateData.date (UpdateData.parse_artifact Scenarios.no_readme w root f) = d /\
             d = match UpdateData.folder_of root with
                 | Some (y, m) => (y ++ m ++ "01")%string
                 | None => "00000000"
                 end).
  { eexists. split; [reflexivity|]. unfold UpdateData.parse_artifact.
    destruct (UpdateData.read_text w _) as [text|]; [|reflexivity].
    destruct (UpdateData._parse_loss_and_currency text) as [lost1 loss_type1].
    destruct (UpdateData.first_readme w _); reflexivity. }
  destruct D as (d & -> & ->).
  destruct (UpdateData.folder_of root) as [[y m]|] eqn:F; [|now split].
  apply ym_re_groups in F as [[Ly Dy] [Lm Dm]].
  split.
  - rewrite !length_app. cbn. lia.
  - rewrite !all_digits_chars in *. now rewrite !all_chars_app, Dy, Dm.
Qed.

(** ** The dates of the README headers *)

Lemma app_empty_r (s : string) : (s ++ "")%string = s.
Proof. induction s as [|a s IH]; cbn; [reflexivity|]. now rewrite IH. Qed.

Lemma app_assoc_s (a b c : string) : ((a ++ b) ++ c)%string = (a ++ b ++ c)%string.
Proof. induction a as [|x a IH]; cbn; [reflexivity|]. now rewrite IH. Qed.

Lemma rev_s_acc (s acc : string) : Py.rev_s acc s = (Py.rev_s "" s ++ acc)%string.
Proof.
  revert acc. induction s as [|a s IH]; intro acc; cbn; [reflexivity|].
  rewrite (IH (String a acc)), (IH (String a "")). now rewrite app_assoc_s.
Qed.

Lemma rev_s_rev (p b acc : string) :
  Py.rev_s acc (Py.rev_s b p) = Py.rev_s (p ++ acc) b.
Proof.
  revert b acc. induction p as [|a p IH]; intros b acc; cbn; [reflexivity|].
  now rewrite IH.
Qed.

Lemma all_digits_app (a b : string) :
  Py.all_digits (a ++ b) = Py.all_digits a && Py.all_digits b.
Proof.
  induction a as [|x a IH]; cbn; [reflexivity|]. now rewrite IH, andb_assoc.
Qed.

Lemma sep_not_digit (a : ascii) : Shapes.is_sep a = true -> Py.is_digit a = false.
Proof.
  unfold Shapes.is_sep. cbn [Py.mem_char]. rewrite orb_false_r. intro H.
  apply orb_true_iff in H as [H|H]; apply Ascii.eqb_eq in H; now subst a.
Qed.

(** The first part of a split starts with what was read so far. *)
Lemma split_by_head (p : ascii -> bool) (s cur : string) :
  exists t rest, UpdateData.split_by p cur s = (Py.rev_s "" cur ++ t)%string :: rest.
Proof.
  revert cur. induction s as [|a s IH]; intro cur; cbn [UpdateData.split_by].
  - exists "", []. now rewrite app_empty_r.
  - destruct (p a).
    + exists "", (UpdateData.split_by p "" s). now rewrite app_empty_r.
    + destruct (IH (String a cur)) as (t & rest & ->).
      exists (String a t), rest. cbn [Py.rev_s].
      rewrite (rev_s_acc cur (String a "")). now rewrite app_assoc_s.
Qed.

(** Parts that are digits only are, together, the digits of the text. *)
Lemma split_by_join (s cur : string) :
  forallb Py.all_digits (UpdateData.split_by Shapes.is_sep cur s) = true ->
  Shapes.join (UpdateData.split_by Shapes.is_sep cur s)
  = (Py.rev_s "" cur ++ UpdateData.only_digits s)%string.
Proof.
  revert cur. induction s as [|a s IH]; intros cur H;
    cbn [UpdateData.split_by UpdateData.only_digits] in *.
  - reflexivity.
  - destruct (Shapes.is_sep a) eqn:Sep.
    + rewrite (sep_not_digit a Sep). cbn [forallb] in H.
      apply andb_true_iff in H as [_ H].
      unfold Shapes.join. cbn [fold_right]. fold (Shapes.join (UpdateData.split_by Shapes.is_sep "" s)).
      now rewrite (IH "" H).
    + assert (D : Py.is_digit a = true).
      { destruct (split_by_head Shapes.is_sep s (String a cur)) as (t & rest & E).
        rewrite E in H. cbn [forallb] in H. apply andb_true_iff in H as [H _].
        rewrite all_digits_app in H. apply andb_true_iff in H as [H _].
        cbn [Py.rev_s] in H. rewrite rev_s_acc, all_digits_app in H.
        apply andb_true_iff in H as [_ H]. cbn in H. now rewrite andb_true_r in H. }
      rewrite D, (IH _ H). cbn [Py.rev_s].
      rewrite (rev_s_acc cur (String a "")). now rewrite app_assoc_s.
Qed.

(** A part without separator is read in one go. *)
Lemma split_by_part (x t cur : string) :
  Py.all_digits x = true ->
  UpdateData.split_by Shapes.is_sep cur (x ++ t)
  = UpdateData.split_by Shapes.is_sep (Py.rev_s cur x) t.
Proof.
  revert cur. induction x as [|a x IH]; intros cur H;
    cbn [String.append UpdateData.split_by Py.rev_s Py.all_digits] in *; [reflexivity|].
  apply andb_true_iff in H as [H1 H2].
  destruct (Shapes.is_sep a) eqn:Sep; [|now apply IH].
  apply sep_not_digit in Sep. congruence.
Qed.

Lemma split_by_last (x : string) :
  Py.all_digits x = true -> UpdateData.split_by Shapes.is_sep "" x = [x].
Proof.
  intro H. rewrite <- (app_empty_r x) at 1. rewrite (split_by_part x "" "" H).
  cbn [UpdateData.split_by]. rewrite rev_s_rev. cbn. now rewrite app_empty_r.
Qed.

Lemma split_by_next (x t : string) (a : ascii) :
  Py.all_digits x = true -> Shapes.is_sep a = true ->
  UpdateData.split_by Shapes.is_sep "" (x ++ String a t)
  = x :: UpdateData.split_by Shapes.is_sep "" t.
Proof.
  intros H Sep. rewrite (split_by_part x _ "" H). cbn [UpdateData.split_by].
  rewrite Sep, rev_s_rev. cbn. now rewrite app_empty_r.
Qed.

Lemma prefix_char (c a : ascii) (s : string) :
  String.prefix (String c "") (String a s) = Ascii.eqb c a.
Proof.
  cbn [String.prefix]. destruct (ascii_dec c a) as [->|N].
  - rewrite Ascii.eqb_refl. now destruct s.
  - symmetry. now apply Ascii.eqb_neq.
Qed.

Lemma contains_char (c : ascii) (x t : string) :
  Py.contains (String c "") (x ++ String c t) = true.
Proof.
  induction x as [|a x IH]; cbn [String.append Py.contains].
  - now rewrite prefix_char, Ascii.eqb_refl.
  - rewrite IH. apply orb_true_r.
Qed.

Lemma digits_no_char (c : ascii) (s : string) :
  Py.is_digit c = false -> Py.all_digits s = true ->
  Py.contains (String c "") s = false.
Proof.
  intro C. induction s as [|a s IH]; [reflexivity|]. cbn [Py.all_digits Py.contains].
  intro H. apply andb_true_iff in H as [Da A]. rewrite prefix_char, (IH A).
  destruct (Ascii.eqb_spec c a) as [->|_]; [congruence|reflexivity].
Qed.

Lemma contains_sep (a : ascii) (x t : string) :
  Shapes.is_sep a = true ->
  Py.contains "-" (x ++ String a t) || Py.contains "." (x ++ String a t) = true.
Proof.
  unfold Shapes.is_sep. cbn [Py.mem_char]. rewrite orb_false_r. intro H.
  apply orb_true_iff in H as [H|H]; apply Ascii.eqb_eq in H; subst a.
  - now rewrite (contains_char "-").
  - rewrite (contains_char "."). apply orb_true_r.
Qed.

Lemma norm_date_eq (date_raw : string) :
  UpdateData._norm_date date_raw
  = if Py.is_empty date_raw then None
    else if Py.contains "-" date_raw || Py.contains "." date_raw
    then
      match UpdateData.split_by Shapes.is_sep "" date_raw with
      | [p0; p1; p2] =>
          if UpdateData.isdigit p0 && UpdateData.isdigit p1 && UpdateData.isdigit p2
          then Some (p0 ++ p1 ++ p2)%string else None
      | _ => None
      end
    else if (String.length date_raw =? 8)%nat && UpdateData.isdigit date_raw
    then Some date_raw
    else None.
Proof. reflexivity. Qed.

Lemma norm_date_plain (d : string) :
  Py.all_digits d = true -> Py.is_empty d = false ->
  UpdateData._norm_date d
  = if (String.length d =? 8)%nat then Some d else None.
Proof.
  intros A N. rewrite norm_date_eq, N.
  rewrite (digits_no_char "-" d eq_refl A), (digits_no_char "." d eq_refl A).
  cbn [orb]. unfold UpdateData.isdigit. rewrite A, N. cbn [andb negb].
  now rewrite andb_true_r.
Qed.

Lemma norm_date_parts (p0 p1 p2 : string) (s1 s2 : ascii) :
  UpdateData.isdigit p0 = true -> UpdateData.isdigit p1 = true ->
  UpdateData.isdigit p2 = true ->
  Shapes.is_sep s1 = true -> Shapes.is_sep s2 = true ->
  UpdateData._norm_date (p0 ++ String s1 (p1 ++ String s2 p2))
  = Some (p0 ++ p1 ++ p2)%string.
Proof.
  intros D0 D1 D2 S1 S2. rewrite norm_date_eq.
  assert (N : Py.is_empty (p0 ++ String s1 (p1 ++ String s2 p2)) = false)
    by now destruct p0.
  rewrite N, (contains_sep s1 p0 _ S1).
  pose proof D0 as A0. pose proof D1 as A1. pose proof D2 as A2.
  unfold UpdateData.isdigit in A0, A1, A2.
  apply andb_true_iff in A0 as [A0 _]. apply andb_true_iff in A1 as [A1 _].
  apply andb_true_iff in A2 as [A2 _].
  rewrite (split_by_next p0 _ s1 A0 S1), (split_by_next p1 _ s2 A1 S2),
    (split_by_last p2 A2).
  now rewrite D0, D1, D2.
Qed.

(** X24. When [_norm_date] answers, the answer is the digits of its argument,
    hyphens and dots dropped, and there is at least one. *)
Theorem norm_date_keeps_the_digits (date_raw r : string) :
  UpdateData._norm_date date_raw = Some r ->
  r = UpdateData.only_digits date_raw /\ UpdateData.isdigit r = true.
Proof.
  rewrite norm_date_eq. destruct (Py.is_empty date_raw); [discriminate|].
  destruct (Py.contains "-" date_raw || Py.contains "." date_raw).
  - destruct (UpdateData.split_by Shapes.is_sep "" date_raw)
      as [|p0 [|p1 [|p2 [|? ?]]]] eqn:E; try discriminate.
    destruct (UpdateData.isdigit p0) eqn:D0; [|discriminate].
    destruct (UpdateData.isdigit p1) eqn:D1; [|discriminate].
    destruct (UpdateData.isdigit p2) eqn:D2; [|discriminate].
    cbn [andb]. intros [= <-].
    unfold UpdateData.isdigit in D0, D1, D2.
    apply andb_true_iff in D0 as [A0 N0]. apply andb_true_iff in D1 as [A1 _].
    apply andb_true_iff in D2 as [A2 _].
    split.
    + assert (All : forallb Py.all_digits
                      (UpdateData.split_by Shapes.is_sep "" date_raw) = true).
      { rewrite E. cbn. now rewrite A0, A1, A2. }
      apply split_by_join in All. rewrite E in All. cbn in All.
      now rewrite app_empty_r in All.
    + unfold UpdateData.isdigit. rewrite !all_digits_app, A0, A1, A2.
      destruct p0; [discriminate N0|reflexivity].
  - destruct (String.length date_raw =? 8)%nat; [|discriminate].
    destruct (UpdateData.isdigit date_raw) eqn:D; [|discriminate].
    cbn [andb]. intros [= <-]. split; [|exact D].
    unfold UpdateData.isdigit in D. apply andb_true_iff in D as [A _].
    symmetry. now apply only_digits_fixed.
Qed.

Lemma norm_date_keeps_the_digits_witness :
  "20250701" = UpdateData.only_digits "2025-07.01" /\
  UpdateData.isdigit "20250701" = true.
Proof. apply (norm_date_keeps_the_digits "2025-07.01" "20250701"). reflexivity. Defined.

(** X25. Three runs of digits separated by a hyphen or a dot, whatever their
    lengths, are read as the digits in a row: the length is checked only
    for a date without separator. *)
Theorem norm_date_joins_three_parts (p0 p1 p2 : string) (s1 s2 : ascii) :
  UpdateData.isdigit p0 = true -> UpdateData.isdigit p1 = true ->
  UpdateData.isdigit p2 = true ->
  Shapes.is_sep s1 = true -> Shapes.is_sep s2 = true ->
  UpdateData._norm_date (p0 ++ String s1 (p1 ++ String s2 p2))
  = Some (p0 ++ p1 ++ p2)%string /\
  (String.length (p0 ++ p1 ++ p2)%string = 8 ->
   UpdateData._norm_date (p0 ++ p1 ++ p2) = Some (p0 ++ p1 ++ p2)%string) /\
  ((String.length (p0 ++ p1 ++ p2)%string =? 8)%nat = false ->
   UpdateData._norm_date (p0 ++ p1 ++ p2) = None).
Proof.
  intros D0 D1 D2 S1 S2. split; [now apply norm_date_parts|].
  pose proof D0 as A0. pose proof D1 as A1. pose proof D2 as A2.
  unfold UpdateData.isdigit in A0, A1, A2.
  apply andb_true_iff in A0 as [A0 N0]. apply andb_true_iff in A1 as [A1 _].
  apply andb_true_iff in A2 as [A2 _].
  assert (A : Py.all_digits (p0 ++ p1 ++ p2) = true)
    by now rewrite !all_digits_app, A0, A1, A2.
  assert (N : Py.is_empty (p0 ++ p1 ++ p2) = false)
    by (destruct p0; [discriminate N0|reflexivity]).
  rewrite (norm_date_plain _ A N). split; intro L.
  - apply Nat.eqb_eq in L. now rewrite L.
  - now rewrite L.
Qed.

Lemma norm_date_joins_three_parts_witness :
  UpdateData._norm_date "1-2.3" = Some "123" /\
  (String.length "123" = 8 -> UpdateData._norm_date "123" = Some "123") /\
  ((String.length "123" =? 8)%nat = false -> UpdateData._norm_date "123" = None).
Proof.
  apply (norm_date_joins_three_parts "1" "2" "3" "-" "."); reflexivity.
Defined.

(** X26. The hyphenated date that update_rootcause writes is read back by
    [_norm_date] as the eight digits it came from. *)
Theorem norm_date_undoes_hyphenate (d : string) :
  String.length d = 8 -> Py.all_digits d = true ->
  UpdateData._norm_date (UpdateData.hyphenate d) = Some d /\
  UpdateData._norm_date d = Some d.
Proof.
  intros L A.
  do 8 (destruct d as [|? d]; [discriminate L|]).
  destruct d; [|discriminate L]. clear L.
  cbn in A. repeat (let H := fresh "D" in apply andb_true_iff in A as [H A]). clear A.
  split.
  - unfold UpdateData.hyphenate. cbn [Py.take Py.drop].
    match goal with
    | |- UpdateData._norm_date ?x = Some (String ?a1 (String ?a2 (String ?a3 (String ?a4
           (String ?b1 (String ?b2 (String ?c1 (String ?c2 ""))))))))
      => change x with (String a1 (String a2 (String a3 (String a4 ""))) ++
                        String "-" (String b1 (String b2 "") ++
                        String "-" (String c1 (String c2 ""))))%string;
         change (String a1 (String a2 (String a3 (String a4
                   (String b1 (String b2 (String c1 (String c2 ""))))))))
           with (String a1 (String a2 (String a3 (String a4 "")))
                 ++ String b1 (String b2 "") ++ String c1 (String c2 ""))%string
    end.
    apply norm_date_parts; try reflexivity;
      unfold UpdateData.isdigit; cbn [Py.all_digits Py.is_empty];
      repeat match goal with
             | H : Py.is_digit ?a = true |- context [Py.is_digit ?a] => rewrite H
             end;
      reflexivity.
  - rewrite norm_date_plain; [reflexivity| |reflexivity]. cbn [Py.all_digits].
    repeat match goal with
           | H : Py.is_digit ?a = true |- context [Py.is_digit ?a] => rewrite H
           end.
    reflexivity.
Qed.

Lemma norm_date_undoes_hyphenate_witness :
  UpdateData._norm_date (UpdateData.hyphenate "20250701") = Some "20250701" /\
  UpdateData._norm_date "20250701" = Some "20250701".
Proof. apply (norm_date_undoes_hyphenate "20250701"); reflexivity. Defined.

(** ** The loss of a README line *)

(** X27. A README line on which the label pattern matches gives one digit
    times the multiplier, as the lazy number group stops after its first
    digit; the rest of the number is lost. *)
Theorem readme_loss_label_first_digit (ln : string) :
  Re.found (Re.re_search true (UpdateData.loss_re 10) ln) = true ->
  exists d k cur,
    In d [0; 1; 2; 3; 4; 5; 6; 7; 8; 9]%float /\
    In k [1; 1000; 1000000; 1000000000]%float /\
    UpdateData.readme_loss_line ln = Some (PrimFloat.mul d k, cur).
Proof.
  unfold UpdateData.readme_loss_line.
  destruct (Re.re_search true (UpdateData.loss_re 10) ln) as [m|] eqn:E; [|discriminate].
  intros _. apply loss_search_one_digit in E as [p E].
  eexists _, _, _. split; [|split; [apply mult_of_cases|reflexivity]].
  unfold Re.group_or_empty at 1 2, Re.group. rewrite E.
  replace (S p - p) with 1 by lia.
  destruct (take_one (Py.drop p (Re.subject m))) as [->|[a ->]].
  - vm_compute. tauto.
  - cbn [Py.is_empty]. apply float_of_char.
Qed.

Lemma readme_loss_label_first_digit_witness :
  exists d k cur,
    In d [0; 1; 2; 3; 4; 5; 6; 7; 8; 9]%float /\
    In k [1; 1000; 1000000; 1000000000]%float /\
    UpdateData.readme_loss_line "### Lost: 15,261.68 BUSD"
    = Some (PrimFloat.mul d k, cur).
Proof.
  apply (readme_loss_label_first_digit "### Lost: 15,261.68 BUSD"). reflexivity.
Defined.

(** ** An override through a whole run *)

(** ** The contract path of an artifact is not empty *)








(** ** The record an artifact is merged onto *)








Section OverrideWins.

Variable overrides : dict.
Variable loaded : list dict.
Variable p : string.
Variable o : dict.
Hypothesis Ov : Dict.get p overrides = Some (JObj o).
Hypothesis Lo : Dict.get "Lost" o = Some (JFloat 5000).





Variable readme_analysis :
  string -> string -> string -> option (string * string) -> string -> UpdateData.readme.
Variable w : UpdateData.world.
Variable start_ym : option string.


End OverrideWins.



